(** * Sistema de Gerenciamento de Livraria

    A shallow embedding of the bookstore manager: the command-line variant
    (class [SistemaLivraria] of [sistema_livraria.py], module [Cli] below) and
    the HTTP variant (the Flask handlers of [app.py], module [Web] below).
    Both variants work on the same directory layout: one SQLite file holding
    the table [livros] and a directory of backup copies.

    Conventions of the model.
    - Text is a [string] of bytes: the UTF-8 encoding SQLite stores and
      compares, and the encoding both variants open their CSV files with.
    - The column [preco] is a binary64 number, here a primitive [float];
      what the column gives back for a number written to it is [REAL].
    - The clock is read by the caller and handed to each operation
      ([relogio]); the builtins [int], [float] and [repr] on text, which the
      program calls but does not define, are the fields of [Ambiente].
    - A CSV file is its text. [csv.writer] and [csv.reader] are modelled
      for the dialect the program uses (the default, [excel]), and so is
      the way each file is opened: the export writes with [newline=''],
      the imports read with the default newline handling.
    - The model describes the system after [inicializar_banco] has run: the
      database file exists and holds the table [livros]. *)

From Stdlib Require Import ZArith List String Ascii Bool Lia.
From Stdlib Require Import Permutation Sorted.
From Stdlib Require Import Floats DecimalString.
Import ListNotations.

Open Scope Z_scope.

(* ================================================================== *)
(** * Python values and exceptions *)

(** The values a decoded JSON request body is made of. *)
#[warnings="-register-all"]
Inductive valor : Type :=
| VNone
| VBool (b : bool)
| VInt (z : Z)
| VFloat (f : float)
| VStr (s : string)
| VList (l : list valor)
| VDict (d : list (string * valor)).

(** The exceptions the modelled code paths can raise. [IntegrityError],
    [ProgrammingError] and [OperationalError] are the subclasses of
    [sqlite3.Error] that occur; [CsvError] is [csv.Error]; the others are
    builtins. *)
Inductive excecao : Type :=
| ValueError
| TypeError
| KeyError (k : string)
| OverflowError
| StopIteration
| IntegrityError
| ProgrammingError
| OperationalError
| CsvError.

Definition e_ValueError (e : excecao) : bool :=
  match e with ValueError => true | _ => false end.

Definition e_sqlite3_Error (e : excecao) : bool :=
  match e with
  | IntegrityError | ProgrammingError | OperationalError => true
  | _ => false
  end.

Inductive desfecho (A : Type) : Type :=
| Retorna (a : A)
| Levanta (e : excecao).
Arguments Retorna {A} a.
Arguments Levanta {A} e.

(** What the program needs from the Python runtime on text. [None] stands
    for [ValueError]. *)
Class Ambiente : Type := {
  py_int_str : string -> option Z;        (* int(s) *)
  py_float_str : string -> option float;  (* float(s) *)
  py_repr_float : float -> string;        (* repr(x), what csv.writer writes *)
  (* SQLite: the text a REAL value becomes in a TEXT column *)
  sqlite_real_text : float -> string;
  (* SQLite: the integer a TEXT operand equals once numeric affinity is
     applied to it for the comparison with an INTEGER column, if any *)
  sqlite_text_int : string -> option Z
}.

(** [str(n)] of an integer. *)
Definition py_str_int (z : Z) : string :=
  NilZero.string_of_int (Z.to_int z).

(** [float(n)] of an integer: the nearest binary64 number, ties to even;
    [OverflowError] beyond the largest finite one. *)
Definition float_de_Z (z : Z) : desfecho float :=
  match binary_normalize prec emax z 0 false with
  | S754_infinity _ => Levanta OverflowError
  | sf => Retorna (SF2Prim sf)
  end.

(** [int(x)] of a float: truncation towards zero. *)
Definition Z_de_float (f : float) : desfecho Z :=
  match Prim2SF f with
  | S754_nan => Levanta ValueError
  | S754_infinity _ => Levanta OverflowError
  | S754_zero _ => Retorna 0
  | S754_finite s m e =>
      let a := if 0 <=? e then Z.pos m * 2 ^ e else Z.pos m / 2 ^ (- e) in
      Retorna (if s then - a else a)
  end.

Section Conversoes.
Context {amb : Ambiente}.

(** [int(v)] *)
Definition py_int (v : valor) : desfecho Z :=
  match v with
  | VInt z => Retorna z
  | VBool b => Retorna (if b then 1 else 0)
  | VFloat f => Z_de_float f
  | VStr s => match py_int_str s with
              | Some z => Retorna z
              | None => Levanta ValueError
              end
  | VNone | VList _ | VDict _ => Levanta TypeError
  end.

(** [float(v)] *)
Definition py_float (v : valor) : desfecho float :=
  match v with
  | VFloat f => Retorna f
  | VInt z => float_de_Z z
  | VBool b => Retorna (if b then 1%float else 0%float)
  | VStr s => match py_float_str s with
              | Some f => Retorna f
              | None => Levanta ValueError
              end
  | VNone | VList _ | VDict _ => Levanta TypeError
  end.
End Conversoes.

(** [d[k]]: only a dict can be indexed by a string. *)
Fixpoint procura (k : string) (d : list (string * valor)) : option valor :=
  match d with
  | [] => None
  | (k', v) :: d' => if String.eqb k k' then Some v else procura k d'
  end.

Definition subscript (dados : valor) (k : string) : desfecho valor :=
  match dados with
  | VDict d => match procura k d with
               | Some v => Retorna v
               | None => Levanta (KeyError k)
               end
  | _ => Levanta TypeError
  end.

(* ================================================================== *)
(** * The persisted layout *)

(** A row of the table [livros]. *)
Record livro : Type := mk_livro {
  id : Z;
  titulo : string;
  autor : string;
  ano_publicacao : Z;
  preco : float
}.

(** The content of the database file: the rows of [livros] in [id] order
    and the AUTOINCREMENT counter kept in [sqlite_sequence]. *)
Record banco : Type := mk_banco {
  livros : list livro;
  sequencia : Z
}.

(** A file [backup_livraria_<carimbo>.db] of the backups directory. The
    name is fixed by the second the copy was taken in ([carimbo]);
    [shutil.copy2] copies the content and the modification time of the
    database file. *)
Record arquivo : Type := mk_arquivo {
  carimbo : Z;
  mtime : Z;
  conteudo : banco
}.

(** The files of the layout: the database with its modification time, the
    backups directory in the order the directory lists it, and
    [exports/livros_exportados.csv], the fixed file of the command-line
    export, when it exists. *)
Record sistema : Type := mk_sistema {
  db : banco;
  db_mtime : Z;
  backups : list arquivo;
  livros_exportados : option string
}.

(** The clock as an operation reads it: [agora] in nanoseconds, and
    [datetime.now().year]. *)
Record relogio : Type := mk_relogio {
  agora : Z;
  ano_atual : Z
}.

(** The second-resolution stamp [strftime("%Y-%m-%d_%H-%M-%S")] puts in a
    backup's name. *)
Definition segundo (t : Z) : Z := t / 1000000000.

(* ================================================================== *)
(** * Backup Manager ([fazer_backup], [limpar_backups_antigos]) *)

(** [sorted(..., key=os.path.getmtime, reverse=True)]: a stable sort, so
    files of equal modification time keep the order of the listing. The
    listing ([glob]) comes in the order the file system gives, which
    nothing fixes; the model lists the names in the order they were first
    written ([copy2] below). Which of several files of one modification
    time the cleanup removes depends on that order; how many files stay,
    and that none that stays is older than one removed, does not. *)
Fixpoint insere_desc (x : arquivo) (l : list arquivo) : list arquivo :=
  match l with
  | [] => [x]
  | y :: l' => if mtime y <=? mtime x then x :: l else y :: insere_desc x l'
  end.

Definition ordena_desc (l : list arquivo) : list arquivo :=
  fold_right insere_desc [] l.

(** [backup.unlink()]: the entry of that name leaves the directory. *)
Definition unlink (b : arquivo) (dir : list arquivo) : list arquivo :=
  filter (fun f => negb (carimbo f =? carimbo b)) dir.

(** [backups[5:]] of the sorted listing. *)
Definition backups_excedentes (dir : list arquivo) : list arquivo :=
  skipn 5 (ordena_desc dir).

Definition limpar_backups_antigos (dir : list arquivo) : list arquivo :=
  fold_left (fun d b => unlink b d) (backups_excedentes dir) dir.

(** A file stays when no file of its name is among those removed. *)
Definition fica (excedentes : list arquivo) (f : arquivo) : bool :=
  negb (existsb (fun b => carimbo f =? carimbo b) excedentes).

(** [shutil.copy2(DB_PATH, backup_path)]: a file of that name is
    overwritten where it stands, a new name is added to the directory. *)
Fixpoint copy2 (novo : arquivo) (dir : list arquivo) : list arquivo :=
  match dir with
  | [] => [novo]
  | f :: dir' =>
      if carimbo f =? carimbo novo then novo :: dir' else f :: copy2 novo dir'
  end.

Definition novo_backup (r : relogio) (s : sistema) : arquivo :=
  {| carimbo := segundo (agora r); mtime := db_mtime s; conteudo := db s |}.

Definition fazer_backup (r : relogio) (s : sistema) : sistema :=
  {| db := db s;
     db_mtime := db_mtime s;
     backups := limpar_backups_antigos (copy2 (novo_backup r s) (backups s));
     livros_exportados := livros_exportados s |}.

(* ================================================================== *)
(** * Storage layer: the SQL statements the program issues *)

(** The range of an SQLite INTEGER; binding a Python [int] outside it
    raises [OverflowError]. *)
Definition cabe_int64 (z : Z) : bool :=
  (- 2 ^ 63 <=? z) && (z <? 2 ^ 63).

(** What the [sqlite3] module binds for a Python value. A NaN is bound as
    NULL; a list or a dict cannot be bound. *)
Inductive sql_valor : Type :=
| SqlNull
| SqlInteger (z : Z)
| SqlReal (f : float)
| SqlText (s : string).

Definition vincula (v : valor) : desfecho sql_valor :=
  match v with
  | VNone => Retorna SqlNull
  | VBool b => Retorna (SqlInteger (if b then 1 else 0))
  | VInt z => if cabe_int64 z then Retorna (SqlInteger z) else Levanta OverflowError
  | VFloat f => Retorna (if is_nan f then SqlNull else SqlReal f)
  | VStr s => Retorna (SqlText s)
  | VList _ | VDict _ => Levanta ProgrammingError
  end.

(** A value on its way into a [TEXT NOT NULL] column: numbers become
    text, NULL violates the constraint. *)
Definition coluna_texto {amb : Ambiente} (v : sql_valor) : desfecho string :=
  match v with
  | SqlNull => Levanta IntegrityError
  | SqlInteger z => Retorna (py_str_int z)
  | SqlReal f => Retorna (sqlite_real_text f)
  | SqlText s => Retorna s
  end.

(** What a column of type [REAL] holds once a float was written to it and
    reads back. SQLite writes a float that has an integer value as that
    integer and turns it into a float again when the row is read, so the
    sign of a negative zero is lost; every other number comes back as it
    was written. (A NaN never gets this far: it is bound as NULL.) *)
Definition REAL (p : float) : float :=
  if (p =? 0)%float then 0%float else p.

(** [INSERT INTO livros (titulo, autor, ano_publicacao, preco)
    VALUES (?, ?, ?, ?)] with text for the first two parameters, an [int]
    and a [float]: the new row takes the next value of the counter.
    Returns [cursor.lastrowid] and the table inside the open
    transaction. *)
Definition INSERT (t a : string) (ano : Z) (p : float) (b : banco)
  : desfecho (Z * banco) :=
  if negb (cabe_int64 ano) then Levanta OverflowError
  else if is_nan p then Levanta IntegrityError
  else
    let i := sequencia b + 1 in
    Retorna (i, {| livros := livros b ++ [mk_livro i t a ano (REAL p)];
                   sequencia := i |}).

(** The same statement with the first two parameters as the request
    carries them. Parameters are bound in order, before the statement
    runs and checks its constraints. *)
Definition INSERT_valores {amb : Ambiente} (t a : valor) (ano : Z) (p : float)
    (b : banco) : desfecho (Z * banco) :=
  match vincula t with
  | Levanta e => Levanta e
  | Retorna vt =>
      match vincula a with
      | Levanta e => Levanta e
      | Retorna va =>
          if negb (cabe_int64 ano) then Levanta OverflowError
          else
            match coluna_texto vt with
            | Levanta e => Levanta e
            | Retorna st =>
                match coluna_texto va with
                | Levanta e => Levanta e
                | Retorna sa => INSERT st sa ano p b
                end
            end
      end
  end.

(** [SELECT ... FROM livros WHERE id = ?] and [fetchone()]. *)
Definition SELECT_id (i : Z) (b : banco) : option livro :=
  find (fun l => id l =? i) (livros b).

(** [UPDATE livros SET preco = ? WHERE id = ?]: a NaN is bound as NULL
    and violates [NOT NULL] on a row it would change; the column holds
    [REAL] of any other price. *)
Definition UPDATE_preco (p : float) (i : Z) (b : banco) : desfecho banco :=
  if is_nan p && existsb (fun l => id l =? i) (livros b)
  then Levanta IntegrityError
  else
    Retorna {| livros :=
                 map (fun l => if id l =? i
                               then mk_livro (id l) (titulo l) (autor l)
                                      (ano_publicacao l) (REAL p)
                               else l) (livros b);
               sequencia := sequencia b |}.

(** [DELETE FROM livros WHERE id = ?] *)
Definition DELETE_id (i : Z) (b : banco) : banco :=
  {| livros := filter (fun l => negb (id l =? i)) (livros b);
     sequencia := sequencia b |}.

(** [conn.commit()] of a transaction that wrote: the file takes the new
    content and the time of the write. *)
Definition commit (r : relogio) (b : banco) (s : sistema) : sistema :=
  {| db := b;
     db_mtime := agora r;
     backups := backups s;
     livros_exportados := livros_exportados s |}.

(** ** [autor LIKE ?]

    SQLite reads pattern and text one UTF-8 character at a time
    ([sqlite3Utf8Read]: a byte of [0xC0] or more takes the continuation
    bytes after it along). In the pattern [%] stands for any run of
    characters and [_] for any one character; any other character stands
    for itself, and two ASCII letters are equal whatever their case. *)
Definition byte_lider (c : ascii) : bool := (192 <=? N_of_ascii c)%N.

Definition byte_continuacao (c : ascii) : bool :=
  ((128 <=? N_of_ascii c) && (N_of_ascii c <? 192))%N.

Fixpoint absorve (cs : list string) : string * list string :=
  match cs with
  | String d EmptyString :: cs' =>
      if byte_continuacao d
      then let (t, r) := absorve cs' in (String d t, r)
      else (EmptyString, cs)
  | _ => (EmptyString, cs)
  end.

Fixpoint caracteres (s : string) : list string :=
  match s with
  | EmptyString => []
  | String c s' =>
      if byte_lider c
      then let (t, r) := absorve (caracteres s') in String c t :: r
      else String c EmptyString :: caracteres s'
  end.

(** [sqlite3Tolower] on one byte. *)
Definition minuscula (c : ascii) : ascii :=
  if ((65 <=? N_of_ascii c) && (N_of_ascii c <=? 90))%N
  then ascii_of_N (N_of_ascii c + 32)
  else c.

Definition ascii7 (c : ascii) : bool := (N_of_ascii c <? 128)%N.

Definition mesmo_caractere (a b : string) : bool :=
  String.eqb a b ||
  match a, b with
  | String x EmptyString, String y EmptyString =>
      ascii7 x && ascii7 y && Ascii.eqb (minuscula x) (minuscula y)
  | _, _ => false
  end.

Fixpoint like (p : list string) : list string -> bool :=
  match p with
  | [] => fun s => match s with [] => true | _ :: _ => false end
  | c :: p' =>
      if String.eqb c "%" then
        fix resto (s : list string) : bool :=
          like p' s || match s with [] => false | _ :: s' => resto s' end
      else if String.eqb c "_" then
        fun s => match s with [] => false | _ :: s' => like p' s' end
      else
        fun s => match s with
                 | [] => false
                 | d :: s' => mesmo_caractere c d && like p' s'
                 end
  end.

Definition LIKE (texto padrao : string) : bool :=
  like (caracteres padrao) (caracteres texto).

(** ** [ORDER BY titulo]

    The default collation compares the bytes of the two texts. The sort
    runs over the rows in [id] order and keeps that order among equal
    titles. *)
Fixpoint insere_titulo (x : livro) (l : list livro) : list livro :=
  match l with
  | [] => [x]
  | y :: l' =>
      if String.leb (titulo x) (titulo y) then x :: l
      else y :: insere_titulo x l'
  end.

Definition ORDER_BY_titulo (l : list livro) : list livro :=
  fold_right insere_titulo [] l.

(** The order of the titles: byte-wise, as [memcmp] compares. *)
Definition titulo_le (a b : livro) : Prop :=
  String.leb (titulo a) (titulo b) = true.

(** [SELECT * FROM livros WHERE autor LIKE ? ORDER BY titulo] with the
    parameter [f'%{autor}%']. SQLite refuses to match a pattern of more
    than 50000 bytes (its default limit), which it finds out on the first
    row it tests. *)
Definition LIKE_PATTERN_LENGTH : Z := 50000.

Definition SELECT_autor_LIKE (nome : string) (b : banco)
  : desfecho (list livro) :=
  let padrao := ("%" ++ nome ++ "%")%string in
  match livros b with
  | _ :: _ =>
      if LIKE_PATTERN_LENGTH <? Z.of_nat (String.length padrao)
      then Levanta OperationalError
      else Retorna (ORDER_BY_titulo
                      (filter (fun l => LIKE (autor l) padrao) (livros b)))
  | [] => Retorna []
  end.




(** ** [GROUP BY chave] with [COUNT( * )]

    One output row per key that occurs, never a row for a key that does
    not; the engine emits the groups in the order of the key. *)
Section Agrupamento.
Context {K : Type} (kleb keqb : K -> K -> bool).

Fixpoint conta (k : K) (g : list (K * Z)) : list (K * Z) :=
  match g with
  | [] => [(k, 1)]
  | (k', n) :: g' =>
      if keqb k k' then (k', n + 1) :: g'
      else if kleb k k' then (k, 1) :: g
      else (k', n) :: conta k g'
  end.

Definition GROUP_BY_COUNT (chaves : list K) : list (K * Z) :=
  fold_left (fun g k => conta k g) chaves [].

(** [ORDER BY total DESC] over the groups. SQL does not fix the order
    among groups of equal total; the model keeps them in the order of
    the groups, and nothing is stated below of that order. *)
Fixpoint insere_total (x : K * Z) (l : list (K * Z)) : list (K * Z) :=
  match l with
  | [] => [x]
  | y :: l' => if snd y <=? snd x then x :: l else y :: insere_total x l'
  end.

Definition ORDER_BY_total_DESC (l : list (K * Z)) : list (K * Z) :=
  fold_right insere_total [] l.
End Agrupamento.

(* ================================================================== *)
(** * Operations: state threaded through code that may raise *)

Definition Op (S A : Type) : Type := S -> desfecho A * S.

Definition ret {S A : Type} (a : A) : Op S A := fun s => (Retorna a, s).

Definition bind {S A B : Type} (m : Op S A) (k : A -> Op S B) : Op S B :=
  fun s =>
    match m s with
    | (Retorna a, s') => k a s'
    | (Levanta e, s') => (Levanta e, s')
    end.

(** A computation that reads no state. *)
Definition puro {S A : Type} (d : desfecho A) : Op S A := fun s => (d, s).

Definition modifica {S : Type} (f : S -> S) : Op S unit :=
  fun s => (Retorna tt, f s).

Definition le {S : Type} : Op S S := fun s => (Retorna s, s).

Declare Scope op_scope.
Delimit Scope op_scope with op.
Notation "x <- m ;; k" := (bind m (fun x => k))
  (at level 61, m at next level, right associativity) : op_scope.
Notation "m ;;; k" := (bind m (fun _ => k))
  (at level 61, right associativity) : op_scope.

(** [s.endswith(suf)] *)
Definition endswith (s suf : string) : bool :=
  (String.length suf <=? String.length s)%nat &&
  String.eqb
    (substring (String.length s - String.length suf) (String.length suf) s)
    suf.

(** The header both variants write. *)
Definition cabecalho : list string :=
  ["ID"; "Título"; "Autor"; "Ano de Publicação"; "Preço"]%string.

(** One row of the table as [csv.writer] writes it: [str] of the
    integers, [repr] of the price, text as it is. *)
Definition linha_csv {amb : Ambiente} (l : livro) : list string :=
  [py_str_int (id l); titulo l; autor l; py_str_int (ano_publicacao l);
   py_repr_float (preco l)].

(** The rows handed to [writer.writerow] and [writer.writerows]. *)
Definition linhas_csv {amb : Ambiente} (b : banco) : list (list string) :=
  cabecalho :: map linha_csv (livros b).

(** ** The text of a CSV file

    [csv.writer] in the dialect [excel]: fields are joined by commas, a
    field is put between double quotes when it holds a comma, a double
    quote, a carriage return or a line feed (a double quote inside is
    written twice), and every row ends with carriage return and line
    feed. *)
Definition aspas : ascii := "034"%char.
Definition CR : ascii := "013"%char.
Definition LF : ascii := "010"%char.
Definition virgula : ascii := ","%char.

Definition especial (c : ascii) : bool :=
  Ascii.eqb c virgula || Ascii.eqb c aspas || Ascii.eqb c CR || Ascii.eqb c LF.

Fixpoint tem_especial (s : string) : bool :=
  match s with
  | EmptyString => false
  | String c s' => especial c || tem_especial s'
  end.

Fixpoint duplica_aspas (s : string) : string :=
  match s with
  | EmptyString => EmptyString
  | String c s' =>
      if Ascii.eqb c aspas
      then String aspas (String aspas (duplica_aspas s'))
      else String c (duplica_aspas s')
  end.

Definition escreve_campo (s : string) : string :=
  if tem_especial s
  then String aspas (duplica_aspas s ++ String aspas EmptyString)
  else s.

Fixpoint junta_campos (fs : list string) : string :=
  match fs with
  | [] => EmptyString
  | [f] => f
  | f :: fs' => (f ++ String virgula (junta_campos fs'))%string
  end.

(** [writer.writerow(row)]; a row of one empty field is written as two
    double quotes. *)
Definition escreve_linha (row : list string) : string :=
  (match row with
   | [EmptyString] => String aspas (String aspas EmptyString)
   | _ => junta_campos (map escreve_campo row)
   end ++ String CR (String LF EmptyString))%string.

(** The content of a file written through a writer on
    [open(..., 'w', newline='')]: the text of the rows, unchanged. *)
Definition escreve_csv (rows : list (list string)) : string :=
  fold_right (fun row resto => (escreve_linha row ++ resto)%string)
    EmptyString rows.

(** A file read through [open(..., 'r')], where [newline] is left at its
    default: a carriage return, alone or before a line feed, reaches the
    program as a line feed. *)
Fixpoint universal_newlines (s : string) : string :=
  match s with
  | EmptyString => EmptyString
  | String c s' =>
      if Ascii.eqb c CR then
        String LF
          match s' with
          | String d s'' =>
              if Ascii.eqb d LF then universal_newlines s''
              else universal_newlines s'
          | EmptyString => EmptyString
          end
      else String c (universal_newlines s')
  end.

(** The lines the file object yields: each ends with its line feed, but
    for a last line that has none. *)
Fixpoint linhas_de (s : string) : list string :=
  match s with
  | EmptyString => []
  | String c s' =>
      if Ascii.eqb c LF then String c EmptyString :: linhas_de s'
      else
        match linhas_de s' with
        | [] => [String c EmptyString]
        | l :: ls => String c l :: ls
        end
  end.

(** [csv.reader] in the dialect [excel] (not strict, [doublequote] on, no
    escape character): the state machine of the parser, fed the
    characters of each line and then the end of the line. The file is
    decoded before the reader sees it, so the reader counts characters,
    not bytes: a byte that continues a UTF-8 character is added to the
    field without being counted. *)
Inductive estado_leitor : Type :=
| START_RECORD
| START_FIELD
| IN_FIELD
| IN_QUOTED_FIELD
| QUOTE_IN_QUOTED_FIELD
| EAT_CRNL.

Record leitor : Type := mk_leitor {
  estado : estado_leitor;
  field : string;              (* the field being read *)
  fields : list string         (* the fields of the record so far *)
}.

Definition leitor_inicial : leitor := mk_leitor START_RECORD EmptyString [].

(** [csv.field_size_limit()], which the program does not change. *)
Definition field_limit : Z := 131072.

(** Whether the bytes are UTF-8 text, as the codec [utf-8] decodes it:
    one byte below [0x80], or a leading byte and the continuation bytes
    it calls for, without overlong forms, surrogates or code points
    above [U+10FFFF]. [seguintes] gives the ranges of the bytes still to
    come of the character being read. *)
Definition entre (lo hi : N) (c : ascii) : bool :=
  ((lo <=? N_of_ascii c) && (N_of_ascii c <=? hi))%N.

Fixpoint utf8_de (seguintes : list (N * N)) (s : string) : bool :=
  match s with
  | EmptyString => match seguintes with [] => true | _ => false end
  | String c s' =>
      match seguintes with
      | (lo, hi) :: resto => entre lo hi c && utf8_de resto s'
      | [] =>
          if entre 0 127 c then utf8_de [] s'
          else if entre 194 223 c then utf8_de [(128, 191)] s'
          else if entre 224 224 c then utf8_de [(160, 191); (128, 191)] s'
          else if entre 225 236 c then utf8_de [(128, 191); (128, 191)] s'
          else if entre 237 237 c then utf8_de [(128, 159); (128, 191)] s'
          else if entre 238 239 c then utf8_de [(128, 191); (128, 191)] s'
          else if entre 240 240 c
          then utf8_de [(144, 191); (128, 191); (128, 191)] s'
          else if entre 241 243 c
          then utf8_de [(128, 191); (128, 191); (128, 191)] s'
          else if entre 244 244 c
          then utf8_de [(128, 143); (128, 191); (128, 191)] s'
          else false
      end
  end%N.

Definition utf8 (s : string) : bool := utf8_de [] s.

(** The number of characters of a UTF-8 text: its bytes, less those that
    continue a character. *)
Fixpoint len (s : string) : Z :=
  match s with
  | EmptyString => 0
  | String c s' => (if byte_continuacao c then 0 else 1) + len s'
  end.

(** [field_len] of the reader. *)
Definition field_len (l : leitor) : Z := len (field l).

(** [parse_add_char]: the character is refused, with [csv.Error], when
    the field already holds [field_limit] characters. *)
Definition parse_add_char (c : ascii) (e : estado_leitor) (l : leitor)
  : option leitor :=
  if negb (byte_continuacao c) && (field_limit <=? field_len l)
  then None
  else Some (mk_leitor e (field l ++ String c EmptyString) (fields l)).

Definition parse_save_field (e : estado_leitor) (l : leitor) : leitor :=
  mk_leitor e EmptyString (fields l ++ [field l]).

Definition passa_a (e : estado_leitor) (l : leitor) : leitor :=
  mk_leitor e (field l) (fields l).

Definition fim_de_linha (c : ascii) : bool := Ascii.eqb c LF || Ascii.eqb c CR.

(** The state [START_FIELD] on a character; [START_RECORD] falls through
    to it on any character that is not a line end. *)
Definition em_START_FIELD (c : option ascii) (l : leitor) : option leitor :=
  match c with
  | None => Some (parse_save_field START_RECORD l)
  | Some x =>
      if fim_de_linha x then Some (parse_save_field EAT_CRNL l)
      else if Ascii.eqb x aspas then Some (passa_a IN_QUOTED_FIELD l)
      else if Ascii.eqb x virgula then Some (parse_save_field START_FIELD l)
      else parse_add_char x IN_FIELD l
  end.

(** [parse_process_char]; [None] is the end of the line, and the result
    [None] is [csv.Error]: a field over the limit, or a character other
    than a line end after a carriage return that ended a record. *)
Definition parse_process_char (c : option ascii) (l : leitor) : option leitor :=
  match estado l with
  | START_RECORD =>
      match c with
      | None => Some l
      | Some x =>
          if fim_de_linha x then Some (passa_a EAT_CRNL l)
          else em_START_FIELD c l
      end
  | START_FIELD => em_START_FIELD c l
  | IN_FIELD =>
      match c with
      | None => Some (parse_save_field START_RECORD l)
      | Some x =>
          if fim_de_linha x then Some (parse_save_field EAT_CRNL l)
          else if Ascii.eqb x virgula then Some (parse_save_field START_FIELD l)
          else parse_add_char x IN_FIELD l
      end
  | IN_QUOTED_FIELD =>
      match c with
      | None => Some l
      | Some x =>
          if Ascii.eqb x aspas then Some (passa_a QUOTE_IN_QUOTED_FIELD l)
          else parse_add_char x IN_QUOTED_FIELD l
      end
  | QUOTE_IN_QUOTED_FIELD =>
      match c with
      | None => Some (parse_save_field START_RECORD l)
      | Some x =>
          if Ascii.eqb x aspas then parse_add_char x IN_QUOTED_FIELD l
          else if Ascii.eqb x virgula then Some (parse_save_field START_FIELD l)
          else if fim_de_linha x then Some (parse_save_field EAT_CRNL l)
          else parse_add_char x IN_FIELD l
      end
  | EAT_CRNL =>
      match c with
      | None => Some (passa_a START_RECORD l)
      | Some x => if fim_de_linha x then Some l else None
      end
  end.

(** One line: its characters, then the end of the line. *)
Fixpoint processa_linha (linha : string) (l : leitor) : option leitor :=
  match linha with
  | EmptyString => parse_process_char None l
  | String c linha' =>
      match parse_process_char (Some c) l with
      | Some l' => processa_linha linha' l'
      | None => None
      end
  end.

(** The records the reader yields, and whether the iteration ended in
    [csv.Error] instead of at the end of the input. A record is complete
    when a line leaves the parser in [START_RECORD]; input that ends
    inside a quoted field yields what was read. *)
Fixpoint csv_reader_de (l : leitor) (linhas : list string)
  : list (list string) * bool :=
  match linhas with
  | [] =>
      if negb (String.eqb (field l) EmptyString)
         || match estado l with IN_QUOTED_FIELD => true | _ => false end
      then ([fields l ++ [field l]], false)
      else ([], false)
  | linha :: resto =>
      match processa_linha linha l with
      | None => ([], true)
      | Some l' =>
          match estado l' with
          | START_RECORD =>
              let (rs, e) := csv_reader_de leitor_inicial resto in
              (fields l' :: rs, e)
          | _ => csv_reader_de l' resto
          end
      end
  end.

Definition csv_reader (linhas : list string) : list (list string) * bool :=
  csv_reader_de leitor_inicial linhas.

(** [csv.reader(open(caminho, 'r', encoding='utf-8'))] on a file of the
    given content, which is taken to be UTF-8 text: on other bytes the
    file object raises [UnicodeDecodeError], which the model leaves
    out. A NUL character is read as any other, as the reader does since
    Python 3.11. *)
Definition le_csv (conteudo : string) : list (list string) * bool :=
  csv_reader (linhas_de (universal_newlines conteudo)).

(** ** The reader on a whole text

    For the proofs about what the reader makes of what the writer wrote,
    the reader is also given character by character on a text whose lines
    all end with a line feed ([le_de]); [csv_reader_de_le_de] shows that
    it yields what [csv_reader_de] yields on the lines of the text. *)
(** Whether a carriage return, or a line feed, occurs in a text. *)
Fixpoint tem_CR (s : string) : bool :=
  match s with
  | EmptyString => false
  | String c s' => Ascii.eqb c CR || tem_CR s'
  end.

Fixpoint tem_LF (s : string) : bool :=
  match s with
  | EmptyString => false
  | String c s' => Ascii.eqb c LF || tem_LF s'
  end.

(** The characters of part of a line, without its end. *)
Fixpoint processa_chars (cs : string) (l : leitor) : option leitor :=
  match cs with
  | EmptyString => Some l
  | String c cs' =>
      match parse_process_char (Some c) l with
      | Some l' => processa_chars cs' l'
      | None => None
      end
  end.

(** Every line of the text ends with a line feed. *)
Fixpoint linhas_completas (s : string) : bool :=
  match s with
  | EmptyString => true
  | String c EmptyString => Ascii.eqb c LF
  | String _ s' => linhas_completas s'
  end.

(** The reader on a text of complete lines, character by character: the
    end of a line follows each line feed. *)
Fixpoint le_de (l : leitor) (s : string) : list (list string) * bool :=
  match s with
  | EmptyString => csv_reader_de l []
  | String c s' =>
      match parse_process_char (Some c) l with
      | None => ([], true)
      | Some l1 =>
          if Ascii.eqb c LF then
            match parse_process_char None l1 with
            | None => ([], true)
            | Some l2 =>
                match estado l2 with
                | START_RECORD =>
                    let (rs, e) := le_de leitor_inicial s' in
                    (fields l2 :: rs, e)
                | _ => le_de l2 s'
                end
            end
          else le_de l1 s'
      end
  end.

(** The text of a row without its line end. *)
Definition texto_linha (row : list string) : string :=
  match row with
  | [EmptyString] => String aspas (String aspas EmptyString)
  | _ => junta_campos (map escreve_campo row)
  end.

(** A reader about to read a field. *)
Definition no_inicio (l : leitor) : Prop :=
  (estado l = START_FIELD \/ estado l = START_RECORD)
  /\ field l = EmptyString.

(** The rows as the program reads them back: every line ends with a line
    feed. *)
Definition texto_LF (rows : list (list string)) : string :=
  fold_right (fun row resto => (texto_linha row ++ String LF resto)%string)
    EmptyString rows.

(** The four fields of a book that a CSV row carries over; the id is
    assigned anew on import. *)
Definition campos (l : livro) : string * string * Z * float :=
  (titulo l, autor l, ano_publicacao l, preco l).

(** The rows [ls] as [INSERT] numbers them, one after the other, from the
    counter [seq]. *)
Fixpoint renumera (seq : Z) (ls : list livro) : list livro :=
  match ls with
  | [] => []
  | l :: ls' =>
      mk_livro (seq + 1) (titulo l) (autor l) (ano_publicacao l) (preco l)
        :: renumera (seq + 1) ls'
  end.

(** What makes a stored book come back from its CSV row: [int] reads what
    [str] wrote, and [float] reads what [repr] wrote. *)
Definition relido {amb : Ambiente} (l : livro) : Prop :=
  py_int_str (py_str_int (ano_publicacao l)) = Some (ano_publicacao l)
  /\ py_float_str (py_repr_float (preco l)) = Some (preco l).

(** A book whose CSV row holds no carriage return: none in its title, its
    author or the text of its price ([str] of an integer has none). *)
Definition sem_retorno_de_carro {amb : Ambiente} (l : livro) : Prop :=
  tem_CR (titulo l) = false
  /\ tem_CR (autor l) = false
  /\ tem_CR (py_repr_float (preco l)) = false.

(** Whether a NUL character occurs in a text. *)
Fixpoint tem_NUL (s : string) : bool :=
  match s with
  | EmptyString => false
  | String c s' => Ascii.eqb c Ascii.zero || tem_NUL s'
  end.

(** A field the reader takes whole: UTF-8 text of at most [field_limit]
    characters, none of them NUL (which the reader refuses in Python 3.10
    and before, and reads as any other character since). *)
Definition campo_legivel (f : string) : Prop :=
  utf8 f = true /\ tem_NUL f = false /\ len f <= field_limit.

(** A book whose CSV row the reader accepts: each of its five fields is
    one the reader takes whole. *)
Definition dentro_do_limite {amb : Ambiente} (l : livro) : Prop :=
  Forall campo_legivel (linha_csv l).

(** A book as §3 of the specification wants it, at the time [r]; the
    price is a number, as [NOT NULL] guarantees of a stored one. *)
Definition livro_valido (r : relogio) (l : livro) : Prop :=
  0 <= ano_publicacao l <= ano_atual r
  /\ (preco l <? 0)%float = false
  /\ is_nan (preco l) = false.

(* ================================================================== *)
(** * The HTTP variant ([app.py]) *)

Module Web.

(** An entry of the list [erros] of the import: the three shapes of
    message, each of which starts with [f"Linha {idx}: "]. *)
Inductive erro_linha : Type :=
| AnoInvalido (idx : Z) (ano : Z)
| PrecoInvalido (idx : Z) (p : float)
| ErroExcecao (idx : Z) (e : excecao).

Definition linha_do_erro (e : erro_linha) : Z :=
  match e with
  | AnoInvalido idx _ | PrecoInvalido idx _ | ErroExcecao idx _ => idx
  end.

(** What a handler answers with: the JSON body (or the file sent) and
    the status code. *)
Inductive corpo : Type :=
| CErro (erro : string)
| CExcecao (e : excecao)
| CMensagem (mensagem : string)
| CLivroCriado (i : Z) (t a : valor) (ano : Z) (p : float)
| CLivros (l : list livro)
| CArquivoCsv (texto : string)
| CImportacao (importados : Z) (erros : list erro_linha)
| CRelatorio (total_livros autores_unicos : Z)
    (valor_total preco_medio : float) (catalogo : list livro)
| CEstatisticas (livros_por_autor : list (string * Z))
    (livros_por_decada : list (Z * Z))
    (distribuicao_precos : list (string * Z)).

Record resposta : Type := mk_resposta {
  status : Z;
  corpo_json : corpo
}.

(** [try: ... except Exception as e: return jsonify({'erro': str(e)}), 400] *)
Definition tenta (m : Op sistema resposta) (s : sistema)
  : resposta * sistema :=
  match m s with
  | (Retorna resp, s') => (resp, s')
  | (Levanta e, s') => (mk_resposta 400 (CExcecao e), s')
  end.

Section Handlers.
Context {amb : Ambiente}.
Local Open Scope op_scope.

(** GET /api/livros *)
Definition listar_livros (s : sistema) : resposta :=
  mk_resposta 200 (CLivros (livros (db s))).

(** POST /api/livros *)
Definition adicionar_livro (r : relogio) (dados : valor)
  : sistema -> resposta * sistema :=
  tenta (
    titulo <- puro (subscript dados "titulo") ;;
    autor <- puro (subscript dados "autor") ;;
    v_ano <- puro (subscript dados "ano_publicacao") ;;
    ano_publicacao <- puro (py_int v_ano) ;;
    v_preco <- puro (subscript dados "preco") ;;
    preco <- puro (py_float v_preco) ;;
    if (ano_publicacao <? 0) || (ano_atual r <? ano_publicacao) then
      ret (mk_resposta 400 (CErro "Ano de publicação inválido"))
    else if (preco <? 0)%float then
      ret (mk_resposta 400 (CErro "Preço não pode ser negativo"))
    else
      modifica (fazer_backup r) ;;;
      s <- le ;;
      ib <- puro (INSERT_valores titulo autor ano_publicacao preco (db s)) ;;
      modifica (commit r (snd ib)) ;;;
      ret (mk_resposta 201
             (CLivroCriado (fst ib) titulo autor ano_publicacao preco))).

(** PUT /api/livros/<int:id> *)
Definition atualizar_preco (r : relogio) (id : Z) (dados : valor)
  : sistema -> resposta * sistema :=
  tenta (
    v_preco <- puro (subscript dados "preco") ;;
    novo_preco <- puro (py_float v_preco) ;;
    if (novo_preco <? 0)%float then
      ret (mk_resposta 400 (CErro "Preço não pode ser negativo"))
    else
      modifica (fazer_backup r) ;;;
      s <- le ;;
      if negb (cabe_int64 id) then puro (Levanta OverflowError)
      else
        match SELECT_id id (db s) with
        | None => ret (mk_resposta 404 (CErro "Livro não encontrado"))
        | Some _ =>
            b <- puro (UPDATE_preco novo_preco id (db s)) ;;
            modifica (commit r b) ;;;
            ret (mk_resposta 200 (CMensagem "Preço atualizado com sucesso!"))
        end).

(** DELETE /api/livros/<int:id> *)
Definition remover_livro (r : relogio) (id : Z)
  : sistema -> resposta * sistema :=
  tenta (
    modifica (fazer_backup r) ;;;
    s <- le ;;
    if negb (cabe_int64 id) then puro (Levanta OverflowError)
    else
      match SELECT_id id (db s) with
      | None => ret (mk_resposta 404 (CErro "Livro não encontrado"))
      | Some _ =>
          modifica (commit r (DELETE_id id (db s))) ;;;
          ret (mk_resposta 200 (CMensagem "Livro removido com sucesso!"))
      end).

(** GET /api/livros/buscar/<autor>. The handler catches nothing: an
    exception of the query is answered 500 by the framework. *)
Definition buscar_por_autor (autor : string) (s : sistema) : resposta :=
  match SELECT_autor_LIKE autor (db s) with
  | Retorna encontrados => mk_resposta 200 (CLivros encontrados)
  | Levanta e => mk_resposta 500 (CExcecao e)
  end.

(** GET /api/exportar-csv *)
Definition exportar_csv (s : sistema) : resposta :=
  match livros (db s) with
  | [] => mk_resposta 400 (CErro "Nenhum livro para exportar")
  | _ :: _ => mk_resposta 200 (CArquivoCsv (escreve_csv (linhas_csv (db s))))
  end.

(** POST /api/backup *)
Definition criar_backup (r : relogio) (s : sistema) : resposta * sistema :=
  (mk_resposta 200 (CMensagem "Backup criado com sucesso!"),
   fazer_backup r s).

(** The uploaded part [request.files['file']]: its name and the content
    saved under [uploads/]. *)
Record envio : Type := mk_envio {
  filename : string;
  texto : string
}.

(** The state of the loop of the import: the table inside the open
    transaction, the counter and the list of errors. *)
Record acumulado : Type := mk_acumulado {
  transacao : banco;
  importados : Z;
  erros : list erro_linha
}.

Definition com_erro (e : erro_linha) (a : acumulado) : acumulado :=
  {| transacao := transacao a;
     importados := importados a;
     erros := erros a ++ [e] |}.

(** The body of [for idx, row in enumerate(reader, start=2)]. *)
Definition importa_linha (r : relogio) (idx : Z) (row : list string)
    (a : acumulado) : desfecho acumulado :=
  if (5 <=? List.length row)%nat then
    match row with
    | [_; titulo; autor; ano; preco] =>
        match py_int_str ano with
        | None => Retorna (com_erro (ErroExcecao idx ValueError) a)
        | Some ano =>
            match py_float_str preco with
            | None => Retorna (com_erro (ErroExcecao idx ValueError) a)
            | Some preco =>
                if (ano <? 0) || (ano_atual r <? ano) then
                  Retorna (com_erro (AnoInvalido idx ano) a)
                else if (preco <? 0)%float then
                  Retorna (com_erro (PrecoInvalido idx preco) a)
                else
                  match INSERT titulo autor ano preco (transacao a) with
                  | Retorna (_, b) =>
                      Retorna {| transacao := b;
                                 importados := importados a + 1;
                                 erros := erros a |}
                  | Levanta e =>
                      if e_ValueError e || e_sqlite3_Error e
                      then Retorna (com_erro (ErroExcecao idx e) a)
                      else Levanta e
                  end
            end
        end
    | _ =>
        (* more than five fields: the unpacking raises ValueError *)
        Retorna (com_erro (ErroExcecao idx ValueError) a)
    end
  else Retorna a.

Fixpoint importa_linhas (r : relogio) (idx : Z) (rows : list (list string))
    (a : acumulado) : desfecho acumulado :=
  match rows with
  | [] => Retorna a
  | row :: rows' =>
      match importa_linha r idx row a with
      | Retorna a' => importa_linhas r (idx + 1) rows' a'
      | Levanta e => Levanta e
      end
  end.

(** [conn.commit()] after the loop: the file is written when a row
    was inserted. *)
Definition commit_importacao (r : relogio) (a : acumulado) (s : sistema)
  : sistema :=
  if 0 <? importados a then commit r (transacao a) s else s.

(** POST /api/importar-csv *)
Definition importar_csv (r : relogio) (file : option envio)
  : sistema -> resposta * sistema :=
  tenta (
    match file with
    | None => ret (mk_resposta 400 (CErro "Nenhum arquivo enviado"))
    | Some f =>
        if String.eqb (filename f) "" then
          ret (mk_resposta 400 (CErro "Nenhum arquivo selecionado"))
        else if negb (endswith (filename f) ".csv") then
          ret (mk_resposta 400 (CErro "Apenas arquivos CSV são permitidos"))
        else
          modifica (fazer_backup r) ;;;
          s <- le ;;
          let (rows, erro_csv) := le_csv (texto f) in
          match rows with
          | [] =>                                  (* next(reader) *)
              puro (Levanta (if erro_csv then CsvError else StopIteration))
          | _ :: dados =>
              a <- puro (importa_linhas r 2 dados
                           (mk_acumulado (db s) 0 [])) ;;
              if erro_csv then puro (Levanta CsvError)
              else
                modifica (commit_importacao r a) ;;;
                ret (mk_resposta 200 (CImportacao (importados a) (erros a)))
          end
    end).

(** [float(n)] for a count of rows. *)
Definition total_float (n : Z) : float :=
  match float_de_Z n with
  | Retorna f => f
  | Levanta _ => infinity
  end.

(** GET /api/relatorio-html: the figures and the catalogue the page
    is rendered from. [sum] starts from the integer 0. *)
Definition gerar_relatorio_html (s : sistema) : resposta :=
  match ORDER_BY_titulo (livros (db s)) with
  | [] => mk_resposta 400 (CErro "Nenhum livro para gerar relatório")
  | catalogo =>
      let total_livros := Z.of_nat (List.length catalogo) in
      let autores_unicos :=
        Z.of_nat (List.length (nodup string_dec (map autor catalogo))) in
      let valor_total :=
        fold_left (fun acc l => (acc + preco l)%float) catalogo 0%float in
      let preco_medio := (valor_total / total_float total_livros)%float in
      mk_resposta 200
        (CRelatorio total_livros autores_unicos valor_total preco_medio
           catalogo)
  end.

(** The [CASE] of the third query of [obter_estatisticas]. *)
Definition faixa (p : float) : string :=
  if (p <? 20)%float then "Até R$ 20"
  else if (p <? 50)%float then "R$ 20-50"
  else if (p <? 100)%float then "R$ 50-100"
  else "Acima de R$ 100".

(** GET /api/estatisticas *)
Definition obter_estatisticas (s : sistema) : resposta :=
  let ls := livros (db s) in
  let livros_por_autor :=
    firstn 10
      (ORDER_BY_total_DESC
         (GROUP_BY_COUNT String.leb String.eqb (map autor ls))) in
  let livros_por_decada :=
    GROUP_BY_COUNT Z.leb Z.eqb
      (map (fun l => Z.quot (ano_publicacao l) 10 * 10) ls) in
  let distribuicao_precos :=
    GROUP_BY_COUNT String.leb String.eqb
      (map (fun l => faixa (preco l)) ls) in
  mk_resposta 200
    (CEstatisticas livros_por_autor livros_por_decada distribuicao_precos).

(** The requests that change the table, and a server answering a list of
    them, each at its clock. *)
Inductive pedido : Type :=
| POST_livros (dados : valor)
| PUT_livros (id : Z) (dados : valor)
| DELETE_livros (id : Z)
| POST_importar_csv (file : option envio).

Definition atende (r : relogio) (p : pedido) : sistema -> resposta * sistema :=
  match p with
  | POST_livros dados => adicionar_livro r dados
  | PUT_livros id dados => atualizar_preco r id dados
  | DELETE_livros id => remover_livro r id
  | POST_importar_csv file => importar_csv r file
  end.

Fixpoint atende_todos (ps : list (relogio * pedido)) (s : sistema)
  : list resposta * sistema :=
  match ps with
  | [] => ([], s)
  | rp :: ps' =>
      let (resp, s1) := atende (fst rp) (snd rp) s in
      let (resps, s2) := atende_todos ps' s1 in
      (resp :: resps, s2)
  end.

End Handlers.

(** The answer to a request that did change the table: a book created, a
    price updated or a book removed, or an import of at least one row. *)
Definition mutou (resp : resposta) : bool :=
  match corpo_json resp with
  | CLivroCriado _ _ _ _ _ => status resp =? 201
  | CMensagem _ => status resp =? 200
  | CImportacao n _ => (status resp =? 200) && (0 <? n)
  | _ => false
  end.

(** Reading a figure off an answer. *)
Definition distribuicao_precos_de (resp : resposta) : list (string * Z) :=
  match corpo_json resp with
  | CEstatisticas _ _ d => d
  | _ => []
  end.

Definition preco_medio_de (resp : resposta) : option float :=
  match corpo_json resp with
  | CRelatorio _ _ _ m _ => Some m
  | _ => None
  end.

Definition valor_total_de (resp : resposta) : option float :=
  match corpo_json resp with
  | CRelatorio _ _ v _ _ => Some v
  | _ => None
  end.

Definition livros_de (resp : resposta) : list livro :=
  match corpo_json resp with
  | CLivros l => l
  | _ => []
  end.

End Web.

(* ================================================================== *)
(** * The command-line variant ([sistema_livraria.py]) *)

Module Cli.

(** The lines the methods print. *)
Inductive mensagem : Type :=
| MBackupCriado (carimbo : Z)
| MBackupAntigoRemovido (carimbo : Z)
| MAnoPublicacaoInvalido
| MPrecoNegativo
| MAnoOuPrecoInvalido
| MPrecoInvalido
| MLivroAdicionado (titulo : string)
| MLivroNaoEncontrado (id_livro : string)
| MPrecoAtualizado (titulo : string) (novo_preco : float)
| MLivroRemovido (titulo : string)
| MNenhumLivroDoAutor (autor : string)
| MLivrosDoAutor (autor : string) (encontrados : list livro)
| MNenhumLivroParaExportar
| MExportados (n : Z)
| MArquivoNaoEncontrado
| MErroAoImportarLinha (row : list string) (e : excecao)
| MImportados (n : Z)
| MCamposObrigatorios.

(** The lines that report an input refused by validation. *)
Definition erro_de_validacao (m : mensagem) : bool :=
  match m with
  | MAnoPublicacaoInvalido | MPrecoNegativo | MAnoOuPrecoInvalido
  | MPrecoInvalido => true
  | _ => false
  end.

(** The files and what has been printed so far. *)
Record terminal : Type := mk_terminal {
  arquivos : sistema;
  saida : list mensagem
}.

Definition print (m : mensagem) : Op terminal unit :=
  modifica (fun t => mk_terminal (arquivos t) (saida t ++ [m])).

Definition nos_arquivos (f : sistema -> sistema) : Op terminal unit :=
  modifica (fun t => mk_terminal (f (arquivos t)) (saida t)).

Section Metodos.
Context {amb : Ambiente}.
Local Open Scope op_scope.

(** [_fazer_backup] with [_limpar_backups_antigos]: the copy, its
    line, then one line per file removed. *)
Definition _fazer_backup (r : relogio) : Op terminal unit :=
  modifica (fun t =>
    let s := arquivos t in
    mk_terminal (fazer_backup r s)
      (saida t
         ++ [MBackupCriado (segundo (agora r))]
         ++ map (fun b => MBackupAntigoRemovido (carimbo b))
              (backups_excedentes
                 (copy2 (novo_backup r s) (backups s))))).

Definition adicionar_livro (r : relogio)
    (titulo autor ano_publicacao preco : string) : Op terminal bool :=
  match py_int_str ano_publicacao with
  | None => print MAnoOuPrecoInvalido ;;; ret false
  | Some ano =>
      match py_float_str preco with
      | None => print MAnoOuPrecoInvalido ;;; ret false
      | Some p =>
          if (ano <? 0) || (ano_atual r <? ano) then
            print MAnoPublicacaoInvalido ;;; ret false
          else if (p <? 0)%float then
            print MPrecoNegativo ;;; ret false
          else
            _fazer_backup r ;;;
            t <- le ;;
            ib <- puro (INSERT titulo autor ano p (db (arquivos t))) ;;
            nos_arquivos (commit r (snd ib)) ;;;
            print (MLivroAdicionado titulo) ;;;
            ret true
      end
  end.

Definition atualizar_preco (r : relogio) (id_livro novo_preco : string)
  : Op terminal bool :=
  match py_float_str novo_preco with
  | None => print MPrecoInvalido ;;; ret false
  | Some p =>
      if (p <? 0)%float then print MPrecoNegativo ;;; ret false
      else
        _fazer_backup r ;;;
        t <- le ;;
        match
          match sqlite_text_int id_livro with
          | Some i => option_map (fun l => (i, l)) (SELECT_id i (db (arquivos t)))
          | None => None
          end
        with
        | None => print (MLivroNaoEncontrado id_livro) ;;; ret false
        | Some (i, l) =>
            b <- puro (UPDATE_preco p i (db (arquivos t))) ;;
            nos_arquivos (commit r b) ;;;
            print (MPrecoAtualizado (titulo l) p) ;;;
            ret true
        end
  end.

Definition remover_livro (r : relogio) (id_livro : string)
  : Op terminal bool :=
  _fazer_backup r ;;;
  t <- le ;;
  match
    match sqlite_text_int id_livro with
    | Some i => option_map (fun l => (i, l)) (SELECT_id i (db (arquivos t)))
    | None => None
    end
  with
  | None => print (MLivroNaoEncontrado id_livro) ;;; ret false
  | Some (i, l) =>
      nos_arquivos (commit r (DELETE_id i (db (arquivos t)))) ;;;
      print (MLivroRemovido (titulo l)) ;;;
      ret true
  end.

Definition buscar_por_autor (autor : string) : Op terminal unit :=
  t <- le ;;
  livros <- puro (SELECT_autor_LIKE autor (db (arquivos t))) ;;
  match livros with
  | [] => print (MNenhumLivroDoAutor autor)
  | encontrados => print (MLivrosDoAutor autor encontrados)
  end.

Definition exportar_para_csv : Op terminal bool :=
  t <- le ;;
  match livros (db (arquivos t)) with
  | [] => print MNenhumLivroParaExportar ;;; ret false
  | ls =>
      nos_arquivos (fun s =>
        {| db := db s;
           db_mtime := db_mtime s;
           backups := backups s;
           livros_exportados := Some (escreve_csv (linhas_csv (db s))) |}) ;;;
      print (MExportados (Z.of_nat (List.length ls))) ;;;
      ret true
  end.

(** The state of the loop of the import. *)
Record acumulado : Type := mk_acumulado {
  transacao : banco;
  importados : Z;
  impressos : list mensagem
}.

(** The body of [for row in reader]. *)
Definition importa_linha (row : list string) : Op acumulado unit :=
  fun a =>
  let falha e :=
    (Retorna tt,
     {| transacao := transacao a;
        importados := importados a;
        impressos := impressos a ++ [MErroAoImportarLinha row e] |}) in
  if (5 <=? List.length row)%nat then
    match row with
    | [_; titulo; autor; ano; preco] =>
        match py_int_str ano with
        | None => falha ValueError
        | Some ano =>
            match py_float_str preco with
            | None => falha ValueError
            | Some preco =>
                match INSERT titulo autor ano preco (transacao a) with
                | Retorna (_, b) =>
                    (Retorna tt,
                     {| transacao := b;
                        importados := importados a + 1;
                        impressos := impressos a |})
                | Levanta e =>
                    if e_ValueError e || e_sqlite3_Error e
                    then falha e
                    else (Levanta e, a)
                end
            end
        end
    | _ =>
        (* more than five fields: the unpacking raises ValueError *)
        falha ValueError
    end
  else (Retorna tt, a).

Fixpoint importa_linhas (rows : list (list string)) : Op acumulado unit :=
  match rows with
  | [] => ret tt
  | row :: rows' => importa_linha row ;;; importa_linhas rows'
  end.

(** [importar_de_csv(caminho_csv)]. The argument is [None] for the
    fixed file of the export, or the content of the file at the given
    path ([None] in it when nothing is there). An exception that leaves
    the loop leaves the method: the transaction is never committed, and
    what the loop had printed stays printed. *)
Definition importar_de_csv (r : relogio)
    (caminho_csv : option (option string))
  : Op terminal bool :=
  t0 <- le ;;
  match
    match caminho_csv with
    | None => livros_exportados (arquivos t0)
    | Some texto => texto
    end
  with
  | None => print MArquivoNaoEncontrado ;;; ret false
  | Some texto =>
      _fazer_backup r ;;;
      t <- le ;;
      let (rows, erro_csv) := le_csv texto in
      match rows with
      | [] =>                                  (* next(reader) *)
          puro (Levanta (if erro_csv then CsvError else StopIteration))
      | _ :: dados =>
          let (fim, a) :=
            importa_linhas dados (mk_acumulado (db (arquivos t)) 0 []) in
          modifica (fun t => mk_terminal (arquivos t)
                               (saida t ++ impressos a)) ;;;
          puro fim ;;;
          (if erro_csv then puro (Levanta CsvError) else ret tt) ;;;
          (if 0 <? importados a
           then nos_arquivos (commit r (transacao a))
           else ret tt) ;;;
          print (MImportados (importados a)) ;;;
          ret true
      end
  end.

(** Option 1 of [menu_principal], from the four answers already
    stripped: every field must be non-empty before [adicionar_livro]
    is called. *)
Definition menu_opcao_1 (r : relogio) (titulo autor ano preco : string)
  : Op terminal unit :=
  if negb (String.eqb titulo "") && negb (String.eqb autor "")
     && negb (String.eqb ano "") && negb (String.eqb preco "")
  then adicionar_livro r titulo autor ano preco ;;; ret tt
  else print MCamposObrigatorios.



Record retorno : Type := mk_retorno {
  valor_retornado : desfecho bool;
  linhas : list mensagem
}.


End Metodos.

(** The line of an import that inserted no row. *)
Definition nenhum_importado (m : mensagem) : bool :=
  match m with
  | MImportados n => n <=? 0
  | _ => false
  end.

(** What is left of a call that did change the table: it returned [True]
    and, when it is an import, reported at least one book. *)
Definition mutou (x : retorno) : bool :=
  match valor_retornado x with
  | Retorna true => negb (existsb nenhum_importado (linhas x))
  | _ => false
  end.

End Cli.

(* ================================================================== *)
(** * Runs of mutating operations

    Every operation that changes the table does it the same way: the backup
    is taken from the files as they are, then the transaction is committed
    at the time of the operation. A run is a list of such operations, each
    with its clock and the content it commits. *)
Definition commit_apos_backup (r : relogio) (b : banco) (s : sistema)
  : sistema :=
  commit r b (fazer_backup r s).





(** The order of the sorted listing: most recently modified first. *)
Definition mais_recente (a b : arquivo) : Prop := mtime b <= mtime a.

(* ================================================================== *)
(** * A concrete environment, to run the model on examples

    It reads and writes plain decimal literals: an optional sign and digits
    for [int]; an optional sign, digits and an optional fraction for
    [float], read exactly when the digits make a number below [2^53] with
    at most 22 fraction digits (one correctly rounded division then gives
    the nearest binary64 number). On those texts it agrees with CPython;
    other spellings CPython accepts (blanks around the number, exponents,
    underscores, [inf], [nan]) are outside it and read as [None]. [repr]
    writes the exact decimal expansion, which is what CPython prints for
    the numbers of the examples and reads back as the same number for all
    finite ones. *)
Module Exemplo.
Local Open Scope string_scope.

Definition int_decimal (s : string) : option Z :=
  match s with
  | String "+" s' => option_map Z.of_uint (NilZero.uint_of_string s')
  | String "-" s' =>
      option_map (fun u => - Z.of_uint u) (NilZero.uint_of_string s')
  | _ => option_map Z.of_uint (NilZero.uint_of_string s)
  end.

(** The text before the first point, and the text after it. *)
Fixpoint divide_no_ponto (s : string) : string * option string :=
  match s with
  | EmptyString => (EmptyString, None)
  | String "." s' => (EmptyString, Some s')
  | String c s' =>
      let (a, b) := divide_no_ponto s' in (String c a, b)
  end.

Definition sem_sinal (s : string) : option float :=
  let (inteira, fracao) := divide_no_ponto s in
  let fr := match fracao with Some f => f | None => EmptyString end in
  let digitos := (inteira ++ fr)%string in
  match NilEmpty.uint_of_string digitos with
  | Some u =>
      let m := Z.of_uint u in
      let k := Z.of_nat (String.length fr) in
      if ((0 <? Z.of_nat (String.length digitos)) && (m <? 2 ^ 53)
          && (k <=? 22))%Z
      then
        match float_de_Z m, float_de_Z (10 ^ k) with
        | Retorna fm, Retorna fk => Some (fm / fk)%float
        | _, _ => None
        end
      else None
  | None => None
  end.

Definition float_decimal (s : string) : option float :=
  match s with
  | String "+" s' => sem_sinal s'
  | String "-" s' => option_map PrimFloat.opp (sem_sinal s')
  | _ => sem_sinal s
  end.

(** The [k] digits of [n], most significant first. *)
Fixpoint digitos_fracao (k : nat) (n : Z) : string :=
  match k with
  | O => EmptyString
  | S k' =>
      let p := 10 ^ Z.of_nat k' in
      String (ascii_of_N (48 + Z.to_N (n / p))) (digitos_fracao k' (n mod p))
  end.

(** Trailing zeros go, but one digit stays. *)
Fixpoint sem_zeros_finais (s : string) : string :=
  match s with
  | EmptyString => EmptyString
  | String c s' =>
      match sem_zeros_finais s' with
      | EmptyString => if Ascii.eqb c "0" then EmptyString else String c EmptyString
      | t => String c t
      end
  end.

Definition repr_decimal (f : float) : string :=
  match Prim2SF f with
  | S754_nan => "nan"
  | S754_infinity s => if s then "-inf" else "inf"
  | S754_zero s => if s then "-0.0" else "0.0"
  | S754_finite s m e =>
      let sinal := if s then "-" else "" in
      if (0 <=? e)%Z then
        (sinal ++ py_str_int (Z.pos m * 2 ^ e) ++ ".0")%string
      else
        let k := - e in
        let n := Z.pos m * 5 ^ k in
        let fr := sem_zeros_finais (digitos_fracao (Z.to_nat k) (n mod 10 ^ k)) in
        (sinal ++ py_str_int (n / 10 ^ k) ++ "."
           ++ match fr with EmptyString => "0" | _ => fr end)%string
  end.

Definition decimal : Ambiente := {|
  py_int_str := int_decimal;
  py_float_str := float_decimal;
  py_repr_float := repr_decimal;
  sqlite_real_text := repr_decimal;
  sqlite_text_int := int_decimal
|}.

(** A text file of the given lines, each ended by a line feed. *)
Definition em_linhas (ls : list string) : string :=
  fold_right (fun l resto => l ++ String LF resto) "" ls.

(** A CSV file of one data row under the header of the export. *)
Definition csv_de_uma_linha (linha : string) : string :=
  em_linhas ["ID,Título,Autor,Ano de Publicação,Preço"; linha].

(** A fresh installation at nanosecond 0, and a clock of the year 2025. *)
Definition instalacao : sistema := mk_sistema (mk_banco [] 0) 0 [] None.

Definition em_2025 (t : Z) : relogio := mk_relogio t 2025.

(** Three books priced 10, 30 and 110. *)
Definition loja_10_30_110 : sistema :=
  mk_sistema
    (mk_banco
       [mk_livro 1 "Dom Casmurro" "Machado de Assis" 1899 10;
        mk_livro 2 "Vidas Secas" "Graciliano Ramos" 1938 30;
        mk_livro 3 "Grande Sertão: Veredas" "Guimarães Rosa" 1956 110]
       3)
    1000 [] None.

(** One valid book whose title holds a carriage return. *)
Definition loja_com_CR : sistema :=
  mk_sistema
    (mk_banco [mk_livro 1 (String "a" (String CR "b")) "Autor" 2000 10] 1)
    1000 [] None.


(** A request body for POST /api/livros. *)
Definition pedido (titulo autor : string) (ano : Z) (preco : float) : valor :=
  VDict [("titulo", VStr titulo); ("autor", VStr autor);
         ("ano_publicacao", VInt ano); ("preco", VFloat preco)].

(** Six additions, one per second from second 1 to second 6; and six
    additions within the first second, a nanosecond apart. *)
Definition seis_pedidos : list (relogio * Web.pedido) :=
  map (fun t => (em_2025 (t * 1000000000),
                 Web.POST_livros (pedido "Iracema" "José de Alencar" 1865 25)))
    [1; 2; 3; 4; 5; 6].



End Exemplo.

(* ================================================================== *)
(** * Notions used to state further properties *)

(** ** The table *)

(** The ids of the table as AUTOINCREMENT keeps them: in increasing order,
    none above the counter. *)
Definition ids_em_ordem (b : banco) : Prop :=
  StronglySorted Z.lt (map id (livros b))
  /\ Forall (fun l => id l <= sequencia b) (livros b).

(** The table [b] after the rows [ns] were inserted one after the other
    (the ids of [ns] do not matter: each row takes the next value of the
    counter). *)
Definition com_novos (ns : list livro) (b : banco) : banco :=
  {| livros := livros b ++ renumera (sequencia b) ns;
     sequencia := sequencia b + Z.of_nat (List.length ns) |}.

(** The row [l] with another price. *)
Definition com_preco (p : float) (l : livro) : livro :=
  mk_livro (id l) (titulo l) (autor l) (ano_publicacao l) p.

(** What one request can do to the table: nothing; insert rows that pass
    the validation of the request's time; give the rows of one id a price
    that passes validation; delete the rows of one id. *)
Inductive efeito (r : relogio) (b : banco) : banco -> Prop :=
| efeito_nenhum : efeito r b b
| efeito_insere (ns : list livro) :
    Forall (livro_valido r) ns -> efeito r b (com_novos ns b)
| efeito_atualiza (i : Z) (p : float) :
    (p <? 0)%float = false -> is_nan p = false ->
    efeito r b {| livros := map (fun l => if id l =? i then com_preco p l else l)
                              (livros b);
                  sequencia := sequencia b |}
| efeito_remove (i : Z) : efeito r b (DELETE_id i b).

(** ** The groups of [GROUP BY] *)

(** How many of the keys [ks] equal [k]. *)
Definition ocorrencias {K : Type} (keqb : K -> K -> bool) (k : K)
    (ks : list K) : Z :=
  Z.of_nat (List.length (filter (keqb k) ks)).

(** The count the groups [g] give for the key [k]; 0 when [k] has no row. *)
Definition total_de {K : Type} (keqb : K -> K -> bool) (k : K)
    (g : list (K * Z)) : Z :=
  match find (fun x => keqb k (fst x)) g with
  | Some x => snd x
  | None => 0
  end.

Definition soma_totais {K : Type} (g : list (K * Z)) : Z :=
  fold_right Z.add 0 (map snd g).

(** [a] sorts strictly before [b]. *)
Definition antes {K : Type} (kleb : K -> K -> bool) (a b : K) : Prop :=
  kleb b a = false.

(** Groups in the order of their keys, none of them empty. *)
Definition grupos_ok {K : Type} (kleb : K -> K -> bool) (g : list (K * Z))
  : Prop :=
  StronglySorted (antes kleb) (map fst g) /\ Forall (fun x => 0 < snd x) g.

(** The order of [ORDER BY total DESC]. *)
Definition total_ge {K : Type} (x y : K * Z) : Prop := snd y <= snd x.

(** The key of the second query of [obter_estatisticas]:
    [(ano_publicacao / 10) * 10], an integer division that truncates. *)
Definition decada (l : livro) : Z := Z.quot (ano_publicacao l) 10 * 10.

Definition livros_por_autor_de (resp : Web.resposta) : list (string * Z) :=
  match Web.corpo_json resp with
  | Web.CEstatisticas a _ _ => a
  | _ => []
  end.

Definition livros_por_decada_de (resp : Web.resposta) : list (Z * Z) :=
  match Web.corpo_json resp with
  | Web.CEstatisticas _ d _ => d
  | _ => []
  end.

(** ** Backups *)

(** GET /api/backups: the files the entries of the answer are rendered
    from (name, modification time, size), in the order of the answer:
    [sorted(BACKUPS_DIR.glob(...), key=os.path.getmtime, reverse=True)]. *)
Definition listar_backups (s : sistema) : list arquivo :=
  ordena_desc (backups s).

(** ** The lines of the command-line import *)


(** ** More examples *)

Module Amostras.
Local Open Scope string_scope.

Definition agora_5 : relogio := Exemplo.em_2025 5.

Definition terminal_da_loja : Cli.terminal :=
  Cli.mk_terminal Exemplo.loja_10_30_110 [].

(** The request body of a valid book. *)
Definition iracema : valor := Exemplo.pedido "Iracema" "José de Alencar" 1865 25.

(** Two CSV files of one data row each, which differ in the header and in
    the first column. *)
Definition csv_a : string :=
  Exemplo.em_linhas ["ID,Título,Autor,Ano de Publicação,Preço";
                     "1,Iracema,José de Alencar,1865,25.0"].



End Amostras.

(* ================================================================== *)
(** * Verified properties *)

(** ** The CSV import: rows with fewer than five fields *)

Lemma web_importa_linhas_app {amb : Ambiente} (r : relogio)
    (antes depois : list (list string)) :
  forall (idx : Z) (a : Web.acumulado),
    Web.importa_linhas r idx (antes ++ depois) a =
    match Web.importa_linhas r idx antes a with
    | Retorna a' =>
        Web.importa_linhas r (idx + Z.of_nat (List.length antes)) depois a'
    | Levanta e => Levanta e
    end.
Proof.
  induction antes as [|row antes IH]; intros idx a; simpl.
  - now rewrite Z.add_0_r.
  - destruct (Web.importa_linha r idx row a) as [a'|e]; [|reflexivity].
    rewrite IH. replace (idx + 1 + Z.of_nat (List.length antes))
      with (idx + Z.pos (Pos.of_succ_nat (List.length antes))) by lia.
    reflexivity.
Qed.

Lemma cli_importa_linhas_app {amb : Ambiente} (antes depois : list (list string)) :
  forall (c : Cli.acumulado),
    Cli.importa_linhas (antes ++ depois) c =
    match Cli.importa_linhas antes c with
    | (Retorna _, c') => Cli.importa_linhas depois c'
    | (Levanta e, c') => (Levanta e, c')
    end.
Proof.
  induction antes as [|row antes IH]; intros c; simpl.
  - reflexivity.
  - unfold bind.
    destruct (Cli.importa_linha row c) as [[[]|e] c']; [apply IH|reflexivity].
Qed.

(** C8. A row of fewer than five fields leaves no trace in either variant:
    the loop body returns the table of the transaction, the counter and the
    errors (or printed lines) it was given, and the loop goes on with the
    next row under the next line number; so does the import of a file that
    holds such a row anywhere among its data rows. *)
Theorem linha_curta_ignorada {amb : Ambiente} (r : relogio) (idx : Z)
    (row : list string) (antes depois : list (list string))
    (a : Web.acumulado) (c : Cli.acumulado) :
  (List.length row < 5)%nat ->
  Web.importa_linha r idx row a = Retorna a /\
  Cli.importa_linha row c = (Retorna tt, c) /\
  Web.importa_linhas r idx (antes ++ row :: depois) a =
    match Web.importa_linhas r idx antes a with
    | Retorna a' =>
        Web.importa_linhas r (idx + Z.of_nat (List.length antes) + 1) depois a'
    | Levanta e => Levanta e
    end /\
  Cli.importa_linhas (antes ++ row :: depois) c =
    match Cli.importa_linhas antes c with
    | (Retorna _, c') => Cli.importa_linhas depois c'
    | (Levanta e, c') => (Levanta e, c')
    end.
Proof.
  intros Hcurta.
  assert (Hn : (5 <=? List.length row)%nat = false)
    by (apply Nat.leb_gt; exact Hcurta).
  assert (Hw : forall i a0, Web.importa_linha r i row a0 = Retorna a0)
    by (intros; unfold Web.importa_linha; now rewrite Hn).
  assert (Hc : forall c0, Cli.importa_linha row c0 = (Retorna tt, c0))
    by (intros; unfold Cli.importa_linha; now rewrite Hn).
  repeat split; auto.
  - rewrite web_importa_linhas_app.
    destruct (Web.importa_linhas r idx antes a) as [a'|e]; [|reflexivity].
    simpl. now rewrite Hw.
  - rewrite cli_importa_linhas_app.
    destruct (Cli.importa_linhas antes c) as [[[]|e] c']; [|reflexivity].
    simpl. unfold bind. now rewrite Hc.
Qed.

Lemma linha_curta_ignorada_exemplo :
  (List.length ["7"; "Dom Casmurro"; "Machado de Assis"]%string < 5)%nat /\
  Web.importa_linhas (amb := Exemplo.decimal) (mk_relogio 0 2025) 2
    ([] ++ ["7"; "Dom Casmurro"; "Machado de Assis"]%string :: [])
    (Web.mk_acumulado (mk_banco [] 0) 0 []) =
  Retorna (Web.mk_acumulado (mk_banco [] 0) 0 []).
Proof.
  assert (Hcurta :
    (List.length ["7"; "Dom Casmurro"; "Machado de Assis"]%string < 5)%nat)
    by (simpl; lia).
  split; [exact Hcurta|].
  exact (proj1 (proj2 (proj2
           (@linha_curta_ignorada Exemplo.decimal (mk_relogio 0 2025) 2
              ["7"; "Dom Casmurro"; "Machado de Assis"]%string [] []
              (Web.mk_acumulado (mk_banco [] 0) 0 [])
              (Cli.mk_acumulado (mk_banco [] 0) 0 []) Hcurta)))).
Defined.

(** ** The CSV import: a source with no row at all *)

(** C10. On a source from which the reader yields no row (the empty file
    is one), [next(reader)] raises [StopIteration] after the backup was
    taken. The command-line method lets it propagate to its caller; the
    HTTP handler's [except Exception] turns it into a 400 answer. Neither
    reports an import of zero rows. *)
Theorem csv_sem_linhas_levanta_StopIteration {amb : Ambiente} (r : relogio)
    (t : Cli.terminal) (s : sistema) (nome conteudo : string) :
  le_csv conteudo = ([], false) ->
  String.eqb nome "" = false ->
  endswith nome ".csv" = true ->
  (exists t',
      Cli.importar_de_csv r (Some (Some conteudo)) t =
        (Levanta StopIteration, t')
      /\ Cli.arquivos t' = fazer_backup r (Cli.arquivos t))
  /\ Web.importar_csv r (Some (Web.mk_envio nome conteudo)) s =
       (Web.mk_resposta 400 (Web.CExcecao StopIteration), fazer_backup r s).
Proof.
  intros Hvazio Hnome Hcsv. split.
  - unfold Cli.importar_de_csv, bind, le, Cli._fazer_backup, modifica, puro.
    rewrite Hvazio. eexists. split; reflexivity.
  - unfold Web.importar_csv, Web.tenta. cbn [Web.filename Web.texto].
    rewrite Hnome, Hcsv, Hvazio. reflexivity.
Qed.

Lemma csv_sem_linhas_exemplo :
  Web.importar_csv (amb := Exemplo.decimal) (mk_relogio 0 2025)
    (Some (Web.mk_envio "vazio.csv" ""))
    (mk_sistema (mk_banco [] 0) 0 [] None) =
  (Web.mk_resposta 400 (Web.CExcecao StopIteration),
   fazer_backup (mk_relogio 0 2025) (mk_sistema (mk_banco [] 0) 0 [] None)).
Proof.
  exact (proj2
           (@csv_sem_linhas_levanta_StopIteration Exemplo.decimal
              (mk_relogio 0 2025)
              (Cli.mk_terminal (mk_sistema (mk_banco [] 0) 0 [] None) [])
              (mk_sistema (mk_banco [] 0) 0 [] None) "vazio.csv" ""
              eq_refl eq_refl eq_refl)).
Defined.

(** ** Validation of year and price *)

Lemma ano_fora_do_intervalo (r : relogio) (y : Z) :
  y < 0 \/ ano_atual r < y -> (y <? 0) || (ano_atual r <? y) = true.
Proof.
  intros [Hy|Hy]; apply orb_true_iff; [left|right]; now apply Z.ltb_lt.
Qed.

(** C4. An [adicionar_livro] whose year reads as a negative number or as a
    number above the current year, and an [adicionar_livro] or
    [atualizar_preco] whose price reads as a negative number, is refused in
    both variants (the method returns [False] after one of the validation
    lines; the handler answers 400) and leaves every file as it was: the
    table, and the backups too, since validation runs before the backup. *)
Theorem entrada_invalida_rejeitada {amb : Ambiente} (r : relogio) :
  (forall titulo autor ano preco y t,
      py_int_str ano = Some y -> y < 0 \/ ano_atual r < y ->
      exists m,
        Cli.adicionar_livro r titulo autor ano preco t =
          (Retorna false, Cli.mk_terminal (Cli.arquivos t) (Cli.saida t ++ [m]))
        /\ Cli.erro_de_validacao m = true)
  /\ (forall titulo autor ano preco p t,
      py_float_str preco = Some p -> (p <? 0)%float = true ->
      exists m,
        Cli.adicionar_livro r titulo autor ano preco t =
          (Retorna false, Cli.mk_terminal (Cli.arquivos t) (Cli.saida t ++ [m]))
        /\ Cli.erro_de_validacao m = true)
  /\ (forall id_livro novo_preco p t,
      py_float_str novo_preco = Some p -> (p <? 0)%float = true ->
      Cli.atualizar_preco r id_livro novo_preco t =
        (Retorna false,
         Cli.mk_terminal (Cli.arquivos t) (Cli.saida t ++ [Cli.MPrecoNegativo])))
  /\ (forall dados v y s,
      subscript dados "ano_publicacao" = Retorna v -> py_int v = Retorna y ->
      y < 0 \/ ano_atual r < y ->
      Web.status (fst (Web.adicionar_livro r dados s)) = 400
      /\ snd (Web.adicionar_livro r dados s) = s)
  /\ (forall dados v p s,
      subscript dados "preco" = Retorna v -> py_float v = Retorna p ->
      (p <? 0)%float = true ->
      Web.status (fst (Web.adicionar_livro r dados s)) = 400
      /\ snd (Web.adicionar_livro r dados s) = s)
  /\ (forall id dados v p s,
      subscript dados "preco" = Retorna v -> py_float v = Retorna p ->
      (p <? 0)%float = true ->
      Web.atualizar_preco r id dados s =
        (Web.mk_resposta 400 (Web.CErro "Preço não pode ser negativo"), s)).
Proof.
  repeat apply conj.
  - intros titulo autor ano preco y t Hy Hfora.
    apply ano_fora_do_intervalo in Hfora.
    unfold Cli.adicionar_livro. rewrite Hy.
    destruct (py_float_str preco) as [p|].
    + rewrite Hfora. now exists Cli.MAnoPublicacaoInvalido.
    + now exists Cli.MAnoOuPrecoInvalido.
  - intros titulo autor ano preco p t Hp Hneg.
    unfold Cli.adicionar_livro. rewrite Hp.
    destruct (py_int_str ano) as [y|].
    + destruct ((y <? 0) || (ano_atual r <? y)).
      * now exists Cli.MAnoPublicacaoInvalido.
      * rewrite Hneg. now exists Cli.MPrecoNegativo.
    + now exists Cli.MAnoOuPrecoInvalido.
  - intros id_livro novo_preco p t Hp Hneg.
    unfold Cli.atualizar_preco. now rewrite Hp, Hneg.
  - intros dados v y s Hv Hy Hfora.
    apply ano_fora_do_intervalo in Hfora.
    unfold Web.adicionar_livro, Web.tenta, bind, puro, ret.
    destruct (subscript dados "titulo"); [|now split].
    destruct (subscript dados "autor"); [|now split].
    rewrite Hv, Hy.
    destruct (subscript dados "preco") as [vp|]; [|now split].
    destruct (py_float vp); [|now split].
    rewrite Hfora. now split.
  - intros dados v p s Hv Hp Hneg.
    unfold Web.adicionar_livro, Web.tenta, bind, puro, ret.
    destruct (subscript dados "titulo"); [|now split].
    destruct (subscript dados "autor"); [|now split].
    destruct (subscript dados "ano_publicacao") as [va|]; [|now split].
    destruct (py_int va) as [y|]; [|now split].
    rewrite Hv, Hp.
    destruct ((y <? 0) || (ano_atual r <? y)); [now split|].
    rewrite Hneg. now split.
  - intros id dados v p s Hv Hp Hneg.
    unfold Web.atualizar_preco, Web.tenta, bind, puro, ret.
    now rewrite Hv, Hp, Hneg.
Qed.

Lemma entrada_invalida_exemplo :
  (exists m,
      Cli.adicionar_livro (amb := Exemplo.decimal) (Exemplo.em_2025 5)
        "Neuromancer" "William Gibson" "2084" "39.90"
        (Cli.mk_terminal Exemplo.instalacao []) =
      (Retorna false, Cli.mk_terminal Exemplo.instalacao ([] ++ [m]))
      /\ Cli.erro_de_validacao m = true)
  /\ Web.atualizar_preco (amb := Exemplo.decimal) (Exemplo.em_2025 5) 1
       (VDict [("preco"%string, VStr "-0.5")]) Exemplo.instalacao =
     (Web.mk_resposta 400 (Web.CErro "Preço não pode ser negativo"),
      Exemplo.instalacao).
Proof.
  pose proof (@entrada_invalida_rejeitada Exemplo.decimal (Exemplo.em_2025 5))
    as (Hano & _ & _ & _ & _ & Hpreco).
  split.
  - apply (Hano "Neuromancer" "William Gibson" "2084" "39.90" 2084
             (Cli.mk_terminal Exemplo.instalacao []))%string.
    + reflexivity.
    + right. reflexivity.
  - apply (Hpreco 1 (VDict [("preco"%string, VStr "-0.5")]) (VStr "-0.5")
             (-0.5)%float Exemplo.instalacao); reflexivity.
Defined.

(** ** Operations on an id the table does not hold *)

Lemma SELECT_id_ausente (i : Z) (b : banco) :
  ~ In i (map id (livros b)) -> SELECT_id i b = None.
Proof.
  unfold SELECT_id. induction (livros b) as [|l ls IH]; simpl; intros Hnao.
  - reflexivity.
  - destruct (Z.eqb_spec (id l) i) as [Heq|Hne].
    + exfalso. apply Hnao. now left.
    + apply IH. intros Hin. apply Hnao. now right.
Qed.

Lemma cli_busca_id_ausente {amb : Ambiente} (id_livro : string) (b : banco) :
  (forall i, sqlite_text_int id_livro = Some i -> ~ In i (map id (livros b))) ->
  match sqlite_text_int id_livro with
  | Some i => option_map (fun l => (i, l)) (SELECT_id i b)
  | None => None
  end = None.
Proof.
  intros Hausente. destruct (sqlite_text_int id_livro) as [i|]; [|reflexivity].
  now rewrite (SELECT_id_ausente i b (Hausente i eq_refl)).
Qed.

(** C5, as the code has it. [remover_livro] on an id the table does not
    hold, and [atualizar_preco] on such an id with a price that passes
    validation, answer that the book was not found (404 from the handler;
    [False] after the line "não encontrado" from the method), and the files
    are then exactly what [fazer_backup] leaves: the database, content and
    modification time, is untouched. For the handler the id is one SQLite
    can bind; for the method, which receives the id as text, no integer
    the text stands for is in the table. *)
Theorem id_ausente_nao_encontrado {amb : Ambiente} (r : relogio) :
  (forall i dados v p s,
      subscript dados "preco" = Retorna v -> py_float v = Retorna p ->
      (p <? 0)%float = false ->
      cabe_int64 i = true -> ~ In i (map id (livros (db s))) ->
      Web.atualizar_preco r i dados s =
        (Web.mk_resposta 404 (Web.CErro "Livro não encontrado"),
         fazer_backup r s))
  /\ (forall i s,
      cabe_int64 i = true -> ~ In i (map id (livros (db s))) ->
      Web.remover_livro r i s =
        (Web.mk_resposta 404 (Web.CErro "Livro não encontrado"),
         fazer_backup r s))
  /\ (forall id_livro novo_preco p t,
      py_float_str novo_preco = Some p -> (p <? 0)%float = false ->
      (forall i, sqlite_text_int id_livro = Some i ->
                 ~ In i (map id (livros (db (Cli.arquivos t))))) ->
      exists t',
        Cli.atualizar_preco r id_livro novo_preco t = (Retorna false, t')
        /\ Cli.arquivos t' = fazer_backup r (Cli.arquivos t)
        /\ In (Cli.MLivroNaoEncontrado id_livro) (Cli.saida t'))
  /\ (forall id_livro t,
      (forall i, sqlite_text_int id_livro = Some i ->
                 ~ In i (map id (livros (db (Cli.arquivos t))))) ->
      exists t',
        Cli.remover_livro r id_livro t = (Retorna false, t')
        /\ Cli.arquivos t' = fazer_backup r (Cli.arquivos t)
        /\ In (Cli.MLivroNaoEncontrado id_livro) (Cli.saida t'))
  /\ (forall s,
      db (fazer_backup r s) = db s
      /\ db_mtime (fazer_backup r s) = db_mtime s).
Proof.
  repeat apply conj.
  - intros i dados v p s Hv Hp Hvalido Hcabe Hausente.
    unfold Web.atualizar_preco, Web.tenta, bind, puro, ret, modifica, le.
    rewrite Hv, Hp, Hvalido, Hcabe. simpl.
    now rewrite (SELECT_id_ausente i (db s) Hausente).
  - intros i s Hcabe Hausente.
    unfold Web.remover_livro, Web.tenta, bind, puro, ret, modifica, le.
    rewrite Hcabe. simpl.
    now rewrite (SELECT_id_ausente i (db s) Hausente).
  - intros id_livro novo_preco p t Hp Hvalido Hausente.
    unfold Cli.atualizar_preco. rewrite Hp, Hvalido.
    unfold bind, Cli._fazer_backup, modifica, le, Cli.print, ret. simpl.
    rewrite (cli_busca_id_ausente id_livro _ Hausente).
    eexists. split; [reflexivity|]. split; [reflexivity|].
    simpl. apply in_or_app. right. now left.
  - intros id_livro t Hausente.
    unfold Cli.remover_livro.
    unfold bind, Cli._fazer_backup, modifica, le, Cli.print, ret. simpl.
    rewrite (cli_busca_id_ausente id_livro _ Hausente).
    eexists. split; [reflexivity|]. split; [reflexivity|].
    simpl. apply in_or_app. right. now left.
  - intros s. split; reflexivity.
Qed.

Lemma id_ausente_exemplo :
  Web.remover_livro (Exemplo.em_2025 5) 7 Exemplo.instalacao =
  (Web.mk_resposta 404 (Web.CErro "Livro não encontrado"),
   fazer_backup (Exemplo.em_2025 5) Exemplo.instalacao)
  /\ Web.atualizar_preco (amb := Exemplo.decimal) (Exemplo.em_2025 5) 7
       (VDict [("preco"%string, VFloat 12.5)]) Exemplo.instalacao =
     (Web.mk_resposta 404 (Web.CErro "Livro não encontrado"),
      fazer_backup (Exemplo.em_2025 5) Exemplo.instalacao).
Proof.
  pose proof (@id_ausente_nao_encontrado Exemplo.decimal (Exemplo.em_2025 5))
    as (Hatualiza & Hremove & _).
  split.
  - apply Hremove; [reflexivity|]. simpl. intros [].
  - apply (Hatualiza 7 _ (VFloat 12.5) 12.5%float);
      [reflexivity| reflexivity| reflexivity| reflexivity|].
    simpl. intros [].
Defined.

(** C5 as stated fails: on an id the table does not hold, [atualizar_preco]
    with a negative price is refused by validation (400, and no backup is
    taken) before the id is looked up; the answer is not 404. *)
Lemma preco_negativo_precede_busca_do_id :
  ~ In 7 (map id (livros (db Exemplo.instalacao)))
  /\ Web.atualizar_preco (amb := Exemplo.decimal) (Exemplo.em_2025 5) 7
       (VDict [("preco"%string, VFloat (-1))]) Exemplo.instalacao =
     (Web.mk_resposta 400 (Web.CErro "Preço não pode ser negativo"),
      Exemplo.instalacao)
  /\ Web.status
       (fst (Web.atualizar_preco (amb := Exemplo.decimal) (Exemplo.em_2025 5) 7
               (VDict [("preco"%string, VFloat (-1))]) Exemplo.instalacao))
     <> 404.
Proof.
  split; [simpl; intros []|]. split; [reflexivity|].
  vm_compute. discriminate.
Qed.

(** ** Statistics of the three books priced 10, 30 and 110 *)

Lemma insere_titulo_perm (x : livro) (l : list livro) :
  Permutation (insere_titulo x l) (x :: l).
Proof.
  induction l as [|y l IH]; simpl.
  - apply Permutation_refl.
  - destruct (String.leb (titulo x) (titulo y)).
    + apply Permutation_refl.
    + apply perm_trans with (y :: x :: l).
      * now apply perm_skip.
      * apply perm_swap.
Qed.

Lemma ORDER_BY_titulo_perm (l : list livro) :
  Permutation (ORDER_BY_titulo l) l.
Proof.
  induction l as [|x l IH]; simpl.
  - apply perm_nil.
  - apply perm_trans with (x :: ORDER_BY_titulo l).
    + apply insere_titulo_perm.
    + now apply perm_skip.
Qed.

(** The six arrangements of three elements. *)
Lemma permutacao_de_tres {A : Type} (a b c : A) (l : list A) :
  Permutation l [a; b; c] ->
  l = [a; b; c] \/ l = [a; c; b] \/ l = [b; a; c] \/
  l = [b; c; a] \/ l = [c; a; b] \/ l = [c; b; a].
Proof.
  intros Hp.
  destruct (Permutation_vs_cons_inv Hp) as (l1 & l2 & ->).
  apply Permutation_sym, Permutation_cons_app_inv in Hp.
  apply Permutation_length_2_inv in Hp.
  destruct l1 as [|x [|y [|z l1]]]; simpl in Hp;
    destruct Hp as [Hp|Hp]; try discriminate; simpl.
  - subst l2. auto.
  - subst l2. auto.
  - injection Hp as -> ->. auto 6.
  - injection Hp as -> ->. auto 6.
  - destruct l2; [|discriminate]. injection Hp as -> ->. auto 7.
  - destruct l2; [|discriminate]. injection Hp as -> ->. auto 7.
Qed.

Lemma tres_precos (l : list livro) (a b c : float) :
  map preco l = [a; b; c] ->
  exists x y z, l = [x; y; z] /\ preco x = a /\ preco y = b /\ preco z = c.
Proof.
  destruct l as [|x [|y [|z [|w l]]]]; simpl; intros Heq; try discriminate.
  injection Heq as Ha Hb Hc. now exists x, y, z.
Qed.

Ltac em_cada_ordem Hp :=
  apply permutacao_de_tres in Hp;
  repeat (destruct Hp as [Hp|Hp]);
  apply tres_precos in Hp;
  destruct Hp as (x & y & z & -> & Hx & Hy & Hz);
  simpl; rewrite Hx, Hy, Hz.

Lemma soma_10_30_110 (l : list livro) :
  Permutation (map preco l) [10; 30; 110]%float ->
  List.length l = 3%nat /\
  fold_left (fun acc x => (acc + preco x)%float) l 0%float = 150%float.
Proof.
  intros Hp. em_cada_ordem Hp; split; reflexivity.
Qed.

Lemma faixas_10_30_110 (l : list livro) :
  Permutation (map preco l) [10; 30; 110]%float ->
  GROUP_BY_COUNT String.leb String.eqb (map (fun x => Web.faixa (preco x)) l) =
  [("Acima de R$ 100", 1); ("Até R$ 20", 1); ("R$ 20-50", 1)]%string.
Proof.
  intros Hp. em_cada_ordem Hp; reflexivity.
Qed.

(** C2, as the code has it. For three books priced 10, 30 and 110 (whatever
    their other fields and their order in the table) the price distribution
    of [obter_estatisticas] has three rows, one per band that holds a book:
    above 100, below 20 and 20 to 50, each with count 1, and no row for the
    band 50 to 100; the report of [gerar_relatorio_html] has total 150 and
    mean exactly 50. *)
Theorem estatisticas_10_30_110 (s : sistema) :
  Permutation (map preco (livros (db s))) [10; 30; 110]%float ->
  Web.distribuicao_precos_de (Web.obter_estatisticas s) =
    [("Acima de R$ 100", 1); ("Até R$ 20", 1); ("R$ 20-50", 1)]%string
  /\ (forall n, ~ In ("R$ 50-100"%string, n)
                    (Web.distribuicao_precos_de (Web.obter_estatisticas s)))
  /\ Web.valor_total_de (Web.gerar_relatorio_html s) = Some 150%float
  /\ Web.preco_medio_de (Web.gerar_relatorio_html s) = Some 50%float.
Proof.
  intros Hp.
  assert (Hdist : Web.distribuicao_precos_de (Web.obter_estatisticas s) =
    [("Acima de R$ 100", 1); ("Até R$ 20", 1); ("R$ 20-50", 1)]%string)
    by (exact (faixas_10_30_110 _ Hp)).
  split; [exact Hdist|]. split.
  - intros n. rewrite Hdist. simpl.
    intros [Hin|[Hin|[Hin|[]]]]; discriminate.
  - assert (Hcat : Permutation (map preco (ORDER_BY_titulo (livros (db s))))
                     [10; 30; 110]%float).
    { apply perm_trans with (map preco (livros (db s))); [|exact Hp].
      apply Permutation_map, ORDER_BY_titulo_perm. }
    apply soma_10_30_110 in Hcat. destruct Hcat as [Hlen Hsoma].
    unfold Web.gerar_relatorio_html, Web.valor_total_de, Web.preco_medio_de.
    destruct (ORDER_BY_titulo (livros (db s))) as [|x cat] eqn:Hord;
      [discriminate|].
    cbn [Web.corpo_json]. rewrite Hsoma, Hlen. split; reflexivity.
Qed.

Lemma estatisticas_10_30_110_exemplo :
  Web.preco_medio_de (Web.gerar_relatorio_html Exemplo.loja_10_30_110) =
  Some 50%float.
Proof.
  apply (estatisticas_10_30_110 Exemplo.loja_10_30_110).
  simpl. apply Permutation_refl.
Defined.

(** C2 as stated fails: the band from 50 to 100, which holds no book, is
    not reported with count 0; the distribution has three rows. *)
Lemma faixa_vazia_ausente :
  Web.distribuicao_precos_de (Web.obter_estatisticas Exemplo.loja_10_30_110) =
    [("Acima de R$ 100", 1); ("Até R$ 20", 1); ("R$ 20-50", 1)]%string
  /\ ~ In ("R$ 50-100"%string, 0)
         (Web.distribuicao_precos_de
            (Web.obter_estatisticas Exemplo.loja_10_30_110)).
Proof.
  split; [reflexivity|].
  simpl. intros [Hin|[Hin|[Hin|[]]]]; discriminate.
Qed.

(** ** Empty titles and authors *)

(** Option 1 of the menu refuses an empty title or author before
    [adicionar_livro] is reached: nothing is written. *)
Lemma menu_exige_titulo_e_autor {amb : Ambiente} (r : relogio)
    (titulo autor ano preco : string) (t : Cli.terminal) :
  titulo = ""%string \/ autor = ""%string ->
  Cli.menu_opcao_1 r titulo autor ano preco t =
  (Retorna tt,
   Cli.mk_terminal (Cli.arquivos t) (Cli.saida t ++ [Cli.MCamposObrigatorios])).
Proof.
  intros [-> | ->]; unfold Cli.menu_opcao_1; simpl.
  - reflexivity.
  - now rewrite andb_false_r.
Qed.

(** C9 fails on the code. POST /api/livros with an empty title and an empty
    author is answered 201 and the row is in the table; the method
    [adicionar_livro] called with empty texts inserts too; and both imports
    insert a CSV row whose title and author fields are empty. Only option 1
    of the menu checks the fields ([menu_exige_titulo_e_autor]). *)
Theorem titulo_e_autor_vazios_inseridos :
  (let x := Web.adicionar_livro (amb := Exemplo.decimal) (Exemplo.em_2025 5)
              (Exemplo.pedido "" "" 2000 10) Exemplo.instalacao in
   Web.status (fst x) = 201
   /\ livros (db (snd x)) = [mk_livro 1 "" "" 2000 10])
  /\ (let x := Cli.adicionar_livro (amb := Exemplo.decimal) (Exemplo.em_2025 5)
                 "" "" "2000" "10" (Cli.mk_terminal Exemplo.instalacao []) in
      fst x = Retorna true
      /\ livros (db (Cli.arquivos (snd x))) = [mk_livro 1 "" "" 2000 10])
  /\ (let x := Web.importar_csv (amb := Exemplo.decimal) (Exemplo.em_2025 5)
                 (Some (Web.mk_envio "livros.csv"
                          (Exemplo.csv_de_uma_linha "1,,,2000,10.0")))
                 Exemplo.instalacao in
      fst x = Web.mk_resposta 200 (Web.CImportacao 1 [])
      /\ livros (db (snd x)) = [mk_livro 1 "" "" 2000 10])
  /\ (let x := Cli.importar_de_csv (amb := Exemplo.decimal) (Exemplo.em_2025 5)
                 (Some (Some (Exemplo.csv_de_uma_linha "1,,,2000,10.0")))
                 (Cli.mk_terminal Exemplo.instalacao []) in
      fst x = Retorna true
      /\ livros (db (Cli.arquivos (snd x))) = [mk_livro 1 "" "" 2000 10]).
Proof.
  repeat split; vm_compute; reflexivity.
Qed.

(** ** The CSV import: validation of year and price *)

(** What the HTTP import does with a row of five fields whose year or price
    reads as a value [adicionar_livro] would refuse: the row is not
    inserted and not counted, and one error carrying the line number is
    appended. *)
Lemma web_linha_invalida_registrada {amb : Ambiente} (r : relogio) (idx : Z)
    (c0 titulo autor ano preco : string) (y : Z) (p : float)
    (a : Web.acumulado) :
  py_int_str ano = Some y -> py_float_str preco = Some p ->
  y < 0 \/ ano_atual r < y \/ (p <? 0)%float = true ->
  exists e,
    Web.importa_linha r idx [c0; titulo; autor; ano; preco] a =
      Retorna (Web.com_erro e a)
    /\ Web.linha_do_erro e = idx.
Proof.
  intros Hy Hp Hinvalida. unfold Web.importa_linha. simpl. rewrite Hy, Hp.
  destruct ((y <? 0) || (ano_atual r <? y)) eqn:Hano.
  - now exists (Web.AnoInvalido idx y).
  - destruct Hinvalida as [Hneg|[Hfut|Hpreco]].
    + apply Z.ltb_lt in Hneg. rewrite Hneg in Hano. discriminate.
    + apply Z.ltb_lt in Hfut. rewrite Hfut, orb_true_r in Hano. discriminate.
    + rewrite Hpreco. now exists (Web.PrecoInvalido idx p).
Qed.

(** The HTTP import of a well-formed row followed by a row whose price is
    not a number: one row imported, one error, and it names line 3. *)
Lemma web_preco_nao_numerico {amb : Ambiente} (r : relogio) (s : sistema)
    (nome conteudo : string) (cab : list string)
    (c0 titulo autor ano preco c0' titulo' autor' ano' preco' : string)
    (y : Z) (p : float) :
  le_csv conteudo =
    ([cab; [c0; titulo; autor; ano; preco];
      [c0'; titulo'; autor'; ano'; preco']], false) ->
  String.eqb nome "" = false -> endswith nome ".csv" = true ->
  py_int_str ano = Some y -> py_float_str preco = Some p ->
  0 <= y <= ano_atual r -> ano_atual r < 2 ^ 63 ->
  (p <? 0)%float = false -> is_nan p = false ->
  py_float_str preco' = None ->
  Web.importar_csv r (Some (Web.mk_envio nome conteudo)) s =
  (Web.mk_resposta 200
     (Web.CImportacao 1 [Web.ErroExcecao 3 ValueError]),
   commit r
     {| livros := livros (db s)
                    ++ [mk_livro (sequencia (db s) + 1) titulo autor y
                          (REAL p)];
        sequencia := sequencia (db s) + 1 |}
     (fazer_backup r s)).
Proof.
  intros Hlido Hnome Hcsv Hy Hp Hano Hatual Hpreco Hnan Hruim.
  unfold Web.importar_csv, Web.tenta. cbn [Web.filename Web.texto].
  rewrite Hnome, Hcsv, Hlido. unfold bind, ret, puro, modifica, le. simpl.
  unfold Web.importa_linha. simpl. rewrite Hy, Hp.
  replace ((y <? 0) || (ano_atual r <? y)) with false
    by (symmetry; apply orb_false_iff; split; apply Z.ltb_ge; lia).
  rewrite Hpreco. unfold INSERT.
  replace (cabe_int64 y) with true
    by (symmetry; unfold cabe_int64; apply andb_true_iff;
        split; [apply Z.leb_le|apply Z.ltb_lt]; lia).
  rewrite Hnan. simpl. rewrite Hruim.
  destruct (py_int_str ano'); reflexivity.
Qed.

(** C1 fails on the command-line import. A data row whose year reads as -5
    and whose price reads as -1.0, both refused by [adicionar_livro] and by
    the HTTP import, is inserted by [importar_de_csv] and counted: the
    method returns [True], the table ends with the new row, and the lines
    printed after the backup's are the count of 1 alone, with no error
    line. *)
Theorem importacao_cli_nao_valida {amb : Ambiente} (r : relogio) (t : Cli.terminal) :
  py_int_str "-5" = Some (-5) ->
  py_float_str "-1.0" = Some (-1)%float ->
  exists t',
    Cli.importar_de_csv r
      (Some (Some (Exemplo.csv_de_uma_linha "1,T,A,-5,-1.0"))) t =
      (Retorna true, t')
    /\ livros (db (Cli.arquivos t')) =
         livros (db (Cli.arquivos t))
           ++ [mk_livro (sequencia (db (Cli.arquivos t)) + 1) "T" "A" (-5) (-1)]
    /\ Cli.saida t' =
         Cli.saida (snd (Cli._fazer_backup r t)) ++ [Cli.MImportados 1].
Proof.
  intros Hano Hpreco.
  assert (Hlido : le_csv (Exemplo.csv_de_uma_linha "1,T,A,-5,-1.0") =
                  ([cabecalho; ["1"; "T"; "A"; "-5"; "-1.0"]%string], false))
    by reflexivity.
  unfold Cli.importar_de_csv, Cli.print, Cli.nos_arquivos, Cli._fazer_backup,
    bind, ret, puro, modifica, le.
  rewrite Hlido.
  simpl. unfold Cli.importa_linha, bind. simpl. rewrite Hano, Hpreco. simpl.
  eexists. split; [reflexivity|]. split; [reflexivity|].
  simpl. now rewrite app_nil_r.
Qed.

Lemma importacao_cli_nao_valida_exemplo :
  exists t',
    Cli.importar_de_csv (amb := Exemplo.decimal) (Exemplo.em_2025 5)
      (Some (Some (Exemplo.csv_de_uma_linha "1,T,A,-5,-1.0")))
      (Cli.mk_terminal Exemplo.instalacao []) =
      (Retorna true, t')
    /\ livros (db (Cli.arquivos t')) =
         livros (db Exemplo.instalacao)
           ++ [mk_livro (sequencia (db Exemplo.instalacao) + 1) "T" "A" (-5) (-1)]
    /\ Cli.saida t' =
         Cli.saida (snd (Cli._fazer_backup (Exemplo.em_2025 5)
                           (Cli.mk_terminal Exemplo.instalacao [])))
           ++ [Cli.MImportados 1].
Proof.
  apply (@importacao_cli_nao_valida Exemplo.decimal (Exemplo.em_2025 5)
           (Cli.mk_terminal Exemplo.instalacao [])); reflexivity.
Defined.

(** The HTTP import refuses that same row and records it under line 2. *)
Lemma importacao_web_valida_exemplo :
  Web.importar_csv (amb := Exemplo.decimal) (Exemplo.em_2025 5)
    (Some (Web.mk_envio "livros.csv"
             (Exemplo.csv_de_uma_linha "1,T,A,-5,-1.0")))
    Exemplo.instalacao =
  (Web.mk_resposta 200 (Web.CImportacao 0 [Web.AnoInvalido 2 (-5)]),
   fazer_backup (Exemplo.em_2025 5) Exemplo.instalacao).
Proof. reflexivity. Qed.

(** ** Search by author *)

Lemma leb_trans (s1 s2 s3 : string) :
  String.leb s1 s2 = true -> String.leb s2 s3 = true -> String.leb s1 s3 = true.
Proof.
  unfold String.leb. revert s2 s3.
  induction s1 as [|a s1 IH]; intros [|b s2] [|c s3]; simpl;
    try reflexivity; try discriminate.
  unfold Ascii.compare.
  destruct (N.compare_spec (N_of_ascii a) (N_of_ascii b)) as [Hab|Hab|Hab];
    destruct (N.compare_spec (N_of_ascii b) (N_of_ascii c)) as [Hbc|Hbc|Hbc];
    destruct (N.compare_spec (N_of_ascii a) (N_of_ascii c)) as [Hac|Hac|Hac];
    try reflexivity; try discriminate; try lia.
  apply IH.
Qed.

Lemma insere_titulo_ordenado (x : livro) (l : list livro) :
  StronglySorted titulo_le l -> StronglySorted titulo_le (insere_titulo x l).
Proof.
  induction 1 as [|y l Hl IH Hy]; simpl.
  - constructor; constructor.
  - destruct (String.leb (titulo x) (titulo y)) eqn:Hxy.
    + constructor; [now constructor|].
      constructor; [exact Hxy|].
      apply Forall_forall. intros z Hz.
      rewrite Forall_forall in Hy.
      exact (leb_trans _ _ _ Hxy (Hy z Hz)).
    + constructor; [exact IH|].
      apply Forall_forall. intros z Hz.
      apply (Permutation_in _ (insere_titulo_perm x l)) in Hz.
      destruct Hz as [<-|Hz].
      * destruct (String.leb_total (titulo x) (titulo y)) as [H1|H1];
          [congruence|exact H1].
      * rewrite Forall_forall in Hy. now apply Hy.
Qed.

Lemma ORDER_BY_titulo_ordenado (l : list livro) :
  StronglySorted titulo_le (ORDER_BY_titulo l).
Proof.
  induction l as [|x l IH]; simpl.
  - constructor.
  - now apply insere_titulo_ordenado.
Qed.














(** ** Export, then import *)

Lemma campos_renumera (ls : list livro) :
  forall seq, map campos (renumera seq ls) = map campos ls.
Proof.
  induction ls as [|l ls IH]; intros seq; simpl; [reflexivity|].
  now rewrite IH.
Qed.

Lemma cabe_int64_ano (r : relogio) (y : Z) :
  0 <= y <= ano_atual r -> ano_atual r < 2 ^ 63 -> cabe_int64 y = true.
Proof.
  intros Hy Hr. unfold cabe_int64. apply andb_true_iff.
  split; [apply Z.leb_le|apply Z.ltb_lt]; lia.
Qed.

Lemma web_importa_exportados {amb : Ambiente} (r : relogio) (ls : list livro) :
  ano_atual r < 2 ^ 63 ->
  Forall (fun l => relido l /\ livro_valido r l /\ REAL (preco l) = preco l)
    ls ->
  forall (idx : Z) (a : Web.acumulado),
    Web.importa_linhas r idx (map linha_csv ls) a =
    Retorna
      {| Web.transacao :=
           {| livros := livros (Web.transacao a)
                          ++ renumera (sequencia (Web.transacao a)) ls;
              sequencia := sequencia (Web.transacao a)
                           + Z.of_nat (List.length ls) |};
         Web.importados := Web.importados a + Z.of_nat (List.length ls);
         Web.erros := Web.erros a |}.
Proof.
  intros Hr.
  induction 1 as [|l ls [[Hint Hfloat] [(Hano & Hpreco & Hnan) Hreal]] _ IH];
    intros idx a.
  - simpl. rewrite app_nil_r, !Z.add_0_r. now destruct a as [[]].
  - cbn [map Web.importa_linhas].
    assert (Hlinha : Web.importa_linha r idx (linha_csv l) a =
      Retorna
        {| Web.transacao :=
             {| livros := livros (Web.transacao a)
                  ++ [mk_livro (sequencia (Web.transacao a) + 1) (titulo l)
                        (autor l) (ano_publicacao l) (preco l)];
                sequencia := sequencia (Web.transacao a) + 1 |};
           Web.importados := Web.importados a + 1;
           Web.erros := Web.erros a |}).
    { unfold Web.importa_linha, linha_csv. simpl. rewrite Hint, Hfloat.
      replace ((ano_publicacao l <? 0) || (ano_atual r <? ano_publicacao l))
        with false
        by (symmetry; apply orb_false_iff; split; apply Z.ltb_ge; lia).
      rewrite Hpreco. unfold INSERT.
      now rewrite (cabe_int64_ano r _ Hano Hr), Hnan, Hreal. }
    rewrite Hlinha, IH. cbn [Web.transacao Web.importados Web.erros livros
                              sequencia renumera List.length].
    rewrite <- app_assoc. simpl app.
    replace (Z.of_nat (S (List.length ls)))
      with (1 + Z.of_nat (List.length ls)) by lia.
    now rewrite !Z.add_assoc.
Qed.

Lemma cli_importa_exportados {amb : Ambiente} (ls : list livro) :
  Forall (fun l => relido l /\ cabe_int64 (ano_publicacao l) = true
                   /\ is_nan (preco l) = false
                   /\ REAL (preco l) = preco l) ls ->
  forall (c : Cli.acumulado),
    Cli.importa_linhas (map linha_csv ls) c =
    (Retorna tt,
     {| Cli.transacao :=
          {| livros := livros (Cli.transacao c)
                         ++ renumera (sequencia (Cli.transacao c)) ls;
             sequencia := sequencia (Cli.transacao c)
                          + Z.of_nat (List.length ls) |};
        Cli.importados := Cli.importados c + Z.of_nat (List.length ls);
        Cli.impressos := Cli.impressos c |}).
Proof.
  induction 1 as [|l ls [[Hint Hfloat] (Hcabe & Hnan & Hreal)] _ IH];
    intros c.
  - simpl. unfold ret. rewrite app_nil_r, !Z.add_0_r. now destruct c as [[]].
  - cbn [map Cli.importa_linhas]. unfold bind.
    assert (Hlinha : Cli.importa_linha (linha_csv l) c =
      (Retorna tt,
       {| Cli.transacao :=
            {| livros := livros (Cli.transacao c)
                 ++ [mk_livro (sequencia (Cli.transacao c) + 1) (titulo l)
                       (autor l) (ano_publicacao l) (preco l)];
               sequencia := sequencia (Cli.transacao c) + 1 |};
          Cli.importados := Cli.importados c + 1;
          Cli.impressos := Cli.impressos c |})).
    { unfold Cli.importa_linha, linha_csv. simpl. rewrite Hint, Hfloat.
      unfold INSERT. now rewrite Hcabe, Hnan, Hreal. }
    rewrite Hlinha, IH. cbn [Cli.transacao Cli.importados Cli.impressos livros
                              sequencia renumera List.length].
    rewrite <- app_assoc. simpl app.
    replace (Z.of_nat (S (List.length ls)))
      with (1 + Z.of_nat (List.length ls)) by lia.
    now rewrite !Z.add_assoc.
Qed.

(** ** What the writer wrote, the reader reads back *)
Lemma processa_linha_app (a b : string) : forall l,
  processa_linha (a ++ b) l =
  match processa_chars a l with
  | Some l' => processa_linha b l'
  | None => None
  end.
Proof.
  induction a as [|c a IH]; intros l; simpl; [reflexivity|].
  destruct (parse_process_char (Some c) l); [apply IH|reflexivity].
Qed.

Lemma processa_chars_app (a b : string) : forall l,
  processa_chars (a ++ b) l =
  match processa_chars a l with
  | Some l' => processa_chars b l'
  | None => None
  end.
Proof.
  induction a as [|c a IH]; intros l; simpl; [reflexivity|].
  destruct (parse_process_char (Some c) l); [apply IH|reflexivity].
Qed.

Lemma linhas_de_app_LF (a t : string) :
  tem_LF a = false ->
  linhas_de (a ++ String LF t) = (a ++ String LF EmptyString)%string :: linhas_de t.
Proof.
  induction a as [|c a IH]; simpl; intros H.
  - reflexivity.
  - apply orb_false_iff in H. destruct H as [Hc Ha].
    rewrite Hc, (IH Ha). reflexivity.
Qed.

Lemma app_String (a : string) (c : ascii) (s : string) :
  (a ++ String c s = (a ++ String c EmptyString) ++ s)%string.
Proof. induction a; simpl; congruence. Qed.

Lemma tem_LF_app (a b : string) :
  tem_LF (a ++ b) = tem_LF a || tem_LF b.
Proof. induction a; simpl; [reflexivity|]. now rewrite IHa, orb_assoc. Qed.

Lemma csv_reader_de_le_de (s : string) :
  linhas_completas s = true ->
  forall pre l0,
    tem_LF pre = false ->
    (s = EmptyString -> pre = EmptyString) ->
    csv_reader_de l0 (linhas_de (pre ++ s)) =
    match processa_chars pre l0 with
    | Some l => le_de l s
    | None => ([], true)
    end.
Proof.
  induction s as [|c s IH]; intros Hs pre l0 Hpre Hvazio.
  - rewrite (Hvazio eq_refl). reflexivity.
  - destruct (Ascii.eqb c LF) eqn:Hc.
    + apply Ascii.eqb_eq in Hc. subst c.
      rewrite (linhas_de_app_LF _ _ Hpre).
      cbn [csv_reader_de]. rewrite processa_linha_app.
      destruct (processa_chars pre l0) as [l|]; [|reflexivity].
      cbn [le_de processa_linha]. rewrite Ascii.eqb_refl.
      destruct (parse_process_char (Some LF) l) as [l1|]; [|reflexivity].
      destruct (parse_process_char None l1) as [l2|]; [|reflexivity].
      assert (Hresto : forall l', csv_reader_de l' (linhas_de s) = le_de l' s).
      { intros l'. destruct s as [|d s'] eqn:Es; [reflexivity|].
        rewrite <- Es in *.
        assert (Hs' : linhas_completas s = true) by (now subst s).
        specialize (IH Hs' EmptyString l' eq_refl).
        simpl in IH. apply IH. intros ->. discriminate. }
      rewrite !Hresto. reflexivity.
    + destruct s as [|d s'] eqn:Es.
      { simpl in Hs. congruence. }
      rewrite <- Es in *.
      assert (Hs' : linhas_completas s = true) by (now subst s).
      rewrite app_String.
      rewrite (IH Hs' (pre ++ String c EmptyString)%string l0).
      * rewrite processa_chars_app.
        destruct (processa_chars pre l0) as [l|]; [|reflexivity].
        cbn [processa_chars le_de]. rewrite Hc.
        destruct (parse_process_char (Some c) l); reflexivity.
      * rewrite tem_LF_app, Hpre. simpl. now rewrite Hc.
      * intros ->. discriminate.
Qed.

Lemma string_app_assoc (a b c : string) :
  ((a ++ b) ++ c = a ++ (b ++ c))%string.
Proof. induction a; simpl; congruence. Qed.

Lemma string_app_nil (a : string) : (a ++ EmptyString)%string = a.
Proof. induction a; simpl; congruence. Qed.

Lemma len_app (a b : string) : len (a ++ b) = len a + len b.
Proof. induction a as [|c a IH]; simpl; [reflexivity|]. rewrite IH. lia. Qed.

Lemma len_nao_negativo (a : string) : 0 <= len a.
Proof.
  induction a as [|c a IH]; simpl; [lia|].
  destruct (byte_continuacao c); lia.
Qed.

(** A character is added to a field that stays within the limit. *)
Lemma parse_add_char_cabe (x : ascii) (e e' : estado_leitor) (g f : string)
    (fs : list string) :
  len (g ++ String x f) <= field_limit ->
  parse_add_char x e' (mk_leitor e g fs) =
  Some (mk_leitor e' (g ++ String x EmptyString) fs).
Proof.
  intros H. unfold parse_add_char, field_len. cbn [field fields].
  rewrite len_app in H. cbn [len] in H.
  pose proof (len_nao_negativo f) as Hf.
  destruct (byte_continuacao x); [reflexivity|].
  replace (field_limit <=? len g) with false
    by (symmetry; apply Z.leb_gt; lia).
  reflexivity.
Qed.

Lemma le_de_entre_aspas (f : string) : forall g fs t,
  len (g ++ f) <= field_limit ->
  le_de (mk_leitor IN_QUOTED_FIELD g fs) (duplica_aspas f ++ String aspas t) =
  le_de (mk_leitor QUOTE_IN_QUOTED_FIELD (g ++ f) fs) t.
Proof.
  induction f as [|x f IH]; intros g fs t Hlen.
  - simpl. now rewrite string_app_nil.
  - assert (Hlen' : len ((g ++ String x EmptyString) ++ f) <= field_limit)
      by (now rewrite string_app_assoc).
    cbn [duplica_aspas]. destruct (Ascii.eqb x aspas) eqn:Hx.
    + apply Ascii.eqb_eq in Hx. subst x.
      cbn [String.append le_de parse_process_char estado passa_a field fields].
      rewrite Ascii.eqb_refl.
      change (Ascii.eqb aspas LF) with false. cbv iota.
      cbn [le_de parse_process_char estado passa_a field fields].
      unfold passa_a. cbn [field fields estado].
      rewrite Ascii.eqb_refl, (parse_add_char_cabe _ _ _ _ f _ Hlen).
      change (Ascii.eqb aspas LF) with false. cbv iota.
      rewrite (IH _ _ _ Hlen'), string_app_assoc. reflexivity.
    + cbn [String.append le_de parse_process_char estado]. rewrite Hx.
      rewrite (parse_add_char_cabe _ _ _ _ f _ Hlen).
      destruct (Ascii.eqb x LF); cbn [parse_process_char estado];
        rewrite (IH _ _ _ Hlen'), string_app_assoc; reflexivity.
Qed.

Lemma nao_especial (x : ascii) :
  especial x = false ->
  Ascii.eqb x virgula = false /\ Ascii.eqb x aspas = false
  /\ Ascii.eqb x CR = false /\ Ascii.eqb x LF = false.
Proof.
  unfold especial. intros H.
  apply orb_false_iff in H. destruct H as [H Hlf].
  apply orb_false_iff in H. destruct H as [H Hcr].
  apply orb_false_iff in H. destruct H as [Hv Ha]. auto.
Qed.

Lemma le_de_sem_aspas (f : string) :
  tem_especial f = false ->
  forall g fs t,
    len (g ++ f) <= field_limit ->
    le_de (mk_leitor IN_FIELD g fs) (f ++ t) =
    le_de (mk_leitor IN_FIELD (g ++ f) fs) t.
Proof.
  induction f as [|x f IH]; intros Hf g fs t Hlen.
  - simpl. now rewrite string_app_nil.
  - simpl in Hf. apply orb_false_iff in Hf. destruct Hf as [Hx Hf].
    destruct (nao_especial x Hx) as (Hv & Ha & Hcr & Hlf).
    cbn [String.append le_de parse_process_char estado].
    unfold fim_de_linha. rewrite Hv, Hcr, Hlf. cbn [orb].
    rewrite (parse_add_char_cabe _ _ _ _ f _ Hlen).
    rewrite (IH Hf) by (now rewrite string_app_assoc).
    now rewrite string_app_assoc.
Qed.

Lemma le_de_campo (f : string) (l : leitor) (t : string) :
  no_inicio l ->
  (estado l = START_RECORD -> f <> EmptyString) ->
  len f <= field_limit ->
  le_de l (escreve_campo f ++ t) =
  le_de (mk_leitor
           (if tem_especial f then QUOTE_IN_QUOTED_FIELD
            else match f with
                 | EmptyString => START_FIELD
                 | _ => IN_FIELD
                 end) f (fields l)) t.
Proof.
  destruct l as [e g fs]. intros [He Hg] Hf Hlen.
  cbn [estado field fields] in *.
  subst g. unfold escreve_campo. destruct (tem_especial f) eqn:Hesp.
  - cbn [String.append]. rewrite string_app_assoc. cbn [String.append].
    transitivity (le_de (mk_leitor IN_QUOTED_FIELD EmptyString fs)
                    (duplica_aspas f ++ String aspas t)).
    + destruct He as [-> | ->]; reflexivity.
    + now rewrite le_de_entre_aspas.
  - destruct f as [|x f].
    + simpl. destruct He as [-> | ->]; [reflexivity|].
      now contradiction Hf.
    + simpl in Hesp. apply orb_false_iff in Hesp. destruct Hesp as [Hx Hesp].
      destruct (nao_especial x Hx) as (Hv & Ha & Hcr & Hlf).
      cbn [String.append].
      transitivity (le_de (mk_leitor IN_FIELD (String x EmptyString) fs)
                      (f ++ t)).
      * destruct He as [-> | ->];
          cbn [le_de parse_process_char estado em_START_FIELD];
          unfold fim_de_linha; rewrite Hv, Ha, Hcr, Hlf; cbn [orb];
          rewrite (parse_add_char_cabe x _ _ EmptyString f fs Hlen);
          reflexivity.
      * now rewrite (le_de_sem_aspas f Hesp).
Qed.

Lemma le_de_campo_virgula (f : string) (l : leitor) (t : string) :
  no_inicio l ->
  len f <= field_limit ->
  le_de l (escreve_campo f ++ String virgula t) =
  le_de (mk_leitor START_FIELD EmptyString (fields l ++ [f])) t.
Proof.
  intros Hl Hlen. destruct (string_dec f EmptyString) as [-> | Hf].
  - destruct l as [e g fs]. destruct Hl as [He Hg].
    cbn [estado field fields] in *. subst g.
    destruct He as [-> | ->]; reflexivity.
  - rewrite (le_de_campo f l _ Hl (fun _ => Hf) Hlen).
    destruct (tem_especial f); [reflexivity|].
    destruct f; [contradiction|reflexivity].
Qed.

Lemma le_de_campo_LF (f : string) (l : leitor) (t : string) :
  no_inicio l ->
  (estado l = START_RECORD -> f <> EmptyString) ->
  len f <= field_limit ->
  le_de l (escreve_campo f ++ String LF t) =
  let (rs, e) := le_de leitor_inicial t in ((fields l ++ [f]) :: rs, e).
Proof.
  intros Hl Hf Hlen. rewrite (le_de_campo f l _ Hl Hf Hlen).
  destruct (tem_especial f); [reflexivity|].
  destruct f; reflexivity.
Qed.

Lemma le_de_campos (row : list string) : forall fs t,
  row <> [] ->
  Forall (fun f => len f <= field_limit) row ->
  le_de (mk_leitor START_FIELD EmptyString fs)
    (junta_campos (map escreve_campo row) ++ String LF t) =
  let (rs, e) := le_de leitor_inicial t in ((fs ++ row) :: rs, e).
Proof.
  induction row as [|f row IH]; intros fs t Hrow Hlen; [contradiction|].
  inversion Hlen as [|? ? Hf Hresto]; subst.
  destruct row as [|g row].
  - cbn [map junta_campos]. rewrite le_de_campo_LF.
    + reflexivity.
    + split; [now left|reflexivity].
    + discriminate.
    + exact Hf.
  - change (junta_campos (map escreve_campo (f :: g :: row)))
      with (escreve_campo f ++
              String virgula (junta_campos (map escreve_campo (g :: row))))%string.
    rewrite string_app_assoc. cbn [String.append].
    rewrite le_de_campo_virgula
      by (first [exact Hf | split; [now left|reflexivity]]).
    cbn [fields]. rewrite IH by (first [exact Hresto | discriminate]).
    now rewrite <- app_assoc.
Qed.

Lemma le_de_linha (row : list string) (t : string) :
  Forall (fun f => len f <= field_limit) row ->
  le_de leitor_inicial (texto_linha row ++ String LF t) =
  let (rs, e) := le_de leitor_inicial t in (row :: rs, e).
Proof.
  intros Hlen. destruct row as [|f [|g row]].
  - reflexivity.
  - inversion Hlen as [|? ? Hf _]; subst.
    destruct (string_dec f EmptyString) as [-> | Hvazio]; [reflexivity|].
    replace (texto_linha [f]) with (escreve_campo f)
      by (destruct f; [contradiction|reflexivity]).
    rewrite le_de_campo_LF; [reflexivity| |auto|exact Hf].
    split; [now right|reflexivity].
  - inversion Hlen as [|? ? Hf Hresto]; subst.
    replace (texto_linha (f :: g :: row))
      with (escreve_campo f ++
              String virgula (junta_campos (map escreve_campo (g :: row))))%string
      by (destruct f; reflexivity).
    rewrite string_app_assoc. cbn [String.append].
    rewrite le_de_campo_virgula
      by (first [exact Hf | split; [now right|reflexivity]]).
    rewrite le_de_campos by (first [exact Hresto | discriminate]).
    reflexivity.
Qed.

Lemma le_de_texto_LF (rows : list (list string)) :
  Forall (Forall (fun f => len f <= field_limit)) rows ->
  le_de leitor_inicial (texto_LF rows) = (rows, false).
Proof.
  induction 1 as [|row rows Hrow _ IH]; [reflexivity|].
  cbn [texto_LF fold_right]. fold (texto_LF rows).
  now rewrite (le_de_linha _ _ Hrow), IH.
Qed.

Lemma linhas_completas_app (a t : string) :
  linhas_completas t = true ->
  linhas_completas (a ++ String LF t) = true.
Proof.
  intros Ht. induction a as [|c a IH].
  - simpl. destruct t; [reflexivity|exact Ht].
  - cbn [String.append linhas_completas].
    destruct (a ++ String LF t)%string eqn:E; [|exact IH].
    destruct a; discriminate.
Qed.

Lemma linhas_completas_texto_LF (rows : list (list string)) :
  linhas_completas (texto_LF rows) = true.
Proof.
  induction rows; [reflexivity|]. now apply linhas_completas_app.
Qed.

Lemma tem_CR_app (a b : string) : tem_CR (a ++ b) = tem_CR a || tem_CR b.
Proof. induction a; simpl; [reflexivity|]. now rewrite IHa, orb_assoc. Qed.

Lemma tem_CR_duplica_aspas (f : string) :
  tem_CR (duplica_aspas f) = tem_CR f.
Proof.
  induction f as [|x f IH]; [reflexivity|]. simpl.
  destruct (Ascii.eqb x aspas) eqn:Hx.
  - apply Ascii.eqb_eq in Hx. subst x. simpl. exact IH.
  - simpl. now rewrite IH.
Qed.

Lemma tem_CR_escreve_campo (f : string) :
  tem_CR (escreve_campo f) = tem_CR f.
Proof.
  unfold escreve_campo. destruct (tem_especial f); [|reflexivity].
  cbn [tem_CR]. rewrite tem_CR_app, tem_CR_duplica_aspas. simpl.
  now rewrite orb_false_r.
Qed.

Lemma tem_CR_junta_campos (row : list string) :
  Forall (fun f => tem_CR f = false) row ->
  tem_CR (junta_campos (map escreve_campo row)) = false.
Proof.
  induction 1 as [|f row Hf Hrow IH]; [reflexivity|].
  destruct row as [|g row].
  - simpl. now rewrite tem_CR_escreve_campo.
  - change (junta_campos (map escreve_campo (f :: g :: row)))
      with (escreve_campo f ++
              String virgula (junta_campos (map escreve_campo (g :: row))))%string.
    rewrite tem_CR_app, tem_CR_escreve_campo, Hf. simpl. exact IH.
Qed.

Lemma tem_CR_texto_linha (row : list string) :
  Forall (fun f => tem_CR f = false) row ->
  tem_CR (texto_linha row) = false.
Proof.
  intros H. destruct row as [|f [|g row]]; [reflexivity| |].
  - destruct f; [reflexivity|]. now apply tem_CR_junta_campos.
  - replace (texto_linha (f :: g :: row))
      with (junta_campos (map escreve_campo (f :: g :: row)))
      by (destruct f; reflexivity).
    now apply tem_CR_junta_campos.
Qed.

Lemma universal_newlines_CRLF (a b : string) :
  tem_CR a = false ->
  universal_newlines (a ++ String CR (String LF b)) =
  (a ++ String LF (universal_newlines b))%string.
Proof.
  induction a as [|c a IH]; intros Ha; [reflexivity|].
  simpl in Ha. apply orb_false_iff in Ha. destruct Ha as [Hc Ha].
  cbn [String.append universal_newlines]. rewrite Hc. now rewrite IH.
Qed.

Lemma universal_newlines_escreve_csv (rows : list (list string)) :
  Forall (Forall (fun f => tem_CR f = false)) rows ->
  universal_newlines (escreve_csv rows) = texto_LF rows.
Proof.
  induction 1 as [|row rows Hrow Hrows IH]; [reflexivity|].
  cbn [escreve_csv texto_LF fold_right].
  fold (escreve_csv rows). fold (texto_LF rows).
  unfold escreve_linha. fold (texto_linha row).
  rewrite string_app_assoc. cbn [String.append].
  rewrite universal_newlines_CRLF by now apply tem_CR_texto_linha.
  now rewrite IH.
Qed.

(** What the writer wrote, the reader reads back, when no field holds a
    carriage return or more characters than the reader accepts. *)
Lemma le_csv_escreve_csv (rows : list (list string)) :
  Forall (Forall (fun f => tem_CR f = false)) rows ->
  Forall (Forall (fun f => len f <= field_limit)) rows ->
  le_csv (escreve_csv rows) = (rows, false).
Proof.
  intros H Hlen. unfold le_csv, csv_reader.
  rewrite (universal_newlines_escreve_csv rows H).
  pose proof (csv_reader_de_le_de (texto_LF rows)
                (linhas_completas_texto_LF rows) EmptyString leitor_inicial
                eq_refl (fun _ => eq_refl)) as E.
  cbn [String.append processa_chars] in E. rewrite E.
  now apply le_de_texto_LF.
Qed.

Lemma tem_CR_string_of_uint (d : Decimal.uint) :
  tem_CR (NilEmpty.string_of_uint d) = false.
Proof. induction d; simpl; auto. Qed.

Lemma tem_CR_py_str_int (z : Z) : tem_CR (py_str_int z) = false.
Proof.
  unfold py_str_int, NilZero.string_of_int, NilZero.string_of_uint.
  destruct (Z.to_int z) as [d|d]; destruct d; simpl;
    auto using tem_CR_string_of_uint.
Qed.

(** X16. The round trip, for a store of N >= 1 valid books whose years and
    prices read back from what [str] and [repr] write, whose prices are
    as the column [preco] holds them, and whose rows are UTF-8 text with
    no carriage return, no NUL character and no field of more than 131072
    characters: the import into a store without books inserts N books
    whose title, author, year and price are those of the exported books,
    in the same order, reporting N imported and no error. This holds for
    the HTTP pair and for the command-line pair. *)
Lemma exportar_depois_importar {amb : Ambiente} (r : relogio)
    (s vazio : sistema) (t tvazio : Cli.terminal) (nome : string) :
  Cli.arquivos t = s ->
  livros (db vazio) = [] ->
  livros (db (Cli.arquivos tvazio)) = [] ->
  String.eqb nome "" = false -> endswith nome ".csv" = true ->
  ano_atual r < 2 ^ 63 ->
  Forall (fun l => relido l /\ livro_valido r l /\ REAL (preco l) = preco l)
    (livros (db s)) ->
  livros (db s) <> [] ->
  Forall sem_retorno_de_carro (livros (db s)) ->
  Forall dentro_do_limite (livros (db s)) ->
  let n := Z.of_nat (List.length (livros (db s))) in
  let arquivo_csv := escreve_csv (linhas_csv (db s)) in
  let importado :=
    Web.importar_csv r (Some (Web.mk_envio nome arquivo_csv)) vazio in
  Web.exportar_csv s = Web.mk_resposta 200 (Web.CArquivoCsv arquivo_csv)
  /\ fst importado = Web.mk_resposta 200 (Web.CImportacao n [])
  /\ map campos (livros (db (snd importado))) = map campos (livros (db s))
  /\ (exists t1,
        Cli.exportar_para_csv t = (Retorna true, t1)
        /\ livros_exportados (Cli.arquivos t1) = Some arquivo_csv
        /\ db (Cli.arquivos t1) = db s)
  /\ (exists t2,
        Cli.importar_de_csv r (Some (Some arquivo_csv)) tvazio =
          (Retorna true, t2)
        /\ map campos (livros (db (Cli.arquivos t2))) = map campos (livros (db s))
        /\ In (Cli.MImportados n) (Cli.saida t2)).
Proof.
  intros Ht Hvazio Htvazio Hnome Hcsv Hr Hvalidos Hnao_vazio Hsem Hlimite
         n arquivo_csv importado.
  assert (Hlido : le_csv (escreve_csv (linhas_csv (db s))) =
                  (linhas_csv (db s), false)).
  { apply le_csv_escreve_csv; unfold linhas_csv; constructor.
    - repeat constructor.
    - apply Forall_map. eapply Forall_impl; [|exact Hsem].
      intros l (Htit & Haut & Hpreco). unfold linha_csv.
      repeat constructor; auto using tem_CR_py_str_int.
    - repeat constructor; vm_compute; discriminate.
    - apply Forall_map. eapply Forall_impl; [|exact Hlimite].
      intros l Hl. eapply Forall_impl; [|exact Hl].
      now intros f (_ & _ & Hf). }
  assert (Hn : (0 <? n) = true).
  { apply Z.ltb_lt. unfold n.
    destruct (livros (db s)); [contradiction|simpl; lia]. }
  assert (Hweb : importado =
    (Web.mk_resposta 200 (Web.CImportacao n []),
     commit r
       {| livros := livros (db vazio) ++ renumera (sequencia (db vazio))
                                           (livros (db s));
          sequencia := sequencia (db vazio) + n |}
       (fazer_backup r vazio))).
  { unfold importado, Web.importar_csv, Web.tenta.
    cbn [Web.filename Web.texto]. rewrite Hnome, Hcsv.
    unfold arquivo_csv. rewrite Hlido.
    unfold bind, ret, puro, modifica, le, linhas_csv.
    cbn [negb fst snd].
    rewrite (web_importa_exportados r _ Hr Hvalidos).
    cbn [Web.transacao Web.importados Web.erros db fazer_backup].
    unfold Web.commit_importacao. cbn [Web.importados Web.transacao].
    fold n. now rewrite Z.add_0_l, Hn. }
  repeat apply conj.
  - unfold Web.exportar_csv. destruct (livros (db s)); [contradiction|reflexivity].
  - now rewrite Hweb.
  - rewrite Hweb. cbn [snd commit db livros]. rewrite Hvazio. simpl app.
    apply campos_renumera.
  - unfold Cli.exportar_para_csv, bind, le, ret, Cli.print, Cli.nos_arquivos,
      modifica. subst s.
    destruct (livros (db (Cli.arquivos t))) eqn:Hls; [contradiction|].
    eexists. split; [reflexivity|]. split; reflexivity.
  - assert (Hcli : Forall (fun l => relido l
                      /\ cabe_int64 (ano_publicacao l) = true
                      /\ is_nan (preco l) = false
                      /\ REAL (preco l) = preco l) (livros (db s))).
    { eapply Forall_impl; [|exact Hvalidos].
      intros l [Hrel [(Hano & _ & Hnan) Hreal]].
      repeat split; try apply Hrel.
      - exact (cabe_int64_ano r _ Hano Hr).
      - exact Hnan.
      - exact Hreal. }
    unfold Cli.importar_de_csv, Cli.print, Cli.nos_arquivos,
      Cli._fazer_backup, bind, le, ret, puro, modifica.
    unfold arquivo_csv. rewrite Hlido. unfold linhas_csv.
    cbn [fst snd Cli.arquivos fazer_backup db].
    rewrite (cli_importa_exportados _ Hcli).
    cbn [Cli.transacao Cli.importados Cli.impressos Cli.arquivos db
         fazer_backup]. fold n. rewrite Z.add_0_l, Hn.
    eexists. split; [reflexivity|]. split.
    + cbn [Cli.arquivos commit db livros]. rewrite Htvazio. simpl app.
      apply campos_renumera.
    + cbn [Cli.saida]. apply in_or_app. right. now left.
Qed.

Lemma exportar_depois_importar_exemplo :
  map campos
    (livros (db (snd (Web.importar_csv (amb := Exemplo.decimal)
                        (Exemplo.em_2025 5)
                        (Some (Web.mk_envio "livros.csv"
                                 (escreve_csv
                                    (linhas_csv (amb := Exemplo.decimal)
                                       (db Exemplo.loja_10_30_110)))))
                        Exemplo.instalacao)))) =
  map campos (livros (db Exemplo.loja_10_30_110)).
Proof.
  apply (@exportar_depois_importar Exemplo.decimal (Exemplo.em_2025 5)
           Exemplo.loja_10_30_110 Exemplo.instalacao
           (Cli.mk_terminal Exemplo.loja_10_30_110 [])
           (Cli.mk_terminal Exemplo.instalacao []) "livros.csv");
    try reflexivity.
  - repeat constructor; simpl; lia.
  - discriminate.
  - repeat constructor.
  - repeat constructor; vm_compute; first [reflexivity|discriminate].
Defined.

(** C6 fails on the code. The export writes its file with [newline=''];
    the imports open theirs without it, so a carriage return inside a
    quoted field comes back as a line feed. A store whose one book has a
    carriage return in its title is exported, and the import of that file
    into an empty store inserts a book with another title, in both
    variants. *)
Theorem exportar_importar_troca_retorno_de_carro :
  let arquivo_csv :=
    escreve_csv (linhas_csv (amb := Exemplo.decimal)
                   (db Exemplo.loja_com_CR)) in
  Web.exportar_csv (amb := Exemplo.decimal) Exemplo.loja_com_CR =
    Web.mk_resposta 200 (Web.CArquivoCsv arquivo_csv)
  /\ livros (db Exemplo.loja_com_CR) =
       [mk_livro 1 (String "a" (String CR "b")) "Autor" 2000 10]
  /\ livros (db (snd (Web.importar_csv (amb := Exemplo.decimal)
                         (Exemplo.em_2025 5)
                         (Some (Web.mk_envio "livros.csv" arquivo_csv))
                         Exemplo.instalacao))) =
       [mk_livro 1 (String "a" (String LF "b")) "Autor" 2000 10]
  /\ livros (db (Cli.arquivos
                   (snd (Cli.importar_de_csv (amb := Exemplo.decimal)
                           (Exemplo.em_2025 5) (Some (Some arquivo_csv))
                           (Cli.mk_terminal Exemplo.instalacao []))))) =
       [mk_livro 1 (String "a" (String LF "b")) "Autor" 2000 10].
Proof. repeat split. Qed.

(** ** Retention of backups *)

Lemma insere_desc_perm (x : arquivo) (l : list arquivo) :
  Permutation (insere_desc x l) (x :: l).
Proof.
  induction l as [|y l IH]; simpl.
  - apply Permutation_refl.
  - destruct (mtime y <=? mtime x).
    + apply Permutation_refl.
    + apply perm_trans with (y :: x :: l); [now apply perm_skip|apply perm_swap].
Qed.

Lemma ordena_desc_perm (l : list arquivo) : Permutation (ordena_desc l) l.
Proof.
  induction l as [|x l IH]; simpl.
  - apply perm_nil.
  - apply perm_trans with (x :: ordena_desc l);
      [apply insere_desc_perm|now apply perm_skip].
Qed.

Lemma insere_desc_ordenado (x : arquivo) (l : list arquivo) :
  StronglySorted mais_recente l -> StronglySorted mais_recente (insere_desc x l).
Proof.
  induction 1 as [|y l Hl IH Hy]; simpl.
  - constructor; constructor.
  - destruct (Z.leb_spec (mtime y) (mtime x)) as [Hyx|Hxy].
    + constructor; [now constructor|].
      constructor; [exact Hyx|].
      apply Forall_forall. intros z Hz. rewrite Forall_forall in Hy.
      specialize (Hy z Hz). unfold mais_recente in *. lia.
    + constructor; [exact IH|].
      apply Forall_forall. intros z Hz.
      apply (Permutation_in _ (insere_desc_perm x l)) in Hz.
      destruct Hz as [<-|Hz].
      * unfold mais_recente. lia.
      * rewrite Forall_forall in Hy. now apply Hy.
Qed.

Lemma ordena_desc_ordenado (l : list arquivo) :
  StronglySorted mais_recente (ordena_desc l).
Proof.
  induction l as [|x l IH]; simpl; [constructor|].
  now apply insere_desc_ordenado.
Qed.

Lemma ordenado_app (l1 l2 : list arquivo) :
  StronglySorted mais_recente (l1 ++ l2) ->
  forall x y, In x l1 -> In y l2 -> mtime y <= mtime x.
Proof.
  induction l1 as [|a l1 IH]; simpl; intros Hs x y Hx Hy; [contradiction|].
  apply StronglySorted_inv in Hs. destruct Hs as [Hs Ha].
  destruct Hx as [<-|Hx].
  - rewrite Forall_forall in Ha. apply Ha. apply in_or_app. now right.
  - now apply (IH Hs x y).
Qed.

Lemma unlink_todos (excedentes dir : list arquivo) :
  fold_left (fun d b => unlink b d) excedentes dir =
  filter (fica excedentes) dir.
Proof.
  revert dir. induction excedentes as [|b ex IH]; intros dir; simpl.
  - induction dir as [|f dir IHd]; simpl; [reflexivity|]. now rewrite <- IHd.
  - rewrite IH. unfold unlink.
    induction dir as [|f dir IHd]; simpl; [reflexivity|].
    unfold fica at 2. simpl.
    destruct (carimbo f =? carimbo b); simpl.
    + exact IHd.
    + fold (fica ex f). destruct (fica ex f); simpl; now rewrite IHd.
Qed.

Lemma limpar_filter (dir : list arquivo) :
  limpar_backups_antigos dir = filter (fica (backups_excedentes dir)) dir.
Proof. apply unlink_todos. Qed.

Lemma fica_excedente (excedentes : list arquivo) (f : arquivo) :
  In f excedentes -> fica excedentes f = false.
Proof.
  intros Hin. unfold fica. apply negb_false_iff, existsb_exists.
  exists f. split; [exact Hin|apply Z.eqb_refl].
Qed.

(** In a directory no two files have one name. *)
Lemma carimbo_identifica (dir : list arquivo) (f g : arquivo) :
  NoDup (map carimbo dir) -> In f dir -> In g dir ->
  carimbo f = carimbo g -> f = g.
Proof.
  induction dir as [|a dir IH]; simpl; intros Hnd Hf Hg Heq; [contradiction|].
  apply NoDup_cons_iff in Hnd. destruct Hnd as [Ha Hnd].
  destruct Hf as [<-|Hf], Hg as [<-|Hg].
  - reflexivity.
  - exfalso. apply Ha. rewrite Heq. now apply in_map.
  - exfalso. apply Ha. rewrite <- Heq. now apply in_map.
  - now apply IH.
Qed.

Lemma nao_fica_excedente (dir excedentes : list arquivo) (f : arquivo) :
  NoDup (map carimbo dir) -> incl excedentes dir -> In f dir ->
  fica excedentes f = false -> In f excedentes.
Proof.
  intros Hnd Hincl Hf Hfica. unfold fica in Hfica.
  apply negb_false_iff, existsb_exists in Hfica.
  destruct Hfica as (g & Hg & Heq). apply Z.eqb_eq in Heq.
  now rewrite (carimbo_identifica dir f g Hnd Hf (Hincl g Hg) Heq).
Qed.

Lemma excedentes_incl (dir : list arquivo) : incl (backups_excedentes dir) dir.
Proof.
  intros f Hf. apply (Permutation_in _ (ordena_desc_perm dir)).
  unfold backups_excedentes in Hf.
  rewrite <- (firstn_skipn 5 (ordena_desc dir)). apply in_or_app. now right.
Qed.

Lemma filter_permutacao {A : Type} (p : A -> bool) (l l' : list A) :
  Permutation l l' -> Permutation (filter p l) (filter p l').
Proof.
  induction 1 as [|x l l' _ IH|x y l|l l' l'' _ IH1 _ IH2]; simpl.
  - apply perm_nil.
  - destruct (p x); [now apply perm_skip|exact IH].
  - destruct (p x), (p y); try apply Permutation_refl. apply perm_swap.
  - now apply perm_trans with (filter p l').
Qed.

Lemma filter_nenhum {A : Type} (p : A -> bool) (l : list A) :
  (forall x, In x l -> p x = false) -> filter p l = [].
Proof.
  induction l as [|x l IH]; simpl; intros Hp; [reflexivity|].
  rewrite (Hp x (or_introl eq_refl)). apply IH. intros y Hy. apply Hp. now right.
Qed.

Lemma filter_todos {A : Type} (p : A -> bool) (l : list A) :
  (forall x, In x l -> p x = true) -> filter p l = l.
Proof.
  induction l as [|x l IH]; simpl; intros Hp; [reflexivity|].
  rewrite (Hp x (or_introl eq_refl)). f_equal. apply IH.
  intros y Hy. apply Hp. now right.
Qed.

Lemma filter_menor {A : Type} (p : A -> bool) (l : list A) :
  (List.length (filter p l) <= List.length l)%nat.
Proof.
  induction l as [|x l IH]; simpl; [lia|]. destruct (p x); simpl; lia.
Qed.

(** After the cleanup at most five files are left. *)
Lemma limpar_no_maximo_5 (dir : list arquivo) :
  (List.length (limpar_backups_antigos dir) <= 5)%nat.
Proof.
  rewrite limpar_filter.
  pose proof (ordena_desc_perm dir) as Hp.
  rewrite <- (firstn_skipn 5 (ordena_desc dir)) in Hp.
  apply Permutation_sym, (filter_permutacao (fica (backups_excedentes dir))),
    Permutation_length in Hp.
  rewrite Hp, filter_app, length_app.
  unfold backups_excedentes at 2.
  fold (backups_excedentes dir).
  rewrite (filter_nenhum _ (backups_excedentes dir))
    by apply fica_excedente.
  simpl. rewrite Nat.add_0_r.
  apply Nat.le_trans with (List.length (firstn 5 (ordena_desc dir)));
    [apply filter_menor|apply firstn_le_length].
Qed.


(** A listed file stays when at most five listed files, itself among them,
    were modified no earlier than it. *)
Lemma limpar_mantem (dir : list arquivo) (f : arquivo) :
  NoDup (map carimbo dir) -> In f dir ->
  (List.length (filter (fun g => (mtime f <=? mtime g)%Z) dir) <= 5)%nat ->
  In f (limpar_backups_antigos dir).
Proof.
  intros Hnd Hf Hconta. rewrite limpar_filter. apply filter_In.
  split; [exact Hf|].
  destruct (fica (backups_excedentes dir) f) eqn:Hfica; [reflexivity|exfalso].
  apply (nao_fica_excedente dir) in Hfica; auto using excedentes_incl.
  pose proof (ordena_desc_ordenado dir) as Hord.
  pose proof (ordena_desc_perm dir) as Hp.
  rewrite <- (firstn_skipn 5 (ordena_desc dir)) in Hord, Hp.
  fold (backups_excedentes dir) in Hord, Hp.
  apply Permutation_sym,
    (filter_permutacao (fun g => (mtime f <=? mtime g)%Z)),
    Permutation_length in Hp.
  rewrite Hp, filter_app, length_app in Hconta.
  rewrite (filter_todos _ (firstn 5 (ordena_desc dir))) in Hconta.
  - assert (Hcinco : List.length (firstn 5 (ordena_desc dir)) = 5%nat).
    { rewrite length_firstn. apply Nat.min_l.
      assert (Hpos : (0 < List.length (backups_excedentes dir))%nat)
        by (destruct (backups_excedentes dir); [contradiction|simpl; lia]).
      unfold backups_excedentes in Hpos. rewrite length_skipn in Hpos. lia. }
    assert (Hum : (0 < List.length (filter (fun g => (mtime f <=? mtime g)%Z)
                                     (backups_excedentes dir)))%nat).
    { assert (Hin : In f (filter (fun g => (mtime f <=? mtime g)%Z)
                            (backups_excedentes dir)))
        by (apply filter_In; split; [exact Hfica|apply Z.leb_refl]).
      destruct (filter _ (backups_excedentes dir));
        [contradiction|simpl; lia]. }
    lia.
  - intros x Hx. apply Z.leb_le.
    exact (ordenado_app _ _ Hord x f Hx Hfica).
Qed.









Lemma copy2_carimbos (novo : arquivo) (dir : list arquivo) (c : Z) :
  In c (map carimbo (copy2 novo dir)) ->
  c = carimbo novo \/ In c (map carimbo dir).
Proof.
  induction dir as [|f dir IH]; simpl.
  - intros [<-|[]]. now left.
  - destruct (Z.eqb_spec (carimbo f) (carimbo novo)) as [Heq|Hne]; simpl.
    + intros [<-|Hin]; auto.
    + intros [<-|Hin]; auto. destruct (IH Hin); auto.
Qed.

Lemma copy2_NoDup (novo : arquivo) (dir : list arquivo) :
  NoDup (map carimbo dir) -> NoDup (map carimbo (copy2 novo dir)).
Proof.
  induction dir as [|f dir IH]; simpl; intros Hnd.
  - constructor; [intros []|constructor].
  - apply NoDup_cons_iff in Hnd. destruct Hnd as [Hf Hnd].
    destruct (Z.eqb_spec (carimbo f) (carimbo novo)) as [Heq|Hne]; simpl.
    + rewrite <- Heq. now constructor.
    + constructor; [|now apply IH].
      intros Hin. apply copy2_carimbos in Hin. destruct Hin; auto.
Qed.


Ltac por_casos H :=
  repeat (cbv beta in H;
          match type of H with
          | context [match ?x with _ => _ end] =>
              lazymatch x with
              | context [match _ with _ => _ end] => fail
              | _ => destruct x eqn:?
              end
          end).



Lemma atende_mutou {amb : Ambiente} (r : relogio) (p : Web.pedido)
    (s s' : sistema) (resp : Web.resposta) :
  Web.atende r p s = (resp, s') -> Web.mutou resp = true ->
  exists b, s' = commit_apos_backup r b s.
Proof.
  intros Heq Hmutou. destruct p as [dados|i dados|i|file]; simpl in Heq.
  - unfold Web.adicionar_livro, Web.tenta, bind, puro, ret, modifica, le in Heq.
    por_casos Heq; injection Heq as <- <-; try discriminate;
      eexists; reflexivity.
  - unfold Web.atualizar_preco, Web.tenta, bind, puro, ret, modifica, le in Heq.
    por_casos Heq; injection Heq as <- <-; try discriminate;
      eexists; reflexivity.
  - unfold Web.remover_livro, Web.tenta, bind, puro, ret, modifica, le in Heq.
    por_casos Heq; injection Heq as <- <-; try discriminate;
      eexists; reflexivity.
  - unfold Web.importar_csv, Web.tenta, bind, puro, ret, modifica, le,
      Web.commit_importacao in Heq.
    por_casos Heq; injection Heq as <- <-; try discriminate;
      try (eexists; reflexivity).
    unfold Web.mutou in Hmutou. simpl in Hmutou. congruence.
Qed.








(* ================================================================== *)
(** * Further properties of the program *)

(** ** What a request does to the table *)

(** The column holds a price that passed validation as a price that
    passes it. *)
Lemma REAL_valido (p : float) :
  (p <? 0)%float = false -> is_nan p = false ->
  (REAL p <? 0)%float = false /\ is_nan (REAL p) = false.
Proof.
  unfold REAL. destruct (p =? 0)%float; [split; reflexivity|auto].
Qed.

(** What the column holds, it holds unchanged when written again. *)
Lemma REAL_REAL (p : float) : REAL (REAL p) = REAL p.
Proof.
  unfold REAL. destruct (p =? 0)%float eqn:Hp; [reflexivity|now rewrite Hp].
Qed.

Lemma INSERT_Retorna (t a : string) (y : Z) (p : float) (b : banco)
    (i : Z) (b' : banco) :
  INSERT t a y p b = Retorna (i, b') ->
  i = sequencia b + 1
  /\ b' = com_novos [mk_livro 0 t a y (REAL p)] b
  /\ cabe_int64 y = true /\ is_nan p = false.
Proof.
  unfold INSERT. destruct (cabe_int64 y); [|discriminate].
  destruct (is_nan p); [discriminate|]. simpl.
  intros H. injection H as <- <-. now repeat split.
Qed.

Lemma INSERT_valores_Retorna {amb : Ambiente} (vt va : valor) (y : Z)
    (p : float) (b : banco) (i : Z) (b' : banco) :
  INSERT_valores vt va y p b = Retorna (i, b') ->
  exists t a,
    i = sequencia b + 1
    /\ b' = com_novos [mk_livro 0 t a y (REAL p)] b
    /\ is_nan p = false.
Proof.
  unfold INSERT_valores. intros H. por_casos H; try discriminate.
  apply INSERT_Retorna in H. destruct H as (Hi & Hb & _ & Hnan).
  eauto.
Qed.

Lemma UPDATE_preco_Retorna (p : float) (i : Z) (b b' : banco) (l : livro) :
  SELECT_id i b = Some l ->
  UPDATE_preco p i b = Retorna b' ->
  is_nan p = false
  /\ b' = {| livros := map (fun l => if id l =? i then com_preco (REAL p) l
                                     else l)
                         (livros b);
             sequencia := sequencia b |}.
Proof.
  unfold SELECT_id, UPDATE_preco. intros Hl.
  assert (He : existsb (fun l => id l =? i) (livros b) = true).
  { apply existsb_exists. apply find_some in Hl. now exists l. }
  rewrite He, andb_true_r. destruct (is_nan p); [discriminate|].
  intros H. injection H as <-. now split.
Qed.

Lemma com_novos_app (ns ms : list livro) (b : banco) :
  com_novos (ns ++ ms) b = com_novos ms (com_novos ns b).
Proof.
  unfold com_novos. cbn [livros sequencia].
  assert (H : forall seq, renumera seq (ns ++ ms) =
                renumera seq ns ++ renumera (seq + Z.of_nat (List.length ns)) ms).
  { induction ns as [|n ns IH]; intros seq.
    - simpl. now rewrite Z.add_0_r.
    - cbn [app renumera List.length]. rewrite IH. do 3 f_equal. lia. }
  rewrite H, length_app, Nat2Z.inj_add, <- app_assoc, Z.add_assoc.
  reflexivity.
Qed.

Lemma com_novos_nil (b : banco) : com_novos [] b = b.
Proof.
  unfold com_novos. destruct b. simpl. now rewrite app_nil_r, Z.add_0_r.
Qed.

(** One row of the HTTP import: skipped, recorded as an error under its
    line number, or inserted after it passed validation. *)
Lemma web_importa_linha_efeito {amb : Ambiente} (r : relogio) (idx : Z)
    (row : list string) (a a' : Web.acumulado) :
  Web.importa_linha r idx row a = Retorna a' ->
  ((List.length row < 5)%nat /\ a' = a)
  \/ ((5 <= List.length row)%nat
      /\ exists e, Web.linha_do_erro e = idx /\ a' = Web.com_erro e a)
  \/ ((5 <= List.length row)%nat
      /\ exists n, livro_valido r n
         /\ a' = {| Web.transacao := com_novos [n] (Web.transacao a);
                    Web.importados := Web.importados a + 1;
                    Web.erros := Web.erros a |}).
Proof.
  unfold Web.importa_linha. intros H.
  destruct (5 <=? List.length row)%nat eqn:Hn.
  - apply Nat.leb_le in Hn. right.
    por_casos H; try discriminate; injection H as <-;
      try (left; split; [exact Hn|]; eexists; split; [|reflexivity]; reflexivity).
    right. split; [exact Hn|].
    match goal with
    | Hi : INSERT _ _ _ _ _ = Retorna _ |- _ =>
        apply INSERT_Retorna in Hi; destruct Hi as (_ & -> & _ & Hnan)
    end.
    eexists. split; [|reflexivity].
    match goal with
    | Ha : (_ <? 0) || (_ <? _) = false |- _ =>
        apply orb_false_iff in Ha; destruct Ha as [Ha1 Ha2];
        apply Z.ltb_ge in Ha1; apply Z.ltb_ge in Ha2
    end.
    unfold livro_valido. cbn [ano_publicacao preco].
    repeat split; auto; now apply REAL_valido.
  - apply Nat.leb_gt in Hn. injection H as <-. left. now split.
Qed.

Lemma web_importa_linhas_efeito {amb : Ambiente} (r : relogio)
    (rows : list (list string)) :
  forall (idx : Z) (a a' : Web.acumulado),
    Web.importa_linhas r idx rows a = Retorna a' ->
    exists ns es,
      a' = {| Web.transacao := com_novos ns (Web.transacao a);
              Web.importados := Web.importados a + Z.of_nat (List.length ns);
              Web.erros := Web.erros a ++ es |}
      /\ Forall (livro_valido r) ns
      /\ (List.length ns + List.length es =
          List.length (filter (fun row => 5 <=? List.length row)%nat rows))%nat
      /\ StronglySorted Z.lt (map Web.linha_do_erro es)
      /\ Forall (fun e => idx <= Web.linha_do_erro e
                          < idx + Z.of_nat (List.length rows)) es.
Proof.
  induction rows as [|row rows IH]; intros idx a a' H.
  - injection H as <-. exists [], []. rewrite com_novos_nil, app_nil_r.
    destruct a. simpl. rewrite Z.add_0_r.
    repeat split; constructor.
  - cbn [Web.importa_linhas] in H.
    destruct (Web.importa_linha r idx row a) as [a1|e] eqn:Hrow; [|discriminate].
    apply IH in H. destruct H as (ns & es & -> & Hval & Hlen & Hsort & Hlin).
    assert (Hlin' : Forall (fun e => idx < Web.linha_do_erro e
                              < idx + Z.of_nat (List.length (row :: rows))) es).
    { eapply Forall_impl; [|exact Hlin]. cbn [List.length]. intros e0. lia. }
    apply web_importa_linha_efeito in Hrow.
    destruct Hrow as [[Hc ->] | [[Hc (e & He & ->)] | [Hc (n & Hn & ->)]]].
    + exists ns, es. cbn [filter].
      replace (5 <=? List.length row)%nat with false
        by (symmetry; now apply Nat.leb_gt).
      repeat split; auto.
      eapply Forall_impl; [|exact Hlin']. intros e0; cbn [List.length]; lia.
    + exists ns, (e :: es). cbn [filter].
      replace (5 <=? List.length row)%nat with true
        by (symmetry; now apply Nat.leb_le).
      cbn [Web.com_erro Web.transacao Web.importados Web.erros List.length map].
      rewrite <- app_assoc. repeat split; auto.
      * lia.
      * constructor; [exact Hsort|]. rewrite He.
        apply Forall_map. eapply Forall_impl; [|exact Hlin'].
        intros e0; cbn [List.length]; lia.
      * constructor.
        -- rewrite He. cbn [List.length] in *. lia.
        -- eapply Forall_impl; [|exact Hlin']. intros e0; cbn [List.length]; lia.
    + exists (n :: ns), es. cbn [filter].
      replace (5 <=? List.length row)%nat with true
        by (symmetry; now apply Nat.leb_le).
      cbn [Web.transacao Web.importados Web.erros].
      change (n :: ns) with ([n] ++ ns). rewrite com_novos_app.
      repeat split; auto.
      * f_equal. rewrite length_app. cbn [List.length]. lia.
      * apply Forall_app. split; [now constructor|exact Hval].
      * rewrite length_app. cbn [List.length] in *. lia.
      * eapply Forall_impl; [|exact Hlin']. intros e0; cbn [List.length]; lia.
Qed.

(** Whatever the request and whatever its answer, the table afterwards is
    the table before under one of the four effects. *)
Lemma atende_efeito {amb : Ambiente} (r : relogio) (p : Web.pedido)
    (s : sistema) :
  efeito r (db s) (db (snd (Web.atende r p s))).
Proof.
  destruct (Web.atende r p s) as [resp s'] eqn:Heq. simpl.
  destruct p as [dados|i dados|i|file]; simpl in Heq.
  - unfold Web.adicionar_livro, Web.tenta, bind, puro, ret, modifica, le in Heq.
    por_casos Heq; injection Heq as <- <-; try apply efeito_nenhum.
    cbn [commit db snd].
    match goal with
    | Hi : INSERT_valores _ _ _ _ _ = Retorna ?x |- _ =>
        destruct x as [i0 b0];
        apply INSERT_valores_Retorna in Hi;
        destruct Hi as (tit & aut & _ & Hb & Hnan)
    end.
    cbn [fazer_backup db] in Hb. cbn [snd]. rewrite Hb.
    apply efeito_insere. constructor; [|constructor].
    match goal with
    | Ha : (_ <? 0) || (_ <? _) = false |- _ =>
        apply orb_false_iff in Ha; destruct Ha as [Ha1 Ha2];
        apply Z.ltb_ge in Ha1; apply Z.ltb_ge in Ha2
    end.
    unfold livro_valido. cbn [ano_publicacao preco].
    repeat split; auto; now apply REAL_valido.
  - unfold Web.atualizar_preco, Web.tenta, bind, puro, ret, modifica, le in Heq.
    por_casos Heq; injection Heq as <- <-; try apply efeito_nenhum.
    cbn [commit db].
    match goal with
    | Hs : SELECT_id _ _ = Some _, Hu : UPDATE_preco _ _ _ = Retorna _ |- _ =>
        destruct (UPDATE_preco_Retorna _ _ _ _ _ Hs Hu) as [Hnan ->]
    end.
    cbn [fazer_backup db]. now apply efeito_atualiza; apply REAL_valido.
  - unfold Web.remover_livro, Web.tenta, bind, puro, ret, modifica, le in Heq.
    por_casos Heq; injection Heq as <- <-; try apply efeito_nenhum.
    cbn [commit db fazer_backup]. apply efeito_remove.
  - unfold Web.importar_csv, Web.tenta, bind, puro, ret, modifica, le,
      Web.commit_importacao in Heq.
    por_casos Heq; injection Heq as <- <-; try apply efeito_nenhum.
    cbn [commit db].
    match goal with
    | Hi : Web.importa_linhas _ _ _ _ = Retorna _ |- _ =>
        apply web_importa_linhas_efeito in Hi;
        destruct Hi as (ns & es & -> & Hval & _)
    end.
    cbn [Web.transacao fazer_backup db]. now apply efeito_insere.
Qed.

(** X1. A request of the HTTP variant that is not answered with a success
    (201 for an addition, 200 for an update or a removal, 200 with at least
    one row imported for an import) leaves the database file as it was:
    the same table, counter and modification time. Refusals, missing
    books and exceptions, also those raised after the backup or in the
    middle of an import, never change a row. *)
Theorem pedido_sem_sucesso_nao_altera {amb : Ambiente} (r : relogio)
    (p : Web.pedido) (s : sistema) :
  Web.mutou (fst (Web.atende r p s)) = false ->
  db (snd (Web.atende r p s)) = db s
  /\ db_mtime (snd (Web.atende r p s)) = db_mtime s
  /\ livros_exportados (snd (Web.atende r p s)) = livros_exportados s.
Proof.
  destruct (Web.atende r p s) as [resp s'] eqn:Heq. simpl.
  intros Hmutou. destruct p as [dados|i dados|i|file]; simpl in Heq.
  - unfold Web.adicionar_livro, Web.tenta, bind, puro, ret, modifica, le in Heq.
    por_casos Heq; injection Heq as <- <-; try discriminate; now repeat split.
  - unfold Web.atualizar_preco, Web.tenta, bind, puro, ret, modifica, le in Heq.
    por_casos Heq; injection Heq as <- <-; try discriminate; now repeat split.
  - unfold Web.remover_livro, Web.tenta, bind, puro, ret, modifica, le in Heq.
    por_casos Heq; injection Heq as <- <-; try discriminate; now repeat split.
  - unfold Web.importar_csv, Web.tenta, bind, puro, ret, modifica, le,
      Web.commit_importacao in Heq.
    por_casos Heq; injection Heq as <- <-; try discriminate;
      try (now repeat split).
    unfold Web.mutou in Hmutou. simpl in Hmutou. congruence.
Qed.

Lemma pedido_sem_sucesso_exemplo :
  db (snd (Web.atende (amb := Exemplo.decimal) Amostras.agora_5
             (Web.DELETE_livros 7) Exemplo.loja_10_30_110)) =
  db Exemplo.loja_10_30_110.
Proof.
  exact (proj1 (@pedido_sem_sucesso_nao_altera Exemplo.decimal
                  Amostras.agora_5 (Web.DELETE_livros 7)
                  Exemplo.loja_10_30_110 eq_refl)).
Defined.

(** X2. A method of the command-line variant that does not return [True]
    ([adicionar_livro], [atualizar_preco], [remover_livro] or
    [importar_de_csv], whether it returns [False] or raises) leaves the
    table as it was; in particular an import that raises half-way has
    inserted nothing, since its transaction is never committed. *)
Theorem metodo_sem_sucesso_nao_altera {amb : Ambiente} (r : relogio)
    (t : Cli.terminal) :
  (forall titulo autor ano preco,
      fst (Cli.adicionar_livro r titulo autor ano preco t) <> Retorna true ->
      db (Cli.arquivos (snd (Cli.adicionar_livro r titulo autor ano preco t)))
        = db (Cli.arquivos t))
  /\ (forall id_livro novo_preco,
      fst (Cli.atualizar_preco r id_livro novo_preco t) <> Retorna true ->
      db (Cli.arquivos (snd (Cli.atualizar_preco r id_livro novo_preco t)))
        = db (Cli.arquivos t))
  /\ (forall id_livro,
      fst (Cli.remover_livro r id_livro t) <> Retorna true ->
      db (Cli.arquivos (snd (Cli.remover_livro r id_livro t)))
        = db (Cli.arquivos t))
  /\ (forall caminho_csv,
      fst (Cli.importar_de_csv r caminho_csv t) <> Retorna true ->
      db (Cli.arquivos (snd (Cli.importar_de_csv r caminho_csv t)))
        = db (Cli.arquivos t)).
Proof.
  repeat apply conj.
  - intros titulo autor ano preco.
    destruct (Cli.adicionar_livro r titulo autor ano preco t) as [d t'] eqn:Heq.
    simpl. intros Hd.
    unfold Cli.adicionar_livro, Cli._fazer_backup, Cli.print, Cli.nos_arquivos,
      bind, puro, ret, modifica, le in Heq.
    por_casos Heq; injection Heq as <- <-; try reflexivity; now contradiction Hd.
  - intros id_livro novo_preco.
    destruct (Cli.atualizar_preco r id_livro novo_preco t) as [d t'] eqn:Heq.
    simpl. intros Hd.
    unfold Cli.atualizar_preco, Cli._fazer_backup, Cli.print, Cli.nos_arquivos,
      bind, puro, ret, modifica, le in Heq.
    por_casos Heq; injection Heq as <- <-; try reflexivity; now contradiction Hd.
  - intros id_livro.
    destruct (Cli.remover_livro r id_livro t) as [d t'] eqn:Heq.
    simpl. intros Hd.
    unfold Cli.remover_livro, Cli._fazer_backup, Cli.print, Cli.nos_arquivos,
      bind, puro, ret, modifica, le in Heq.
    por_casos Heq; injection Heq as <- <-; try reflexivity; now contradiction Hd.
  - intros caminho_csv.
    destruct (Cli.importar_de_csv r caminho_csv t) as [d t'] eqn:Heq.
    simpl. intros Hd.
    unfold Cli.importar_de_csv, Cli._fazer_backup, Cli.print, Cli.nos_arquivos,
      bind, puro, ret, modifica, le in Heq.
    por_casos Heq; injection Heq as <- <-; try reflexivity; now contradiction Hd.
Qed.

Lemma metodo_sem_sucesso_exemplo :
  db (Cli.arquivos
        (snd (Cli.adicionar_livro (amb := Exemplo.decimal) Amostras.agora_5
                "T" "A" "3000" "10" Amostras.terminal_da_loja))) =
  db Exemplo.loja_10_30_110.
Proof.
  apply (proj1 (@metodo_sem_sucesso_nao_altera Exemplo.decimal
                  Amostras.agora_5 Amostras.terminal_da_loja)
           "T"%string "A"%string "3000"%string "10"%string).
  intros H. vm_compute in H. discriminate H.
Defined.

(** ** The ids of the table *)

Lemma renumera_ids (ns : list livro) : forall seq,
  StronglySorted Z.lt (map id (renumera seq ns))
  /\ Forall (fun i => seq < i <= seq + Z.of_nat (List.length ns))
       (map id (renumera seq ns)).
Proof.
  induction ns as [|n ns IH]; intros seq; cbn [renumera map List.length].
  - split; constructor.
  - destruct (IH (seq + 1)) as [Hs Hf]. split.
    + constructor; [exact Hs|]. cbn [id].
      eapply Forall_impl; [|exact Hf]. intros i; cbn beta; lia.
    + constructor; [cbn [id]; lia|].
      eapply Forall_impl; [|exact Hf]. intros i; cbn beta; lia.
Qed.

Lemma StronglySorted_lt_app (l1 l2 : list Z) :
  StronglySorted Z.lt l1 -> StronglySorted Z.lt l2 ->
  (forall x y, In x l1 -> In y l2 -> x < y) ->
  StronglySorted Z.lt (l1 ++ l2).
Proof.
  induction l1 as [|x l1 IH]; intros H1 H2 H; [exact H2|].
  apply StronglySorted_inv in H1. destruct H1 as [H1 Hx].
  cbn [app]. constructor.
  - apply IH; auto. intros a b Ha Hb. apply H; [now right|exact Hb].
  - apply Forall_app. split; [exact Hx|].
    apply Forall_forall. intros y Hy. apply H; [now left|exact Hy].
Qed.

Lemma StronglySorted_lt_filter (p : livro -> bool) (ls : list livro) :
  StronglySorted Z.lt (map id ls) ->
  StronglySorted Z.lt (map id (filter p ls)).
Proof.
  induction ls as [|l ls IH]; intros H; [constructor|].
  cbn [map] in H. apply StronglySorted_inv in H. destruct H as [H Hl].
  cbn [filter]. destruct (p l); [|now apply IH].
  cbn [map]. constructor; [now apply IH|].
  rewrite Forall_forall in *. intros i Hi. apply Hl.
  apply in_map_iff in Hi. destruct Hi as (x & <- & Hx).
  apply filter_In in Hx. apply in_map. tauto.
Qed.

Lemma map_id_com_preco (i : Z) (p : float) (ls : list livro) :
  map id (map (fun l => if id l =? i then com_preco p l else l) ls) = map id ls.
Proof.
  induction ls as [|l ls IH]; [reflexivity|]. cbn [map]. rewrite IH.
  destruct (id l =? i); reflexivity.
Qed.

Lemma efeito_ids (r : relogio) (b b' : banco) :
  efeito r b b' -> ids_em_ordem b ->
  ids_em_ordem b'
  /\ sequencia b <= sequencia b'
  /\ (forall i, In i (map id (livros b')) ->
        In i (map id (livros b)) \/ sequencia b < i).
Proof.
  intros He [Hs Hf]. destruct He as [|ns Hns|i p Hp Hnan|i].
  - repeat split; auto; lia.
  - destruct (renumera_ids ns (sequencia b)) as [Hrs Hrf].
    rewrite Forall_forall in Hrf.
    unfold ids_em_ordem, com_novos. cbn [livros sequencia].
    rewrite map_app. repeat split.
    + apply StronglySorted_lt_app; auto.
      intros x y Hx Hy. apply Hrf in Hy.
      apply in_map_iff in Hx. destruct Hx as (l & <- & Hl).
      rewrite Forall_forall in Hf. specialize (Hf l Hl). lia.
    + apply Forall_app. split.
      * eapply Forall_impl; [|exact Hf]. intros l; cbn beta; lia.
      * apply Forall_forall. intros l Hl.
        specialize (Hrf (id l) (in_map id _ _ Hl)). lia.
    + lia.
    + intros i Hi. apply in_app_or in Hi. destruct Hi as [Hi|Hi]; [now left|].
      right. apply Hrf in Hi. lia.
  - unfold ids_em_ordem. cbn [livros sequencia].
    rewrite map_id_com_preco. repeat split; auto; [|lia].
    apply Forall_map. eapply Forall_impl; [|exact Hf].
    intros l Hl. cbn beta. destruct (id l =? i); exact Hl.
  - unfold ids_em_ordem, DELETE_id. cbn [livros sequencia]. repeat split.
    + now apply StronglySorted_lt_filter.
    + apply Forall_forall. intros l Hl. apply filter_In in Hl.
      rewrite Forall_forall in Hf. now apply Hf.
    + lia.
    + intros j Hj. left. apply in_map_iff in Hj.
      destruct Hj as (l & <- & Hl). apply filter_In in Hl.
      apply in_map. tauto.
Qed.

(** X3. The ids of the HTTP variant are never reused. If the ids of the
    table are in increasing order and none exceeds the AUTOINCREMENT
    counter, the same holds after any request, whatever its answer; the
    counter never goes down; and an id that is in the table afterwards
    either was there before or is above the counter as it was, hence
    above every id ever given out, removed books included. *)
Theorem ids_nunca_reutilizados {amb : Ambiente} (r : relogio)
    (p : Web.pedido) (s : sistema) :
  ids_em_ordem (db s) ->
  ids_em_ordem (db (snd (Web.atende r p s)))
  /\ sequencia (db s) <= sequencia (db (snd (Web.atende r p s)))
  /\ (forall i, In i (map id (livros (db (snd (Web.atende r p s))))) ->
        In i (map id (livros (db s))) \/ sequencia (db s) < i).
Proof. apply efeito_ids with (r := r). apply atende_efeito. Qed.

Lemma ids_nunca_reutilizados_exemplo :
  ids_em_ordem
    (db (snd (Web.atende (amb := Exemplo.decimal) Amostras.agora_5
                (Web.POST_livros Amostras.iracema) Exemplo.loja_10_30_110))).
Proof.
  apply (@ids_nunca_reutilizados Exemplo.decimal Amostras.agora_5
           (Web.POST_livros Amostras.iracema) Exemplo.loja_10_30_110).
  unfold ids_em_ordem. simpl. split; repeat constructor; simpl; lia.
Defined.

Lemma atende_todos_ids {amb : Ambiente} (ps : list (relogio * Web.pedido)) :
  forall s,
    ids_em_ordem (db s) ->
    ids_em_ordem (db (snd (Web.atende_todos ps s)))
    /\ sequencia (db s) <= sequencia (db (snd (Web.atende_todos ps s))).
Proof.
  induction ps as [|[r p] ps IH]; intros s Hs; [split; [exact Hs|cbn; lia]|].
  cbn [Web.atende_todos fst snd].
  pose proof (atende_efeito r p s) as He.
  destruct (Web.atende r p s) as [resp s1]. cbn [snd] in He.
  destruct (efeito_ids r _ _ He Hs) as (Hs1 & Hseq & _).
  specialize (IH s1 Hs1).
  destruct (Web.atende_todos ps s1) as [resps s2]. cbn [snd] in *.
  split; [tauto|lia].
Qed.

(** X4. GET /api/livros lists the books in increasing id order, each id
    once. The handler asks for [ORDER BY id]; the table of the model is
    kept in that order, and it stays so through any run of requests: after
    any list of requests served from a table whose ids are in order, the
    listing is strictly sorted by id, without repetition, and no listed id
    exceeds the counter. *)
Theorem listagem_em_ordem_de_id {amb : Ambiente}
    (ps : list (relogio * Web.pedido)) (s : sistema) :
  ids_em_ordem (db s) ->
  let s' := snd (Web.atende_todos ps s) in
  StronglySorted Z.lt (map id (Web.livros_de (Web.listar_livros s')))
  /\ NoDup (map id (Web.livros_de (Web.listar_livros s')))
  /\ Forall (fun l => id l <= sequencia (db s'))
       (Web.livros_de (Web.listar_livros s'))
  /\ sequencia (db s) <= sequencia (db s').
Proof.
  intros Hs s'. destruct (atende_todos_ids ps s Hs) as [[Hsort Hf] Hseq].
  fold s' in Hsort, Hf, Hseq.
  cbn [Web.listar_livros Web.livros_de Web.corpo_json].
  repeat split; auto.
  clear Hf. induction Hsort as [|x l Hl IH Hx]; constructor; auto.
  intros Hin. rewrite Forall_forall in Hx. specialize (Hx x Hin). lia.
Qed.

Lemma listagem_em_ordem_de_id_exemplo :
  StronglySorted Z.lt
    (map id
       (Web.livros_de
          (Web.listar_livros
             (snd (Web.atende_todos (amb := Exemplo.decimal)
                     Exemplo.seis_pedidos Exemplo.loja_10_30_110))))).
Proof.
  apply (@listagem_em_ordem_de_id Exemplo.decimal Exemplo.seis_pedidos
           Exemplo.loja_10_30_110).
  unfold ids_em_ordem. simpl. split; repeat constructor; simpl; lia.
Defined.

(** ** Only valid books through the HTTP variant *)

Lemma renumera_validos (r : relogio) (ns : list livro) : forall seq,
  Forall (livro_valido r) ns -> Forall (livro_valido r) (renumera seq ns).
Proof.
  induction ns as [|n ns IH]; intros seq H; [constructor|].
  apply Forall_cons_iff in H. destruct H as [Hn Hns].
  cbn [renumera]. constructor; [exact Hn|now apply IH].
Qed.

Lemma efeito_validos (r : relogio) (b b' : banco) :
  efeito r b b' ->
  Forall (livro_valido r) (livros b) -> Forall (livro_valido r) (livros b').
Proof.
  intros He Hb. destruct He as [|ns Hns|i p Hp Hnan|i].
  - exact Hb.
  - unfold com_novos. cbn [livros]. apply Forall_app.
    split; [exact Hb|now apply renumera_validos].
  - cbn [livros]. apply Forall_map. eapply Forall_impl; [|exact Hb].
    intros l (Hano & Hpreco & Hn). cbn beta.
    destruct (id l =? i); [|now repeat split].
    unfold livro_valido, com_preco. cbn [ano_publicacao preco]. auto.
  - unfold DELETE_id. cbn [livros]. apply Forall_forall. intros l Hl.
    apply filter_In in Hl. rewrite Forall_forall in Hb. now apply Hb.
Qed.

Lemma livro_valido_depois (r r' : relogio) (l : livro) :
  ano_atual r <= ano_atual r' -> livro_valido r l -> livro_valido r' l.
Proof.
  unfold livro_valido. intros H (Ha & Hp & Hn). repeat split; auto; lia.
Qed.

(** X5. Through the HTTP variant only valid books get into the table. If
    every stored book has a year between 0 and the year of the clock [fim]
    and a price that is a number and not negative, then so has every book
    stored after any run of requests (additions, price updates, removals,
    CSV imports) served in years up to that of [fim]. *)
Theorem livros_validos_pela_API {amb : Ambiente} (fim : relogio)
    (ps : list (relogio * Web.pedido)) :
  forall s,
    Forall (fun rp => ano_atual (fst rp) <= ano_atual fim) ps ->
    Forall (livro_valido fim) (livros (db s)) ->
    Forall (livro_valido fim) (livros (db (snd (Web.atende_todos ps s)))).
Proof.
  induction ps as [|[r p] ps IH]; intros s Hps Hs; [exact Hs|].
  apply Forall_cons_iff in Hps. destruct Hps as [Hr Hps]. cbn [fst] in Hr.
  cbn [Web.atende_todos fst snd].
  pose proof (atende_efeito r p s) as He.
  destruct (Web.atende r p s) as [resp s1]. cbn [snd] in He.
  specialize (IH s1 Hps).
  destruct (Web.atende_todos ps s1) as [resps s2]. cbn [snd] in *.
  apply IH. clear IH.
  destruct He as [|ns Hns|i p' Hp Hnan|i].
  - exact Hs.
  - apply (efeito_validos fim (db s)); [|exact Hs].
    apply efeito_insere. eapply Forall_impl; [|exact Hns].
    intros l. now apply livro_valido_depois.
  - apply (efeito_validos fim (db s)); [|exact Hs]. now apply efeito_atualiza.
  - apply (efeito_validos fim (db s)); [|exact Hs]. apply efeito_remove.
Qed.

Lemma livros_validos_pela_API_exemplo :
  Forall (livro_valido Amostras.agora_5)
    (livros (db (snd (Web.atende_todos (amb := Exemplo.decimal)
                        Exemplo.seis_pedidos Exemplo.instalacao)))).
Proof.
  apply (@livros_validos_pela_API Exemplo.decimal Amostras.agora_5
           Exemplo.seis_pedidos Exemplo.instalacao).
  - repeat constructor; simpl; lia.
  - constructor.
Defined.

(** ** Adding, updating and removing a book *)

Lemma cabe_int64_entre (y hi : Z) :
  0 <= y <= hi -> hi < 2 ^ 63 -> cabe_int64 y = true.
Proof.
  intros Hy Hhi. unfold cabe_int64. apply andb_true_iff.
  split; [apply Z.leb_le|apply Z.ltb_lt]; lia.
Qed.

Lemma ano_no_intervalo (r : relogio) (y : Z) :
  0 <= y <= ano_atual r -> (y <? 0) || (ano_atual r <? y) = false.
Proof. intros H. apply orb_false_iff. split; apply Z.ltb_ge; lia. Qed.

(** POST /api/livros with text for title and author and a year and a
    price that pass validation. *)
Lemma web_adiciona_valido {amb : Ambiente} (r : relogio) (dados vy vp : valor)
    (t a : string) (y : Z) (p : float) (s : sistema) :
  subscript dados "titulo" = Retorna (VStr t) ->
  subscript dados "autor" = Retorna (VStr a) ->
  subscript dados "ano_publicacao" = Retorna vy -> py_int vy = Retorna y ->
  subscript dados "preco" = Retorna vp -> py_float vp = Retorna p ->
  0 <= y <= ano_atual r -> ano_atual r < 2 ^ 63 ->
  (p <? 0)%float = false -> is_nan p = false ->
  Web.adicionar_livro r dados s =
  (Web.mk_resposta 201
     (Web.CLivroCriado (sequencia (db s) + 1) (VStr t) (VStr a) y p),
   commit r (com_novos [mk_livro 0 t a y (REAL p)] (db s))
     (fazer_backup r s)).
Proof.
  intros Ht Ha Hvy Hiy Hvp Hfp Hy Hr Hp Hnan.
  unfold Web.adicionar_livro, Web.tenta, bind, puro, ret, modifica, le.
  rewrite Ht, Ha, Hvy, Hiy, Hvp, Hfp, (ano_no_intervalo r y Hy), Hp.
  unfold INSERT_valores, INSERT. cbn [vincula coluna_texto].
  cbn [fazer_backup db]. rewrite (cabe_int64_entre y _ Hy Hr), Hnan.
  reflexivity.
Qed.

(** DELETE /api/livros/<id> of a book that is there. *)
Lemma web_remove_existente (r : relogio) (i : Z) (l : livro) (s : sistema) :
  SELECT_id i (db s) = Some l -> cabe_int64 i = true ->
  Web.remover_livro r i s =
  (Web.mk_resposta 200 (Web.CMensagem "Livro removido com sucesso!"),
   commit r (DELETE_id i (db s)) (fazer_backup r s)).
Proof.
  intros Hl Hi.
  unfold Web.remover_livro, Web.tenta, bind, puro, ret, modifica, le.
  rewrite Hi. cbn [negb fazer_backup db]. now rewrite Hl.
Qed.

Lemma find_id_map (f : livro -> livro) (j : Z) (ls : list livro) :
  (forall l, id (f l) = id l) ->
  find (fun l => id l =? j) (map f ls) =
  option_map f (find (fun l => id l =? j) ls).
Proof.
  intros Hf. induction ls as [|l ls IH]; [reflexivity|].
  cbn [map find]. rewrite Hf. destruct (id l =? j); [reflexivity|exact IH].
Qed.

Lemma find_id_filter (i j : Z) (ls : list livro) :
  find (fun l => id l =? j) (filter (fun l => negb (id l =? i)) ls) =
  if j =? i then None else find (fun l => id l =? j) ls.
Proof.
  induction ls as [|l ls IH]; [now destruct (j =? i)|].
  cbn [filter find]. destruct (id l =? i) eqn:Hi; cbn [negb].
  - rewrite IH. destruct (j =? i) eqn:Hj; [reflexivity|].
    apply Z.eqb_eq in Hi. rewrite Hi.
    replace (i =? j) with false by (symmetry; rewrite Z.eqb_sym; exact Hj).
    reflexivity.
  - cbn [find]. destruct (id l =? j) eqn:Hl.
    + apply Z.eqb_eq in Hl. rewrite <- Hl, Hi. reflexivity.
    + exact IH.
Qed.

Lemma find_id_novo (ls : list livro) (n : livro) :
  Forall (fun l => id l < id n) ls ->
  find (fun l => id l =? id n) (ls ++ [n]) = Some n.
Proof.
  induction 1 as [|l ls Hl Hls IH]; cbn [app find].
  - now rewrite Z.eqb_refl.
  - replace (id l =? id n) with false by (symmetry; apply Z.eqb_neq; lia).
    exact IH.
Qed.

Lemma filter_app_novo (ls : list livro) (n : livro) :
  Forall (fun l => id l < id n) ls ->
  filter (fun l => negb (id l =? id n)) (ls ++ [n]) = ls.
Proof.
  intros H. rewrite filter_app. cbn [filter]. rewrite Z.eqb_refl.
  cbn [negb]. rewrite app_nil_r. apply forallb_filter_id.
  apply forallb_forall. intros l Hl. rewrite Forall_forall in H.
  specialize (H l Hl). apply negb_true_iff, Z.eqb_neq. lia.
Qed.

(** The lookups after [UPDATE livros SET preco = ? WHERE id = ?]. *)
Lemma SELECT_id_atualizado (i : Z) (p : float) (l : livro) (b : banco) :
  SELECT_id i b = Some l ->
  let b' := {| livros := map (fun x => if id x =? i then com_preco p x else x)
                           (livros b);
               sequencia := sequencia b |} in
  SELECT_id i b' = Some (com_preco p l)
  /\ (forall j, j <> i -> SELECT_id j b' = SELECT_id j b).
Proof.
  intros Hl b'.
  assert (Hid : forall x, id (if id x =? i then com_preco p x else x) = id x)
    by (intros x; destruct (id x =? i); reflexivity).
  unfold SELECT_id, b' in *. cbn [livros]. split.
  - rewrite (find_id_map _ _ _ Hid), Hl.
    cbn [option_map]. apply find_some in Hl. destruct Hl as [_ Hl].
    now rewrite Hl.
  - intros j Hj. rewrite (find_id_map _ _ _ Hid).
    destruct (find (fun l0 => id l0 =? j) (livros b)) as [x|] eqn:Hx;
      [|reflexivity].
    cbn [option_map]. apply find_some in Hx. destruct Hx as [_ Hx].
    apply Z.eqb_eq in Hx.
    replace (id x =? i) with false by (symmetry; apply Z.eqb_neq; lia).
    reflexivity.
Qed.

(** The lookups after [DELETE FROM livros WHERE id = ?]. *)
Lemma SELECT_id_removido (i : Z) (b : banco) :
  SELECT_id i (DELETE_id i b) = None
  /\ (forall j, j <> i -> SELECT_id j (DELETE_id i b) = SELECT_id j b).
Proof.
  unfold SELECT_id, DELETE_id. cbn [livros]. split.
  - now rewrite find_id_filter, Z.eqb_refl.
  - intros j Hj. rewrite find_id_filter.
    now replace (j =? i) with false by (symmetry; apply Z.eqb_neq; lia).
Qed.

(** X6. [adicionar_livro] on valid input inserts exactly one book. With a
    year between 0 and the current year and a price that is a number and
    not negative, POST /api/livros (title and author given as text) is
    answered 201 with the next value of the counter as id, and the method
    of the command-line variant returns [True]; in both, the files
    afterwards are those of a backup of the files before followed by the
    commit of the table with the one new row at its end, the rows before
    untouched. The row holds the price as the column [preco] stores it
    ([REAL]: the given price, and 0.0 for -0.0), while the answer gives
    the price of the request. *)
Theorem adicionar_livro_insere {amb : Ambiente} (r : relogio)
    (t a : string) (y : Z) (p : float) :
  0 <= y <= ano_atual r -> ano_atual r < 2 ^ 63 ->
  (p <? 0)%float = false -> is_nan p = false ->
  (forall dados vy vp s,
      subscript dados "titulo" = Retorna (VStr t) ->
      subscript dados "autor" = Retorna (VStr a) ->
      subscript dados "ano_publicacao" = Retorna vy -> py_int vy = Retorna y ->
      subscript dados "preco" = Retorna vp -> py_float vp = Retorna p ->
      Web.adicionar_livro r dados s =
      (Web.mk_resposta 201
         (Web.CLivroCriado (sequencia (db s) + 1) (VStr t) (VStr a) y p),
       commit r
         {| livros := livros (db s)
                        ++ [mk_livro (sequencia (db s) + 1) t a y (REAL p)];
            sequencia := sequencia (db s) + 1 |}
         (fazer_backup r s)))
  /\ (forall ano preco term,
      py_int_str ano = Some y -> py_float_str preco = Some p ->
      exists term',
        Cli.adicionar_livro r t a ano preco term = (Retorna true, term')
        /\ Cli.arquivos term' =
             commit r
               {| livros := livros (db (Cli.arquivos term))
                    ++ [mk_livro (sequencia (db (Cli.arquivos term)) + 1)
                          t a y (REAL p)];
                  sequencia := sequencia (db (Cli.arquivos term)) + 1 |}
               (fazer_backup r (Cli.arquivos term))
        /\ In (Cli.MLivroAdicionado t) (Cli.saida term')).
Proof.
  intros Hy Hr Hp Hnan. split.
  - intros dados vy vp s Ht Ha Hvy Hiy Hvp Hfp.
    now rewrite (web_adiciona_valido r dados vy vp t a y p s).
  - intros ano preco term Hiy Hfp.
    unfold Cli.adicionar_livro, Cli._fazer_backup, Cli.print, Cli.nos_arquivos,
      bind, puro, ret, modifica, le.
    rewrite Hiy, Hfp, (ano_no_intervalo r y Hy), Hp. unfold INSERT.
    cbn [Cli.arquivos fazer_backup db].
    rewrite (cabe_int64_entre y _ Hy Hr), Hnan.
    eexists. split; [reflexivity|]. split; [reflexivity|].
    cbn [Cli.saida]. apply in_or_app. right. now left.
Qed.

Lemma adicionar_livro_insere_exemplo :
  Web.status
    (fst (Web.adicionar_livro (amb := Exemplo.decimal) Amostras.agora_5
            Amostras.iracema Exemplo.loja_10_30_110)) = 201.
Proof.
  rewrite (proj1 (@adicionar_livro_insere Exemplo.decimal Amostras.agora_5
                    "Iracema" "José de Alencar" 1865 25%float
                    ltac:(simpl; lia) ltac:(simpl; lia) eq_refl eq_refl)
             Amostras.iracema (VInt 1865) (VFloat 25) Exemplo.loja_10_30_110
             eq_refl eq_refl eq_refl eq_refl eq_refl eq_refl).
  reflexivity.
Defined.

(** X7. PUT /api/livros/<id> changes one price and nothing else. For a
    book the table holds and a price that is a number and not negative,
    the answer is 200; looking the id up afterwards gives the same book
    with the new price as the column [preco] stores it ([REAL]: the given
    price, and 0.0 for -0.0), every other id gives what it gave before,
    and the ids and the counter are those of before. *)
Theorem atualizar_preco_altera_um {amb : Ambiente} (r : relogio) (i : Z)
    (dados v : valor) (p : float) (l : livro) (s : sistema) :
  SELECT_id i (db s) = Some l -> cabe_int64 i = true ->
  subscript dados "preco" = Retorna v -> py_float v = Retorna p ->
  (p <? 0)%float = false -> is_nan p = false ->
  let s' := snd (Web.atualizar_preco r i dados s) in
  fst (Web.atualizar_preco r i dados s) =
    Web.mk_resposta 200 (Web.CMensagem "Preço atualizado com sucesso!")
  /\ SELECT_id i (db s') = Some (com_preco (REAL p) l)
  /\ (forall j, j <> i -> SELECT_id j (db s') = SELECT_id j (db s))
  /\ map id (livros (db s')) = map id (livros (db s))
  /\ sequencia (db s') = sequencia (db s).
Proof.
  intros Hl Hi Hv Hf Hp Hnan.
  assert (He : existsb (fun l => id l =? i) (livros (db s)) = true).
  { apply existsb_exists. apply find_some in Hl. now exists l. }
  assert (Heq : Web.atualizar_preco r i dados s =
    (Web.mk_resposta 200 (Web.CMensagem "Preço atualizado com sucesso!"),
     commit r
       {| livros := map (fun l => if id l =? i then com_preco (REAL p) l
                                  else l)
                      (livros (db s));
          sequencia := sequencia (db s) |}
       (fazer_backup r s))).
  { unfold Web.atualizar_preco, Web.tenta, bind, puro, ret, modifica, le.
    rewrite Hv, Hf, Hp, Hi. cbn [negb fazer_backup db]. rewrite Hl.
    unfold UPDATE_preco. rewrite Hnan. reflexivity. }
  rewrite Heq. cbn [fst snd commit db].
  destruct (SELECT_id_atualizado i (REAL p) l (db s) Hl) as [Hi' Hj'].
  repeat split; auto.
  cbn [livros]. apply map_id_com_preco.
Qed.

Lemma atualizar_preco_altera_um_exemplo :
  SELECT_id 2
    (db (snd (Web.atualizar_preco (amb := Exemplo.decimal) Amostras.agora_5 2
                (VDict [("preco"%string, VFloat 35)])
                Exemplo.loja_10_30_110))) =
  Some (mk_livro 2 "Vidas Secas" "Graciliano Ramos" 1938 35).
Proof.
  exact (proj1 (proj2
    (@atualizar_preco_altera_um Exemplo.decimal Amostras.agora_5 2
       (VDict [("preco"%string, VFloat 35)]) (VFloat 35) 35%float
       (mk_livro 2 "Vidas Secas" "Graciliano Ramos" 1938 30)
       Exemplo.loja_10_30_110
       eq_refl eq_refl eq_refl eq_refl eq_refl eq_refl))).
Defined.

(** X8. DELETE /api/livros/<id> removes the book and only it. For a book
    the table holds the answer is 200; afterwards the id is not found,
    every other id gives what it gave before and the counter is
    unchanged; removing the same id once more is answered 404 and changes
    no row. *)
Theorem remover_livro_remove (r r' : relogio) (i : Z)
    (l : livro) (s : sistema) :
  SELECT_id i (db s) = Some l -> cabe_int64 i = true ->
  let s' := snd (Web.remover_livro r i s) in
  fst (Web.remover_livro r i s) =
    Web.mk_resposta 200 (Web.CMensagem "Livro removido com sucesso!")
  /\ SELECT_id i (db s') = None
  /\ (forall j, j <> i -> SELECT_id j (db s') = SELECT_id j (db s))
  /\ sequencia (db s') = sequencia (db s)
  /\ fst (Web.remover_livro r' i s') =
       Web.mk_resposta 404 (Web.CErro "Livro não encontrado")
  /\ db (snd (Web.remover_livro r' i s')) = db s'.
Proof.
  intros Hl Hi.
  rewrite (web_remove_existente r i l s Hl Hi). cbn [fst snd commit db].
  destruct (SELECT_id_removido i (db s)) as [Hnone Houtros].
  assert (H404 : Web.remover_livro r' i
                   (commit r (DELETE_id i (db s)) (fazer_backup r s)) =
    (Web.mk_resposta 404 (Web.CErro "Livro não encontrado"),
     fazer_backup r' (commit r (DELETE_id i (db s)) (fazer_backup r s)))).
  { unfold Web.remover_livro, Web.tenta, bind, puro, ret, modifica, le.
    rewrite Hi. cbn [negb fazer_backup commit db]. now rewrite Hnone. }
  rewrite H404. repeat split; auto.
Qed.

Lemma remover_livro_remove_exemplo :
  SELECT_id 2
    (db (snd (Web.remover_livro Amostras.agora_5 2 Exemplo.loja_10_30_110))) =
  None.
Proof.
  exact (proj1 (proj2
    (remover_livro_remove Amostras.agora_5 Amostras.agora_5 2
       (mk_livro 2 "Vidas Secas" "Graciliano Ramos" 1938 30)
       Exemplo.loja_10_30_110 eq_refl eq_refl))).
Defined.

(** X9. Adding a book and removing it again gives back the list of books,
    but not the id. On a table whose ids are in order, after a valid
    POST /api/livros the new book is found under the id of the answer
    (the counter plus one) with the price as the column [preco] stores it
    ([REAL]); DELETE of that id is answered 200 and leaves
    exactly the rows of before the addition, while the counter stays
    advanced, so that the next book gets a larger id. *)
Theorem adicionar_depois_remover {amb : Ambiente} (r r' : relogio)
    (dados vy vp : valor) (t a : string) (y : Z) (p : float) (s : sistema) :
  ids_em_ordem (db s) ->
  subscript dados "titulo" = Retorna (VStr t) ->
  subscript dados "autor" = Retorna (VStr a) ->
  subscript dados "ano_publicacao" = Retorna vy -> py_int vy = Retorna y ->
  subscript dados "preco" = Retorna vp -> py_float vp = Retorna p ->
  0 <= y <= ano_atual r -> ano_atual r < 2 ^ 63 ->
  (p <? 0)%float = false -> is_nan p = false ->
  cabe_int64 (sequencia (db s) + 1) = true ->
  let i := sequencia (db s) + 1 in
  let s1 := snd (Web.adicionar_livro r dados s) in
  let s2 := snd (Web.remover_livro r' i s1) in
  SELECT_id i (db s1) = Some (mk_livro i t a y (REAL p))
  /\ fst (Web.remover_livro r' i s1) =
       Web.mk_resposta 200 (Web.CMensagem "Livro removido com sucesso!")
  /\ livros (db s2) = livros (db s)
  /\ sequencia (db s2) = i.
Proof.
  intros [_ Hids] Ht Ha Hvy Hiy Hvp Hfp Hy Hr Hp Hnan Hcabe i s1 s2.
  assert (Hs1 : s1 = commit r (com_novos [mk_livro 0 t a y (REAL p)] (db s))
                       (fazer_backup r s)).
  { unfold s1.
    now rewrite (web_adiciona_valido r dados vy vp t a y p s). }
  assert (Hmenores : Forall (fun l => id l < id (mk_livro i t a y (REAL p)))
                       (livros (db s))).
  { eapply Forall_impl; [|exact Hids]. intros l. cbn [id]. unfold i. lia. }
  assert (Hfind : SELECT_id i (db s1) = Some (mk_livro i t a y (REAL p))).
  { rewrite Hs1. unfold SELECT_id, com_novos.
    cbn [commit db livros renumera]. fold i.
    exact (find_id_novo (livros (db s)) (mk_livro i t a y (REAL p))
             Hmenores). }
  assert (Hs2 : s2 = commit r' (DELETE_id i (db s1)) (fazer_backup r' s1)).
  { unfold s2. now rewrite (web_remove_existente r' i _ s1 Hfind Hcabe). }
  split; [exact Hfind|]. split; [|split].
  - now rewrite (web_remove_existente r' i _ s1 Hfind Hcabe).
  - rewrite Hs2, Hs1. unfold DELETE_id, com_novos.
    cbn [commit db livros renumera]. fold i.
    exact (filter_app_novo (livros (db s)) (mk_livro i t a y (REAL p))
             Hmenores).
  - rewrite Hs2, Hs1. unfold DELETE_id, com_novos.
    cbn [commit db sequencia List.length]. unfold i. lia.
Qed.

Lemma adicionar_depois_remover_exemplo :
  livros
    (db (snd (Web.remover_livro Amostras.agora_5 4
                (snd (Web.adicionar_livro (amb := Exemplo.decimal)
                        Amostras.agora_5 Amostras.iracema
                        Exemplo.loja_10_30_110))))) =
  livros (db Exemplo.loja_10_30_110).
Proof.
  refine (proj1 (proj2 (proj2
    (@adicionar_depois_remover Exemplo.decimal Amostras.agora_5
       Amostras.agora_5 Amostras.iracema (VInt 1865) (VFloat 25)
       "Iracema" "José de Alencar" 1865 25%float Exemplo.loja_10_30_110
       _ eq_refl eq_refl eq_refl eq_refl eq_refl eq_refl
       _ _ eq_refl eq_refl eq_refl)))).
  - unfold ids_em_ordem. simpl. split; repeat constructor; simpl; lia.
  - simpl. lia.
  - simpl. lia.
Defined.

(** X10. POST /api/livros with a body that lacks one of the four keys
    ([titulo], [autor], [ano_publicacao], [preco]) is answered 400 (the
    [KeyError] is caught by the handler) and changes no file: no row is
    written and no backup is taken, since the body is read before the
    backup. *)
Theorem campo_ausente_nada_muda {amb : Ambiente} (r : relogio)
    (d : list (string * valor)) (k : string) (s : sistema) :
  In k ["titulo"; "autor"; "ano_publicacao"; "preco"]%string ->
  procura k d = None ->
  Web.status (fst (Web.adicionar_livro r (VDict d) s)) = 400
  /\ snd (Web.adicionar_livro r (VDict d) s) = s.
Proof.
  intros Hk Hd.
  unfold Web.adicionar_livro, Web.tenta, bind, puro, ret, modifica, le.
  cbn [subscript].
  destruct Hk as [<-|[<-|[<-|[<-|[]]]]].
  - rewrite Hd. now split.
  - destruct (procura "titulo" d); [|now split]. rewrite Hd. now split.
  - destruct (procura "titulo" d); [|now split].
    destruct (procura "autor" d); [|now split]. rewrite Hd. now split.
  - destruct (procura "titulo" d); [|now split].
    destruct (procura "autor" d); [|now split].
    destruct (procura "ano_publicacao" d) as [vy|]; [|now split].
    destruct (py_int vy); [|now split]. rewrite Hd. now split.
Qed.

Lemma campo_ausente_nada_muda_exemplo :
  snd (Web.adicionar_livro (amb := Exemplo.decimal) Amostras.agora_5
         (VDict [("titulo"%string, VStr "Iracema")])
         Exemplo.loja_10_30_110) =
  Exemplo.loja_10_30_110.
Proof.
  refine (proj2 (@campo_ausente_nada_muda Exemplo.decimal Amostras.agora_5
                   [("titulo"%string, VStr "Iracema")] "autor"
                   Exemplo.loja_10_30_110 _ eq_refl)).
  simpl. right. left. reflexivity.
Defined.

(** X11. The command-line [atualizar_preco] and [remover_livro] on a book
    that is there. When the id typed compares equal to the id of a stored
    book, [atualizar_preco] with a price that reads as a number that is
    not negative returns [True], prints the title with the price typed
    and changes that book's price only, to the price as the column
    [preco] stores it ([REAL]: the given price, and 0.0 for -0.0);
    [remover_livro] returns [True],
    prints the title, and afterwards the id is not found while every
    other id gives what it gave before. *)
Theorem cli_atualizar_e_remover {amb : Ambiente} (r : relogio)
    (id_livro : string) (i : Z) (l : livro) (t : Cli.terminal) :
  sqlite_text_int id_livro = Some i ->
  SELECT_id i (db (Cli.arquivos t)) = Some l ->
  (forall novo_preco p,
      py_float_str novo_preco = Some p ->
      (p <? 0)%float = false -> is_nan p = false ->
      exists t',
        Cli.atualizar_preco r id_livro novo_preco t = (Retorna true, t')
        /\ SELECT_id i (db (Cli.arquivos t')) = Some (com_preco (REAL p) l)
        /\ (forall j, j <> i ->
              SELECT_id j (db (Cli.arquivos t')) =
              SELECT_id j (db (Cli.arquivos t)))
        /\ In (Cli.MPrecoAtualizado (titulo l) p) (Cli.saida t'))
  /\ (exists t',
        Cli.remover_livro r id_livro t = (Retorna true, t')
        /\ SELECT_id i (db (Cli.arquivos t')) = None
        /\ (forall j, j <> i ->
              SELECT_id j (db (Cli.arquivos t')) =
              SELECT_id j (db (Cli.arquivos t)))
        /\ In (Cli.MLivroRemovido (titulo l)) (Cli.saida t')).
Proof.
  intros Hid Hl. split.
  - intros novo_preco p Hp Hpos Hnan.
    assert (He : existsb (fun x => id x =? i) (livros (db (Cli.arquivos t)))
                 = true).
    { apply existsb_exists. apply find_some in Hl. now exists l. }
    unfold Cli.atualizar_preco, Cli._fazer_backup, Cli.print, Cli.nos_arquivos,
      bind, puro, ret, modifica, le.
    rewrite Hp, Hpos. cbn [Cli.arquivos fazer_backup db]. rewrite Hid, Hl.
    cbn [option_map]. unfold UPDATE_preco. rewrite Hnan. cbn [andb].
    eexists. split; [reflexivity|]. cbn [Cli.arquivos Cli.saida commit db].
    destruct (SELECT_id_atualizado i (REAL p) l (db (Cli.arquivos t)) Hl)
      as [Hi' Hj'].
    split; [exact Hi'|]. split; [exact Hj'|].
    apply in_or_app. right. now left.
  - unfold Cli.remover_livro, Cli._fazer_backup, Cli.print, Cli.nos_arquivos,
      bind, puro, ret, modifica, le.
    cbn [Cli.arquivos fazer_backup db]. rewrite Hid, Hl. cbn [option_map].
    eexists. split; [reflexivity|]. cbn [Cli.arquivos Cli.saida commit db].
    destruct (SELECT_id_removido i (db (Cli.arquivos t))) as [Hnone Houtros].
    split; [exact Hnone|]. split; [exact Houtros|].
    apply in_or_app. right. now left.
Qed.

Lemma cli_atualizar_e_remover_exemplo :
  exists t',
    Cli.remover_livro (amb := Exemplo.decimal) Amostras.agora_5 "2"
      Amostras.terminal_da_loja = (Retorna true, t')
    /\ SELECT_id 2 (db (Cli.arquivos t')) = None.
Proof.
  destruct (proj2 (@cli_atualizar_e_remover Exemplo.decimal Amostras.agora_5
                     "2" 2
                     (mk_livro 2 "Vidas Secas" "Graciliano Ramos" 1938 30)
                     Amostras.terminal_da_loja eq_refl eq_refl))
    as (t' & Heq & Hnone & _).
  exists t'. split; [exact Heq|exact Hnone].
Defined.

(** ** The CSV import *)





(** X13. An import that cannot start changes nothing. The HTTP import
    answers 400 and leaves every file as it was, without taking a backup,
    when no file part was sent, when its name is empty, or when the name
    does not end in [.csv]; the command-line import prints that the file
    was not found and returns [False], again without a backup, when the
    path given holds no file or, no path being given, when nothing was
    exported yet. *)
Theorem envio_recusado_nada_muda {amb : Ambiente} (r : relogio) :
  (forall s,
      Web.importar_csv r None s =
      (Web.mk_resposta 400 (Web.CErro "Nenhum arquivo enviado"), s))
  /\ (forall f s,
      Web.filename f = ""%string ->
      Web.importar_csv r (Some f) s =
      (Web.mk_resposta 400 (Web.CErro "Nenhum arquivo selecionado"), s))
  /\ (forall f s,
      Web.filename f <> ""%string -> endswith (Web.filename f) ".csv" = false ->
      Web.importar_csv r (Some f) s =
      (Web.mk_resposta 400 (Web.CErro "Apenas arquivos CSV são permitidos"), s))
  /\ (forall t,
      livros_exportados (Cli.arquivos t) = None ->
      Cli.importar_de_csv r None t =
      (Retorna false,
       Cli.mk_terminal (Cli.arquivos t)
         (Cli.saida t ++ [Cli.MArquivoNaoEncontrado])))
  /\ (forall t,
      Cli.importar_de_csv r (Some None) t =
      (Retorna false,
       Cli.mk_terminal (Cli.arquivos t)
         (Cli.saida t ++ [Cli.MArquivoNaoEncontrado]))).
Proof.
  repeat apply conj.
  - reflexivity.
  - intros f s Hf. unfold Web.importar_csv, Web.tenta. now rewrite Hf.
  - intros f s Hf Hcsv. unfold Web.importar_csv, Web.tenta.
    apply String.eqb_neq in Hf. now rewrite Hf, Hcsv.
  - intros t Ht. unfold Cli.importar_de_csv, bind, le. now rewrite Ht.
  - reflexivity.
Qed.

Lemma envio_recusado_nada_muda_exemplo :
  Web.importar_csv (amb := Exemplo.decimal) Amostras.agora_5
    (Some (Web.mk_envio "livros.txt" Amostras.csv_a)) Exemplo.loja_10_30_110 =
  (Web.mk_resposta 400 (Web.CErro "Apenas arquivos CSV são permitidos"),
   Exemplo.loja_10_30_110).
Proof.
  apply (proj1 (proj2 (proj2 (@envio_recusado_nada_muda Exemplo.decimal
                                Amostras.agora_5)))
           (Web.mk_envio "livros.txt" Amostras.csv_a) Exemplo.loja_10_30_110).
  - discriminate.
  - reflexivity.
Defined.







(** ** The statistics and the report *)

Section Grupos.
Context {K : Type} (kleb keqb : K -> K -> bool).
Hypothesis keqb_eq : forall a b, keqb a b = true <-> a = b.
Hypothesis kleb_total : forall a b, kleb a b = true \/ kleb b a = true.
Hypothesis kleb_antisym :
  forall a b, kleb a b = true -> kleb b a = true -> a = b.
Hypothesis kleb_trans :
  forall a b c, kleb a b = true -> kleb b c = true -> kleb a c = true.

Lemma antes_trans (a b c : K) :
  antes kleb a b -> antes kleb b c -> antes kleb a c.
Proof.
  unfold antes. intros Hab Hbc.
  destruct (kleb c a) eqn:Hca; [|reflexivity].
  destruct (kleb_total a b) as [H|H]; [|congruence].
  pose proof (kleb_trans _ _ _ Hca H). congruence.
Qed.

Lemma antes_neq (a b : K) : antes kleb a b -> keqb b a = false.
Proof.
  unfold antes. intros H. destruct (keqb b a) eqn:E; [|reflexivity].
  apply keqb_eq in E. subst b.
  destruct (kleb_total a a); congruence.
Qed.

Lemma keqb_refl (a : K) : keqb a a = true.
Proof. now apply keqb_eq. Qed.

Lemma keqb_sym (a b : K) : keqb a b = keqb b a.
Proof.
  destruct (keqb a b) eqn:E1, (keqb b a) eqn:E2; auto.
  - apply keqb_eq in E1. subst. now rewrite keqb_refl in E2.
  - apply keqb_eq in E2. subst. now rewrite keqb_refl in E1.
Qed.

Lemma total_de_ausente (k : K) (g : list (K * Z)) :
  Forall (antes kleb k) (map fst g) -> total_de keqb k g = 0.
Proof.
  unfold total_de. induction g as [|[k' n] g IH]; intros H; [reflexivity|].
  cbn [map fst] in H. apply Forall_cons_iff in H. destruct H as [Hk Hg].
  cbn [find fst]. rewrite keqb_sym, (antes_neq _ _ Hk). now apply IH.
Qed.

Lemma conta_chaves (k : K) (g : list (K * Z)) (x : K) :
  In x (map fst (conta kleb keqb k g)) -> x = k \/ In x (map fst g).
Proof.
  induction g as [|[k' n] g IH]; cbn [conta map fst].
  - intros [<-|[]]. now left.
  - destruct (keqb k k'); [|destruct (kleb k k')]; cbn [map fst In].
    + intros [H|H]; auto.
    + intros [H|[H|H]]; auto.
    + intros [H|H]; auto. apply IH in H. destruct H; auto.
Qed.

(** Counting one more key keeps the groups in order, adds one to the
    count of that key and leaves the other counts alone. *)
Lemma conta_ok (k : K) (g : list (K * Z)) :
  grupos_ok kleb g ->
  grupos_ok kleb (conta kleb keqb k g)
  /\ (forall k', total_de keqb k' (conta kleb keqb k g) =
                 total_de keqb k' g + (if keqb k' k then 1 else 0))
  /\ soma_totais (conta kleb keqb k g) = soma_totais g + 1.
Proof.
  unfold grupos_ok.
  induction g as [|[k0 n] g IH]; intros [Hs Hp].
  - cbn [conta map fst]. repeat split.
    + constructor; constructor.
    + constructor; [cbn; lia|constructor].
    + intros k'. unfold total_de. cbn [find fst snd].
      destruct (keqb k' k); reflexivity.
  - cbn [map fst] in Hs. apply StronglySorted_inv in Hs.
    destruct Hs as [Hs Hk0].
    apply Forall_cons_iff in Hp. destruct Hp as [Hn Hp]. cbn [snd] in Hn.
    cbn [conta]. destruct (keqb k k0) eqn:Heq.
    + apply keqb_eq in Heq. subst k0. repeat split.
      * cbn [map fst]. now constructor.
      * constructor; [cbn [snd]; lia|exact Hp].
      * intros k'. unfold total_de. cbn [find fst snd].
        destruct (keqb k' k); cbn [snd]; lia.
      * unfold soma_totais. cbn [map snd fold_right]. lia.
    + destruct (kleb k k0) eqn:Hle.
      * assert (Hkk0 : antes kleb k k0).
        { unfold antes. destruct (kleb k0 k) eqn:E; [|reflexivity].
          pose proof (kleb_antisym _ _ Hle E) as ->.
          now rewrite keqb_refl in Heq. }
        assert (Hall : Forall (antes kleb k) (map fst ((k0, n) :: g))).
        { cbn [map fst]. constructor; [exact Hkk0|].
          eapply Forall_impl; [|exact Hk0].
          intros x. now apply antes_trans. }
        repeat split.
        -- cbn [map fst]. constructor; [now constructor|exact Hall].
        -- constructor; [cbn; lia|]. now constructor.
        -- intros k'. pose proof (total_de_ausente k _ Hall) as H0.
           unfold total_de in *. cbn [find fst snd] in *.
           destruct (keqb k' k) eqn:E.
           ++ apply keqb_eq in E. subst k'. cbn [snd]. lia.
           ++ lia.
        -- unfold soma_totais. cbn [map snd fold_right]. lia.
      * destruct (IH (conj Hs Hp)) as ([Hs' Hp'] & Ht & Hsum).
        repeat split.
        -- cbn [map fst]. constructor; [exact Hs'|].
           apply Forall_forall. intros x Hx.
           apply conta_chaves in Hx. destruct Hx as [->|Hx].
           ++ exact Hle.
           ++ rewrite Forall_forall in Hk0. now apply Hk0.
        -- now constructor.
        -- intros k'. unfold total_de. cbn [find fst snd].
           destruct (keqb k' k0) eqn:E.
           ++ apply keqb_eq in E. subst k'. rewrite keqb_sym, Heq. lia.
           ++ apply Ht.
        -- unfold soma_totais in *. cbn [map snd fold_right]. lia.
Qed.

Lemma fold_conta_ok (ks : list K) : forall g,
  grupos_ok kleb g ->
  grupos_ok kleb (fold_left (fun g k => conta kleb keqb k g) ks g)
  /\ (forall k, total_de keqb k (fold_left (fun g k => conta kleb keqb k g) ks g) =
                total_de keqb k g + ocorrencias keqb k ks)
  /\ soma_totais (fold_left (fun g k => conta kleb keqb k g) ks g) =
     soma_totais g + Z.of_nat (List.length ks).
Proof.
  induction ks as [|k ks IH]; intros g Hg; cbn [fold_left].
  - split; [exact Hg|]. split.
    + intros k. unfold ocorrencias. cbn [filter List.length]. lia.
    + cbn [List.length]. lia.
  - destruct (conta_ok k g Hg) as (Hg' & Ht & Hsum).
    destruct (IH _ Hg') as (Hok & Ht' & Hsum').
    split; [exact Hok|]. split.
    + intros k'. rewrite Ht', Ht. unfold ocorrencias. cbn [filter].
      destruct (keqb k' k); cbn [List.length]; lia.
    + rewrite Hsum', Hsum. cbn [List.length]. lia.
Qed.

Lemma grupo_total (g : list (K * Z)) (k : K) (n : Z) :
  grupos_ok kleb g ->
  In (k, n) g <-> (total_de keqb k g = n /\ 0 < n).
Proof.
  unfold grupos_ok, total_de.
  induction g as [|[k0 n0] g IH]; intros [Hs Hp].
  - cbn. split; [tauto|lia].
  - cbn [map fst] in Hs. apply StronglySorted_inv in Hs.
    destruct Hs as [Hs Hk0].
    apply Forall_cons_iff in Hp. destruct Hp as [Hn Hp]. cbn [snd] in Hn.
    cbn [find fst snd In]. destruct (keqb k k0) eqn:E.
    + apply keqb_eq in E. subst k0. split.
      * intros [H|H]; [injection H as <-; now split|].
        exfalso. rewrite Forall_forall in Hk0.
        specialize (Hk0 k (in_map fst _ _ H)).
        apply antes_neq in Hk0. now rewrite keqb_refl in Hk0.
      * intros [<- _]. now left.
    + rewrite <- (IH (conj Hs Hp)). split; [|tauto].
      intros [H|H]; [|exact H]. injection H as -> ->.
      now rewrite keqb_refl in E.
Qed.

(** The rows of [GROUP BY] with [COUNT]: one per key that occurs, in the
    order of the keys, each with the number of its occurrences. *)
Lemma GROUP_BY_COUNT_conta (ks : list K) :
  StronglySorted (antes kleb) (map fst (GROUP_BY_COUNT kleb keqb ks))
  /\ (forall k n,
        In (k, n) (GROUP_BY_COUNT kleb keqb ks) <->
        (n = ocorrencias keqb k ks /\ 0 < n))
  /\ soma_totais (GROUP_BY_COUNT kleb keqb ks) = Z.of_nat (List.length ks).
Proof.
  assert (H0 : grupos_ok kleb []) by (split; constructor).
  destruct (fold_conta_ok ks [] H0) as (Hok & Ht & Hsum).
  unfold GROUP_BY_COUNT. repeat split.
  - apply Hok.
  - apply (grupo_total _ k n Hok) in H. destruct H as [H _].
    rewrite Ht in H. unfold total_de in H. cbn in H. lia.
  - apply (grupo_total _ k n Hok) in H. tauto.
  - intros [Hn Hpos]. apply (grupo_total _ k n Hok). split; [|exact Hpos].
    rewrite Ht. unfold total_de. cbn. lia.
  - exact Hsum.
Qed.

End Grupos.

Lemma string_eqb_iff (a b : string) : String.eqb a b = true <-> a = b.
Proof. apply String.eqb_eq. Qed.

Lemma Z_leb_total (a b : Z) : (a <=? b) = true \/ (b <=? a) = true.
Proof. destruct (Z.leb_spec a b); [now left|right; apply Z.leb_le; lia]. Qed.

Lemma Z_leb_antisym (a b : Z) : (a <=? b) = true -> (b <=? a) = true -> a = b.
Proof. intros H1 H2. apply Z.leb_le in H1. apply Z.leb_le in H2. lia. Qed.

Lemma Z_leb_trans (a b c : Z) :
  (a <=? b) = true -> (b <=? c) = true -> (a <=? c) = true.
Proof.
  intros H1 H2. apply Z.leb_le in H1. apply Z.leb_le in H2.
  apply Z.leb_le. lia.
Qed.

Lemma faixa_rotulo (p : float) :
  In (Web.faixa p)
    ["Até R$ 20"; "R$ 20-50"; "R$ 50-100"; "Acima de R$ 100"]%string.
Proof.
  unfold Web.faixa.
  destruct (p <? 20)%float; [now left|].
  destruct (p <? 50)%float; [right; now left|].
  destruct (p <? 100)%float; [right; right; now left|].
  right; right; right; now left.
Qed.

Lemma ocorrencias_In {K : Type} (keqb : K -> K -> bool) (k : K) (ks : list K) :
  (forall a b, keqb a b = true <-> a = b) ->
  0 < ocorrencias keqb k ks -> In k ks.
Proof.
  intros Heq. unfold ocorrencias. intros H.
  destruct (filter (keqb k) ks) as [|x l] eqn:E; [simpl in H; lia|].
  assert (Hx : In x (filter (keqb k) ks)) by (rewrite E; now left).
  apply filter_In in Hx. destruct Hx as [Hx Hk]. apply Heq in Hk. now subst.
Qed.

(** X17. The price distribution of GET /api/estatisticas lists exactly
    the price bands that hold a book, each once and with the number of
    books in it: a pair of a band and a count is in the answer if and only
    if the count is the number of books whose price falls in the band and
    is at least 1. Every band listed is one of the four labels, and the
    counts add up to the number of books. *)
Theorem distribuicao_precos_conta (s : sistema) :
  let faixas := map (fun l => Web.faixa (preco l)) (livros (db s)) in
  let d := Web.distribuicao_precos_de (Web.obter_estatisticas s) in
  (forall f n, In (f, n) d <-> (n = ocorrencias String.eqb f faixas /\ 0 < n))
  /\ (forall f n, In (f, n) d ->
        In f ["Até R$ 20"; "R$ 20-50"; "R$ 50-100"; "Acima de R$ 100"]%string)
  /\ NoDup (map fst d)
  /\ soma_totais d = Z.of_nat (List.length (livros (db s))).
Proof.
  intros faixas d.
  destruct (GROUP_BY_COUNT_conta String.leb String.eqb string_eqb_iff
              String.leb_total String.leb_antisym leb_trans faixas)
    as (Hs & Hin & Hsum).
  change d with (GROUP_BY_COUNT String.leb String.eqb faixas).
  split; [exact Hin|]. split; [|split].
  - intros f n H. apply Hin in H. destruct H as [-> Hpos].
    apply (ocorrencias_In _ _ _ string_eqb_iff) in Hpos.
    unfold faixas in Hpos. apply in_map_iff in Hpos.
    destruct Hpos as (l & <- & _). apply faixa_rotulo.
  - clear Hin Hsum. induction Hs as [|k l Hl IH Hk]; constructor; auto.
    intros Hk'. rewrite Forall_forall in Hk. specialize (Hk k Hk').
    unfold antes in Hk. destruct (String.leb_total k k); congruence.
  - rewrite Hsum. unfold faixas. now rewrite length_map.
Qed.

Lemma In_primeiros {A : Type} (n : nat) (l : list A) (x : A) :
  In x (firstn n l) -> In x l.
Proof.
  revert n. induction l as [|y l IH]; intros [|n]; cbn [firstn In]; auto.
  - contradiction.
  - intros [H|H]; eauto.
Qed.

Lemma insere_total_perm {K : Type} (x : K * Z) (l : list (K * Z)) :
  Permutation (insere_total x l) (x :: l).
Proof.
  induction l as [|y l IH]; cbn [insere_total]; [reflexivity|].
  destruct (snd y <=? snd x); [reflexivity|].
  rewrite IH. apply perm_swap.
Qed.

Lemma ORDER_BY_total_DESC_perm {K : Type} (l : list (K * Z)) :
  Permutation (ORDER_BY_total_DESC l) l.
Proof.
  induction l as [|x l IH]; cbn [ORDER_BY_total_DESC fold_right]; [reflexivity|].
  fold (ORDER_BY_total_DESC l). rewrite insere_total_perm. now constructor.
Qed.

Lemma insere_total_ordenado {K : Type} (x : K * Z) (l : list (K * Z)) :
  StronglySorted total_ge l -> StronglySorted total_ge (insere_total x l).
Proof.
  induction 1 as [|y l Hl IH Hy]; cbn [insere_total].
  - constructor; constructor.
  - destruct (Z.leb_spec (snd y) (snd x)) as [Hyx|Hxy].
    + constructor; [now constructor|].
      constructor; [exact Hyx|].
      eapply Forall_impl; [|exact Hy]. unfold total_ge. intros z. lia.
    + constructor; [exact IH|].
      apply Forall_forall. intros z Hz.
      apply (Permutation_in _ (insere_total_perm x l)) in Hz.
      destruct Hz as [<-|Hz].
      * unfold total_ge. lia.
      * rewrite Forall_forall in Hy. now apply Hy.
Qed.

Lemma ORDER_BY_total_DESC_ordenado {K : Type} (l : list (K * Z)) :
  StronglySorted total_ge (ORDER_BY_total_DESC l).
Proof.
  induction l as [|x l IH]; cbn [ORDER_BY_total_DESC fold_right].
  - constructor.
  - now apply insere_total_ordenado.
Qed.

Lemma StronglySorted_firstn {A : Type} (R : A -> A -> Prop) (n : nat)
    (l : list A) :
  StronglySorted R l -> StronglySorted R (firstn n l).
Proof.
  revert n. induction l as [|x l IH]; intros [|n] H; cbn [firstn];
    try constructor.
  - apply StronglySorted_inv in H. now apply IH.
  - apply StronglySorted_inv in H. destruct H as [_ H].
    apply Forall_forall. intros y Hy. rewrite Forall_forall in H.
    apply H. eapply In_primeiros; eauto.
Qed.

Lemma StronglySorted_partes {A : Type} (R : A -> A -> Prop) (l1 l2 : list A) :
  StronglySorted R (l1 ++ l2) ->
  forall x y, In x l1 -> In y l2 -> R x y.
Proof.
  induction l1 as [|a l1 IH]; cbn [app]; intros Hs x y Hx Hy; [contradiction|].
  apply StronglySorted_inv in Hs. destruct Hs as [Hs Ha].
  destruct Hx as [<-|Hx].
  - rewrite Forall_forall in Ha. apply Ha. apply in_or_app. now right.
  - now apply (IH Hs x y).
Qed.

(** X18. The books-per-author list of GET /api/estatisticas holds at most
    ten authors, each with the number of that author's books (at least 1),
    in decreasing order of that number; and they are ten of the most
    prolific: an author who is not listed has no more books than any
    author who is. *)
Theorem livros_por_autor_dez_primeiros (s : sistema) :
  let autores := map autor (livros (db s)) in
  let d := livros_por_autor_de (Web.obter_estatisticas s) in
  (List.length d <= 10)%nat
  /\ (forall a n, In (a, n) d -> n = ocorrencias String.eqb a autores /\ 0 < n)
  /\ StronglySorted total_ge d
  /\ (forall a n a',
        In (a, n) d -> ~ In a' (map fst d) ->
        ocorrencias String.eqb a' autores <= n).
Proof.
  intros autores d.
  destruct (GROUP_BY_COUNT_conta String.leb String.eqb string_eqb_iff
              String.leb_total String.leb_antisym leb_trans autores)
    as (_ & Hin & _).
  set (g := GROUP_BY_COUNT String.leb String.eqb autores) in *.
  change d with (firstn 10 (ORDER_BY_total_DESC g)).
  pose proof (ORDER_BY_total_DESC_perm g) as Hperm.
  pose proof (ORDER_BY_total_DESC_ordenado g) as Hsort.
  set (o := ORDER_BY_total_DESC g) in *.
  assert (Hd : forall a n, In (a, n) (firstn 10 o) ->
                 n = ocorrencias String.eqb a autores /\ 0 < n).
  { intros a n H. apply In_primeiros in H.
    apply (Permutation_in _ Hperm) in H. now apply Hin. }
  repeat apply conj.
  - apply firstn_le_length.
  - exact Hd.
  - now apply StronglySorted_firstn.
  - intros a n a' Ha Ha'.
    destruct (Z.le_gt_cases (ocorrencias String.eqb a' autores) 0) as [H0|Hpos].
    + destruct (Hd a n Ha). lia.
    + assert (Hg : In (a', ocorrencias String.eqb a' autores) g)
        by (apply Hin; split; [reflexivity|lia]).
      apply (Permutation_in _ (Permutation_sym Hperm)) in Hg.
      rewrite <- (firstn_skipn 10 o) in Hg, Hsort.
      apply in_app_or in Hg. destruct Hg as [Hg|Hg].
      * exfalso. apply Ha'. now apply (in_map fst) in Hg.
      * exact (StronglySorted_partes _ _ _ Hsort _ _ Ha Hg).
Qed.

Lemma decada_perto (l : livro) :
  Z.abs (ano_publicacao l - decada l) < 10 /\ decada l mod 10 = 0.
Proof.
  unfold decada. set (y := ano_publicacao l).
  pose proof (Z.quot_rem' y 10) as Hqr.
  pose proof (Z.rem_bound_abs y 10 ltac:(lia)) as Habs.
  split; [lia|]. now rewrite Z.mod_mul by lia.
Qed.

(** X19. The books-per-decade list of GET /api/estatisticas lists exactly
    the decades that hold a book, in increasing order, each with the
    number of its books: a pair of a decade and a count is in the answer
    if and only if the count is the number of books of that decade and is
    at least 1. The counts add up to the number of books, and every book
    is counted under a multiple of 10 less than ten years away from its
    year. *)
Theorem livros_por_decada_conta (s : sistema) :
  let decadas := map decada (livros (db s)) in
  let d := livros_por_decada_de (Web.obter_estatisticas s) in
  (forall k n, In (k, n) d <-> (n = ocorrencias Z.eqb k decadas /\ 0 < n))
  /\ StronglySorted Z.lt (map fst d)
  /\ soma_totais d = Z.of_nat (List.length (livros (db s)))
  /\ (forall l, In l (livros (db s)) ->
        exists n, In (decada l, n) d
                  /\ Z.abs (ano_publicacao l - decada l) < 10
                  /\ decada l mod 10 = 0).
Proof.
  intros decadas d.
  destruct (GROUP_BY_COUNT_conta Z.leb Z.eqb Z.eqb_eq
              Z_leb_total Z_leb_antisym Z_leb_trans decadas)
    as (Hs & Hin & Hsum).
  change d with (GROUP_BY_COUNT Z.leb Z.eqb decadas).
  split; [exact Hin|]. split; [|split].
  - clear Hin Hsum. induction Hs as [|k l Hl IH Hk]; constructor; auto.
    eapply Forall_impl; [|exact Hk]. intros x. unfold antes.
    intros Hx. apply Z.leb_gt in Hx. exact Hx.
  - rewrite Hsum. unfold decadas. now rewrite length_map.
  - intros l Hl.
    exists (ocorrencias Z.eqb (decada l) decadas).
    destruct (decada_perto l) as (Habs & Hmod).
    repeat split; auto.
    apply Hin. split; [reflexivity|].
    unfold ocorrencias.
    assert (Hf : In (decada l) (filter (Z.eqb (decada l)) decadas)).
    { apply filter_In. split; [now apply in_map|apply Z.eqb_refl]. }
    destruct (filter (Z.eqb (decada l)) decadas); [contradiction|].
    cbn [List.length]. lia.
Qed.

Lemma nodup_menor {A : Type} (dec : forall x y : A, {x = y} + {x <> y})
    (l : list A) :
  (List.length (nodup dec l) <= List.length l)%nat.
Proof.
  induction l as [|x l IH]; cbn [nodup List.length]; [lia|].
  destruct (in_dec dec x l); cbn [List.length]; lia.
Qed.

(** X20. GET /api/relatorio-html on a table without books is answered 400
    and on any other table 200; the report then gives the number of books
    as the total, the books ordered by title (every book once) as the
    catalogue, a number of distinct authors between 1 and the number of
    books, and as mean price the total value divided by the number of
    books. *)
Theorem relatorio_do_catalogo (s : sistema) :
  (livros (db s) = [] ->
   Web.gerar_relatorio_html s =
   Web.mk_resposta 400 (Web.CErro "Nenhum livro para gerar relatório"))
  /\ (livros (db s) <> [] ->
      exists autores_unicos valor_total,
        Web.gerar_relatorio_html s =
        Web.mk_resposta 200
          (Web.CRelatorio (Z.of_nat (List.length (livros (db s))))
             autores_unicos valor_total
             (valor_total
              / Web.total_float (Z.of_nat (List.length (livros (db s)))))%float
             (ORDER_BY_titulo (livros (db s))))
        /\ 1 <= autores_unicos <= Z.of_nat (List.length (livros (db s)))
        /\ Permutation (ORDER_BY_titulo (livros (db s))) (livros (db s))
        /\ StronglySorted titulo_le (ORDER_BY_titulo (livros (db s)))).
Proof.
  split.
  - intros H. unfold Web.gerar_relatorio_html. now rewrite H.
  - intros Hne. unfold Web.gerar_relatorio_html.
    pose proof (ORDER_BY_titulo_perm (livros (db s))) as Hperm.
    pose proof (Permutation_length Hperm) as Hlen.
    destruct (ORDER_BY_titulo (livros (db s))) as [|x cat] eqn:Hcat.
    + apply Permutation_nil in Hperm. contradiction.
    + rewrite <- Hlen. eexists. eexists. split; [reflexivity|].
      split; [|split; [exact Hperm|]].
      * pose proof (nodup_menor string_dec (map autor (x :: cat))) as Hle.
        rewrite length_map in Hle.
        assert (Hin : In (autor x) (nodup string_dec (map autor (x :: cat))))
          by (apply nodup_In; now left).
        destruct (nodup string_dec (map autor (x :: cat))); [contradiction|].
        cbn [List.length] in *. lia.
      * rewrite <- Hcat. apply ORDER_BY_titulo_ordenado.
Qed.

Lemma relatorio_do_catalogo_exemplo :
  exists autores_unicos valor_total,
    Web.gerar_relatorio_html Exemplo.loja_10_30_110 =
    Web.mk_resposta 200
      (Web.CRelatorio
         (Z.of_nat (List.length (livros (db Exemplo.loja_10_30_110))))
         autores_unicos valor_total
         (valor_total
          / Web.total_float
              (Z.of_nat (List.length (livros (db Exemplo.loja_10_30_110)))))%float
         (ORDER_BY_titulo (livros (db Exemplo.loja_10_30_110))))
    /\ 1 <= autores_unicos.
Proof.
  destruct (proj2 (relatorio_do_catalogo Exemplo.loja_10_30_110)
              ltac:(discriminate))
    as (au & vt & Hresp & Hau & _).
  exists au, vt. split; [exact Hresp|lia].
Defined.

(** ** More on the backups *)

Lemma limpar_poucos (dir : list arquivo) :
  (List.length dir <= 5)%nat -> limpar_backups_antigos dir = dir.
Proof.
  intros H. unfold limpar_backups_antigos, backups_excedentes.
  rewrite skipn_all2; [reflexivity|].
  now rewrite (Permutation_length (ordena_desc_perm dir)).
Qed.

(** X21. [limpar_backups_antigos] only removes, removes nothing from a
    directory of at most five backups, and has nothing left to remove
    when it runs a second time. *)
Theorem limpar_backups_idempotente (dir : list arquivo) :
  limpar_backups_antigos (limpar_backups_antigos dir) =
    limpar_backups_antigos dir
  /\ ((List.length dir <= 5)%nat -> limpar_backups_antigos dir = dir)
  /\ incl (limpar_backups_antigos dir) dir.
Proof.
  split; [|split].
  - apply limpar_poucos, limpar_no_maximo_5.
  - apply limpar_poucos.
  - rewrite limpar_filter. intros f Hf. apply filter_In in Hf. tauto.
Qed.

Lemma limpar_backups_idempotente_exemplo :
  limpar_backups_antigos [mk_arquivo 7 1000 (mk_banco [] 0)] =
  [mk_arquivo 7 1000 (mk_banco [] 0)].
Proof.
  apply (proj1 (proj2 (limpar_backups_idempotente
                         [mk_arquivo 7 1000 (mk_banco [] 0)]))).
  simpl. lia.
Defined.

Lemma copy2_In (novo : arquivo) (dir : list arquivo) :
  In novo (copy2 novo dir).
Proof.
  induction dir as [|f dir IH]; cbn [copy2]; [now left|].
  destruct (carimbo f =? carimbo novo); [now left|now right].
Qed.

Lemma copy2_permutacao (novo : arquivo) (dir : list arquivo) :
  NoDup (map carimbo dir) ->
  Permutation (copy2 novo dir)
    (novo :: filter (fun g => negb (carimbo g =? carimbo novo)) dir).
Proof.
  induction dir as [|f dir IH]; cbn [copy2 filter map]; intros Hnd.
  - reflexivity.
  - apply NoDup_cons_iff in Hnd. destruct Hnd as [Hf Hnd].
    destruct (carimbo f =? carimbo novo) eqn:E; cbn [negb].
    + apply Z.eqb_eq in E. constructor.
      rewrite filter_todos; [reflexivity|].
      intros g Hg. apply negb_true_iff, Z.eqb_neq. intros Hc.
      apply Hf. rewrite E, <- Hc. now apply in_map.
    + rewrite (IH Hnd). apply perm_swap.
Qed.

Lemma filter_filter_andb {A : Type} (p q : A -> bool) (l : list A) :
  filter p (filter q l) = filter (fun x => p x && q x) l.
Proof.
  induction l as [|x l IH]; [reflexivity|]. cbn [filter].
  destruct (q x); cbn [filter]; rewrite ?andb_true_r, ?andb_false_r.
  - destruct (p x); now rewrite IH.
  - exact IH.
Qed.

(** The copy [fazer_backup] takes survives its cleanup when fewer than
    five other backups are as recent as the database file. *)
Lemma fazer_backup_guarda (r : relogio) (s : sistema) :
  NoDup (map carimbo (backups s)) ->
  (List.length
     (filter (fun g => ((db_mtime s <=? mtime g)
                        && negb (carimbo g =? segundo (agora r)))%Z)
        (backups s)) < 5)%nat ->
  In (novo_backup r s) (backups (fazer_backup r s)).
Proof.
  intros Hnd Hpoucos. cbn [fazer_backup backups].
  apply limpar_mantem.
  - now apply copy2_NoDup.
  - apply copy2_In.
  - pose proof (copy2_permutacao (novo_backup r s) (backups s) Hnd) as Hp.
    apply (filter_permutacao
             (fun g => (mtime (novo_backup r s) <=? mtime g)%Z)) in Hp.
    rewrite (Permutation_length Hp). cbn [filter].
    replace (mtime (novo_backup r s) <=? mtime (novo_backup r s)) with true
      by (symmetry; apply Z.leb_refl).
    cbn [List.length]. rewrite filter_filter_andb.
    cbn [novo_backup mtime carimbo]. lia.
Qed.

(** X22. A change made through the HTTP variant can be undone from the
    backup taken for it. When a request changes the table (an addition, a
    price update, a removal or an import of at least one row, answered
    with success), the backups directory afterwards holds the file named
    after the second of the request whose content is the table as it was
    before the request and whose modification time is that of the
    database file before it; provided no two backups bear the same name
    and fewer than five backups of another name are as recent as the
    database file was. *)
Theorem backup_guarda_estado_anterior {amb : Ambiente} (r : relogio)
    (p : Web.pedido) (s : sistema) :
  NoDup (map carimbo (backups s)) ->
  (List.length
     (filter (fun g => ((db_mtime s <=? mtime g)
                        && negb (carimbo g =? segundo (agora r)))%Z)
        (backups s)) < 5)%nat ->
  Web.mutou (fst (Web.atende r p s)) = true ->
  In {| carimbo := segundo (agora r); mtime := db_mtime s; conteudo := db s |}
     (backups (snd (Web.atende r p s))).
Proof.
  intros Hnd Hpoucos Hmutou.
  destruct (Web.atende r p s) as [resp s'] eqn:Heq. cbn [fst snd] in *.
  destruct (atende_mutou r p s s' resp Heq Hmutou) as [b ->].
  unfold commit_apos_backup. cbn [commit backups].
  now apply fazer_backup_guarda.
Qed.

Lemma backup_guarda_estado_anterior_exemplo :
  In {| carimbo := segundo (agora Amostras.agora_5);
        mtime := db_mtime Exemplo.loja_10_30_110;
        conteudo := db Exemplo.loja_10_30_110 |}
     (backups (snd (Web.atende (amb := Exemplo.decimal) Amostras.agora_5
                      (Web.DELETE_livros 2) Exemplo.loja_10_30_110))).
Proof.
  apply (@backup_guarda_estado_anterior Exemplo.decimal Amostras.agora_5
           (Web.DELETE_livros 2) Exemplo.loja_10_30_110).
  - constructor.
  - simpl. lia.
  - reflexivity.
Defined.

(** X23. GET /api/backups lists every backup file once, the most recently
    modified first; after POST /api/backup the list has at most five
    entries, and that request leaves the table as it was. *)
Theorem listar_backups_recentes_primeiro (r : relogio) (s : sistema) :
  Permutation (listar_backups s) (backups s)
  /\ StronglySorted mais_recente (listar_backups s)
  /\ (List.length (listar_backups (snd (Web.criar_backup r s))) <= 5)%nat
  /\ db (snd (Web.criar_backup r s)) = db s.
Proof.
  unfold listar_backups. repeat apply conj.
  - apply ordena_desc_perm.
  - apply ordena_desc_ordenado.
  - rewrite (Permutation_length (ordena_desc_perm _)).
    cbn [Web.criar_backup snd fazer_backup backups].
    apply limpar_no_maximo_5.
  - reflexivity.
Qed.

(** X24. The command-line [_fazer_backup] reports what it does: it prints
    the line of the backup created and then one line for each backup file
    removed, and the files it reports as removed are exactly the files of
    the directory (as it was once the copy was in it) that are no longer
    there afterwards; every file that is there afterwards was in that
    directory, and the table is untouched. *)
Theorem cli_backup_anuncia_removidos (r : relogio) (t : Cli.terminal) :
  NoDup (map carimbo (backups (Cli.arquivos t))) ->
  let dir := copy2 (novo_backup r (Cli.arquivos t)) (backups (Cli.arquivos t)) in
  let t' := snd (Cli._fazer_backup r t) in
  exists removidos,
    Cli.saida t' =
      Cli.saida t
        ++ Cli.MBackupCriado (segundo (agora r))
           :: map (fun b => Cli.MBackupAntigoRemovido (carimbo b)) removidos
    /\ (forall g, In g removidos <->
                  (In g dir /\ ~ In g (backups (Cli.arquivos t'))))
    /\ (forall g, In g (backups (Cli.arquivos t')) -> In g dir)
    /\ db (Cli.arquivos t') = db (Cli.arquivos t).
Proof.
  intros Hnd dir t'.
  assert (Hnd' : NoDup (map carimbo dir)) by now apply copy2_NoDup.
  exists (backups_excedentes dir).
  unfold t', Cli._fazer_backup, modifica.
  cbn [snd Cli.saida Cli.arquivos fazer_backup backups db]. fold dir.
  repeat split.
  - now apply excedentes_incl.
  - intros Hfica. rewrite limpar_filter in Hfica. apply filter_In in Hfica.
    destruct Hfica as [_ Hfica].
    rewrite (fica_excedente _ _ H) in Hfica. discriminate.
  - intros [Hg Hfora].
    apply (nao_fica_excedente dir); auto using excedentes_incl.
    destruct (fica (backups_excedentes dir) g) eqn:E; [|reflexivity].
    exfalso. apply Hfora. rewrite limpar_filter. apply filter_In. now split.
  - intros g Hg. rewrite limpar_filter in Hg. apply filter_In in Hg. tauto.
Qed.

Lemma cli_backup_anuncia_removidos_exemplo :
  exists removidos,
    Cli.saida (snd (Cli._fazer_backup Amostras.agora_5
                      Amostras.terminal_da_loja)) =
      Cli.saida Amostras.terminal_da_loja
        ++ Cli.MBackupCriado (segundo (agora Amostras.agora_5))
           :: map (fun b => Cli.MBackupAntigoRemovido (carimbo b)) removidos.
Proof.
  destruct (cli_backup_anuncia_removidos Amostras.agora_5
              Amostras.terminal_da_loja ltac:(constructor))
    as (removidos & Hsaida & _).
  exists removidos. exact Hsaida.
Defined.

